(** * Cognition-to-Value Protocol: the CAR execution gate, in Rocq

    A shallow embedding of the TypeScript sources of the deterministic
    execution gate (compute / validate / attest / route), of the hybrid
    attestation suites and of the key-rotation planner, with the
    properties of the protocol description stated and settled on it.
    The crypto policies of the envelope, the address resolution of the
    Interledger module and the settlement records are embedded as well,
    and further properties of the code are proved after those of the
    description.

    Conventions.
    - A JavaScript [number] is an IEEE 754 binary64 value: Rocq's
      primitive [float], with its own comparison and arithmetic.
    - A JavaScript string is a Rocq [string]; a character stands for one
      code unit below 256.
    - An optional field ([x?: T]) is an [option].
    - [throw new Error(msg)] is the result [Throw msg]; an [async]
      function is its body run in sequence, a rejected promise being a
      throw.
    - [Date.now()], [Math.random()] and [randomUUID()] read the next
      value of a stream carried by the [World]; [console.log] appends a
      line to the world's console. *)

From Stdlib Require Import ZArith String List Bool Ascii DecimalString DecimalZ.
From Stdlib Require Import Floats.PrimFloat Floats.FloatOps Floats.SpecFloat.
From stdpp Require Import gmap strings list relations.

#[local] Set Warnings "-inexact-float,-register-all,-clear-no-such-hyp".
#[local] Open Scope string_scope.

(** ** The JavaScript runtime the sources run on *)

Module JS.

Definition number := float.

(** Values handed to [JSON.stringify] and to the logger's [data]. *)
Inductive JSValue :=
| JUndefined
| JNull
| JBool (b : bool)
| JNum (x : number)
| JStr (s : string)
| JArr (xs : list JSValue)
| JObj (fields : list (string * JSValue)).

Definition JStrs (l : list string) : JSValue := JArr (map JStr l).

Definition JOptStr (o : option string) : JSValue :=
  match o with Some s => JStr s | None => JUndefined end.

Definition JOptNum (o : option number) : JSValue :=
  match o with Some x => JNum x | None => JUndefined end.

(** Built-in functions of the engine and of [node:crypto] that the
    sources call. They are not code of the repository: every statement
    below holds for any choice of them. *)
Record Builtins := {
  parseFloat : string -> number;
  Number_toString : number -> string;          (* [String(x)], [`${x}`] *)
  Number_toString_radix : number -> N -> string;  (* [x.toString(r)] *)
  Number_toFixed : number -> N -> string;      (* [x.toFixed(d)] *)
  JSON_stringify : JSValue -> string;
  String_localeCompare : string -> string -> number;
  sha3_256 : list Byte.byte -> list Byte.byte; (* createHash("sha3-256") *)
  sha256_hex : string -> string;               (* createHash("sha256")...digest("hex") *)
}.

(** One line written by [console.log]: the logger's entry, or an audit
    entry (printed after the tag [[AUDIT]]). The source prints the JSON
    text of the entry; the entry itself is kept here. *)
Record LogEntry := {
  log_timestamp : number;
  log_level : string;
  log_layer : string;
  log_message : string;
  log_data : option (list (string * JSValue));
}.

Record AuditEntry := {
  entryId : string;
  audit_timestamp : number;
  audit_layer : string;
  audit_action : string;
  audit_actor : string;
  audit_data : list (string * JSValue);
  audit_outcome : string;
}.

Inductive ConsoleLine :=
| Logged (e : LogEntry)
| Audited (e : AuditEntry).

(** The state outside the function being run. The three streams are the
    successive results of [Date.now()], [Math.random()] and
    [randomUUID()]; the counters say how many were read. [routingHalted]
    and [haltReason] are the module-level variables of route.ts. *)
Record World := {
  clock : nat -> number;
  clock_reads : nat;
  entropy : nat -> number;
  entropy_reads : nat;
  uuids : nat -> string;
  uuid_reads : nat;
  console : list ConsoleLine;
  routingHalted : bool;
  haltReason : option string;
}.

Inductive Result (A : Type) :=
| Ok (a : A)
| Throw (msg : string).
Arguments Ok {A} a.
Arguments Throw {A} msg.

(** Computations: state passing over the world, with exceptions. *)
Definition M (A : Type) : Type := World -> Result A * World.

Definition ret {A} (a : A) : M A := fun w => (Ok a, w).

Definition bind {A B} (m : M A) (k : A -> M B) : M B :=
  fun w => match m w with
           | (Ok a, w') => k a w'
           | (Throw e, w') => (Throw e, w')
           end.

Definition throw {A} (msg : string) : M A := fun w => (Throw msg, w).

(** A function that reads and writes nothing, run in sequence. *)
Definition lift {A} (r : Result A) : M A := fun w => (r, w).

(** [try { m } catch (error) { h error }] *)
Definition try_catch {A} (m : M A) (h : string -> M A) : M A :=
  fun w => match m w with
           | (Ok a, w') => (Ok a, w')
           | (Throw e, w') => h e w'
           end.

Declare Scope js_scope.
Delimit Scope js_scope with js.
Notation "x ← y ; z" := (bind y (fun x => z))
  (at level 20, y at level 100, z at level 200, only parsing) : js_scope.
Notation "y ;; z" := (bind y (fun _ => z))
  (at level 100, z at level 200, only parsing, right associativity) : js_scope.
#[local] Open Scope js_scope.

Definition Date_now : M number := fun w =>
  (Ok (clock w (clock_reads w)),
   {| clock := clock w; clock_reads := S (clock_reads w);
      entropy := entropy w; entropy_reads := entropy_reads w;
      uuids := uuids w; uuid_reads := uuid_reads w;
      console := console w;
      routingHalted := routingHalted w; haltReason := haltReason w |}).

Definition Math_random : M number := fun w =>
  (Ok (entropy w (entropy_reads w)),
   {| clock := clock w; clock_reads := clock_reads w;
      entropy := entropy w; entropy_reads := S (entropy_reads w);
      uuids := uuids w; uuid_reads := uuid_reads w;
      console := console w;
      routingHalted := routingHalted w; haltReason := haltReason w |}).

Definition randomUUID : M string := fun w =>
  (Ok (uuids w (uuid_reads w)),
   {| clock := clock w; clock_reads := clock_reads w;
      entropy := entropy w; entropy_reads := entropy_reads w;
      uuids := uuids w; uuid_reads := S (uuid_reads w);
      console := console w;
      routingHalted := routingHalted w; haltReason := haltReason w |}).

Definition console_log (l : ConsoleLine) : M unit := fun w =>
  (Ok tt,
   {| clock := clock w; clock_reads := clock_reads w;
      entropy := entropy w; entropy_reads := entropy_reads w;
      uuids := uuids w; uuid_reads := uuid_reads w;
      console := console w ++ [l];
      routingHalted := routingHalted w; haltReason := haltReason w |}).

(** Comparison of numbers: [===] and [!==] are IEEE equality. *)
Definition num_eq (x y : number) : bool := (x =? y)%float.
Definition num_neq (x y : number) : bool := negb (x =? y)%float.
Definition num_lt (x y : number) : bool := (x <? y)%float.
Definition num_le (x y : number) : bool := (x <=? y)%float.
Definition num_gt (x y : number) : bool := (y <? x)%float.
Definition num_ge (x y : number) : bool := (y <=? x)%float.

(** The number nearest to an integer (exact below 2^53). *)
Definition float_of_Z (z : Z) : number :=
  SF2Prim (binary_normalize prec emax z 0 false).

(** [Math.floor]: a finite number with a negative binary exponent is
    [m * 2^e]; its floor is the floor of that quotient, an integer below
    2^53 in absolute value. Every other number is its own floor. *)
Definition Math_floor (x : number) : number :=
  match Prim2SF x with
  | S754_finite s m e =>
      if (e <? 0)%Z then
        let q := (Z.pos m / 2 ^ (- e))%Z in
        let r := (Z.pos m mod 2 ^ (- e))%Z in
        if s then
          let n := if (r =? 0)%Z then q else (q + 1)%Z in
          float_of_Z (- n)
        else float_of_Z q
      else x
  | _ => x
  end.

(** [a.includes(x)] on an array of strings. *)
Definition includes (a : list string) (x : string) : bool :=
  existsb (String.eqb x) a.

(** [s.includes(t)]: [t] occurs in [s]. *)
Fixpoint str_includes (s t : string) : bool :=
  if String.prefix t s then true
  else match s with
       | EmptyString => false
       | String _ s' => str_includes s' t
       end.

(** Truthiness of a string: the empty string is falsy. *)
Definition truthy (s : string) : bool :=
  match s with EmptyString => false | _ => true end.

(** [[...a].sort(cmp)]. The sort of the language is stable and moves [x]
    before [y] only when [cmp x y < 0]; each element is inserted, in
    turn, before the first element it compares below. *)
Fixpoint sort_insert {A} (cmp : A -> A -> number) (x : A) (l : list A) : list A :=
  match l with
  | [] => [x]
  | y :: l' => if num_lt (cmp x y) 0%float then x :: y :: l'
               else y :: sort_insert cmp x l'
  end.

Definition sort {A} (cmp : A -> A -> number) (l : list A) : list A :=
  fold_left (fun acc x => sort_insert cmp x acc) l [].

End JS.

(** ** A reference engine

    Executable counterparts of the built-ins, used to run the embedding
    on concrete inputs. Decimal text and numbers are converted with
    exact integer arithmetic and one rounding, as the language standard
    prescribes. The collation of [localeCompare] is by code unit, the
    digits of a fraction in a radix other than 10 are truncated after 11
    places (the standard leaves both to the implementation), and the two
    digests are stand-ins that no statement of this file looks into. *)

Module Engine.
Import JS.

Definition Z_to_string (z : Z) : string := NilZero.string_of_int (Z.to_int z).

Definition is_digit (c : ascii) : bool :=
  let n := nat_of_ascii c in (48 <=? n)%nat && (n <=? 57)%nat.

Definition digit_val (c : ascii) : Z := Z.of_nat (nat_of_ascii c) - 48.

Definition is_space (c : ascii) : bool :=
  let n := nat_of_ascii c in
  ((9 <=? n)%nat && (n <=? 13)%nat) || (n =? 32)%nat || (n =? 160)%nat.

Fixpoint skip_space (s : string) : string :=
  match s with
  | String c r => if is_space c then skip_space r else s
  | EmptyString => s
  end.

Fixpoint take_digits (s : string) : list ascii * string :=
  match s with
  | String c r =>
      if is_digit c then let '(ds, rest) := take_digits r in (c :: ds, rest)
      else ([], s)
  | EmptyString => ([], s)
  end.

Definition digits_value (ds : list ascii) : Z :=
  fold_left (fun a c => 10 * a + digit_val c)%Z ds 0%Z.

Definition take_sign (s : string) : bool * string :=
  match s with
  | String "-" r => (true, r)
  | String "+" r => (false, r)
  | _ => (false, s)
  end.

(** The number nearest to [m * 10^e] ([m >= 0]), ties to even: for a
    negative [e] the quotient is taken with 66 bits and a sticky bit,
    then rounded once. *)
Definition decimal_to_float (m e : Z) : number :=
  if (m =? 0)%Z then 0%float
  else if (0 <=? e)%Z then float_of_Z (m * 10 ^ e)
  else
    let d := (10 ^ (- e))%Z in
    let s := Z.max 0 (Z.log2 d + 66 - Z.log2 m) in
    let q := ((m * 2 ^ s) / d)%Z in
    let r := ((m * 2 ^ s) mod d)%Z in
    let m' := (2 * q + (if (r =? 0)%Z then 0 else 1))%Z in
    SF2Prim (binary_normalize prec emax m' (- s - 1) false).

(** [parseFloat]: the longest prefix that is a decimal literal. *)
Definition parseFloat (s : string) : number :=
  let '(neg, s1) := take_sign (skip_space s) in
  let v :=
    if String.prefix "Infinity" s1 then infinity
    else
      let '(ip, r1) := take_digits s1 in
      let '(fp, r2) :=
        match r1 with
        | String "." r => take_digits r
        | _ => ([], r1)
        end in
      match (ip ++ fp)%list with
      | [] => nan
      | ds =>
          let ex :=
            match r2 with
            | String c r3 =>
                if Ascii.eqb c "e" || Ascii.eqb c "E" then
                  let '(eneg, r4) := take_sign r3 in
                  let '(ed, _) := take_digits r4 in
                  match ed with
                  | [] => 0%Z
                  | _ => if eneg then (- digits_value ed)%Z else digits_value ed
                  end
                else 0%Z
            | EmptyString => 0%Z
            end in
          decimal_to_float (digits_value ds) (ex - Z.of_nat (length fp))
      end in
  if neg then (- v)%float else v.

(** A positive finite number as an exact fraction. *)
Definition as_fraction (x : number) : Z * Z :=
  match Prim2SF x with
  | S754_finite _ m e =>
      if (0 <=? e)%Z then (Z.pos m * 2 ^ e, 1)%Z else (Z.pos m, 2 ^ (- e))%Z
  | _ => (0, 1)%Z
  end.

(** [x >= 10^j], for [x = n / d]. *)
Definition ge_pow10 (n d j : Z) : bool :=
  (d * 10 ^ Z.max j 0 <=? n * 10 ^ Z.max (- j) 0)%Z.

(** The [n] with [10^(n-1) <= x < 10^n], searched upwards from a [j]
    with [10^j <= x] (found from the binary exponent of [x]). *)
Fixpoint decimal_exponent (fuel : nat) (n d j : Z) : Z :=
  match fuel with
  | O => j
  | S f => if ge_pow10 n d j then decimal_exponent f n d (j + 1) else j
  end.

(** The shortest digits [(s, n)] with [s * 10^(n-k)] read back as [x],
    trying [k] significant digits, then [k+1], up to 17. *)
Fixpoint shortest_digits (fuel : nat) (x : number) (num den n k : Z) : Z * Z :=
  let sn := (num * 10 ^ Z.max (k - n) 0)%Z in
  let sd := (den * 10 ^ Z.max (n - k) 0)%Z in
  let lo := (sn / sd)%Z in
  let hi := (lo + 1)%Z in
  let r2 := (2 * (sn mod sd))%Z in
  let lo_first :=
    if (r2 <? sd)%Z then true
    else if (sd <? r2)%Z then false else Z.even lo in
  let '(c1, c2) := if lo_first then (lo, hi) else (hi, lo) in
  let reads c := (decimal_to_float c (n - k) =? x)%float in
  let out c := if (c =? 10 ^ k)%Z then (1%Z, (n + 1)%Z) else (c, n) in
  match fuel with
  | O => out c1
  | S f =>
      if reads c1 then out c1
      else if reads c2 then out c2
      else shortest_digits f x num den n (k + 1)
  end.

Definition zeros (n : Z) : string :=
  string_of_list_ascii (repeat "0"%char (Z.to_nat n)).

(** [String(x)]: Number::toString in radix 10. *)
Definition Number_toString (x : number) : string :=
  if is_nan x then "NaN"
  else if is_zero x then "0"
  else
    let neg := (x <? 0)%float in
    let a := abs x in
    let body :=
      if is_infinity a then "Infinity"
      else
        let '(num, den) := as_fraction a in
        let b := (Z.log2 num - Z.log2 den)%Z in
        let n := decimal_exponent 12 num den ((b - 2) * 30103 / 100000 - 2) in
        let '(s, n) := shortest_digits 16 a num den n 1 in
        let ds := Z_to_string s in
        let k := Z.of_nat (String.length ds) in
        if (k <=? n)%Z && (n <=? 21)%Z then ds ++ zeros (n - k)
        else if (0 <? n)%Z && (n <=? 21)%Z then
          substring 0 (Z.to_nat n) ds ++ "."
          ++ substring (Z.to_nat n) (Z.to_nat (k - n)) ds
        else if (-6 <? n)%Z && (n <=? 0)%Z then "0." ++ zeros (- n) ++ ds
        else
          let e := (n - 1)%Z in
          let et := (if (e <? 0)%Z then "-" else "+") ++ Z_to_string (Z.abs e) in
          if (k =? 1)%Z then ds ++ "e" ++ et
          else substring 0 1 ds ++ "."
               ++ substring 1 (Z.to_nat (k - 1)) ds ++ "e" ++ et in
    if neg then "-" ++ body else body.

(** [x.toFixed(d)]: the nearest multiple of [10^-d], the larger of two. *)
Definition Number_toFixed (x : number) (d : N) : string :=
  if is_nan x then "NaN"
  else if (1e21 <=? abs x)%float then Number_toString x
  else
    let neg := (x <? 0)%float in
    let '(num, den) := as_fraction (abs x) in
    let n := ((2 * num * 10 ^ Z.of_N d + den) / (2 * den))%Z in
    let ds := Z_to_string n in
    let ds := zeros (Z.of_N d + 1 - Z.of_nat (String.length ds)) ++ ds in
    let k := String.length ds in
    let body :=
      if (d =? 0)%N then ds
      else substring 0 (k - N.to_nat d) ds ++ "."
           ++ substring (k - N.to_nat d) (N.to_nat d) ds in
    if neg then "-" ++ body else body.

Definition radix_digit (n : Z) : string :=
  substring (Z.to_nat n) 1 "0123456789abcdefghijklmnopqrstuvwxyz".

Fixpoint radix_int (fuel : nat) (r n : Z) (acc : string) : string :=
  match fuel with
  | O => acc
  | S f =>
      let acc := radix_digit (n mod r) ++ acc in
      if (n / r =? 0)%Z then acc else radix_int f r (n / r) acc
  end.

Fixpoint radix_frac (places : nat) (r num den : Z) : string :=
  match places with
  | O => ""
  | S p =>
      if (num =? 0)%Z then ""
      else radix_digit (num * r / den)
           ++ radix_frac p r ((num * r) mod den) den
  end.

(** [x.toString(r)] for a radix other than 10. *)
Definition Number_toString_radix (x : number) (r : N) : string :=
  if (r =? 10)%N then Number_toString x
  else if is_nan x then "NaN"
  else
    let neg := (x <? 0)%float in
    let a := abs x in
    let body :=
      if is_infinity a then "Infinity"
      else
        let '(num, den) := as_fraction a in
        let ip := radix_int 1100 (Z.of_N r) (num / den) "" in
        let fp := radix_frac 11 (Z.of_N r) (num mod den) den in
        if String.eqb fp "" then ip else ip ++ "." ++ fp in
    if neg then "-" ++ body else body.

Definition hex_digit (n : nat) : string := substring n 1 "0123456789abcdef".

Definition dquote : string := String (ascii_of_nat 34) "".

(** QuoteJSONString *)
Fixpoint quote_chars (s : string) : string :=
  match s with
  | EmptyString => ""
  | String c r =>
      let n := nat_of_ascii c in
      (if (n =? 34)%nat then "\" ++ dquote
       else if (n =? 92)%nat then "\\"
       else if (n =? 8)%nat then "\b"
       else if (n =? 9)%nat then "\t"
       else if (n =? 10)%nat then "\n"
       else if (n =? 12)%nat then "\f"
       else if (n =? 13)%nat then "\r"
       else if (n <? 32)%nat then
         "\u00" ++ hex_digit (n / 16) ++ hex_digit (n mod 16)
       else String c "")
      ++ quote_chars r
  end.

Definition quote (s : string) : string := dquote ++ quote_chars s ++ dquote.

Definition join (sep : string) (l : list string) : string :=
  match l with
  | [] => ""
  | x :: r => fold_left (fun acc y => acc ++ sep ++ y) r x
  end.

(** SerializeJSONProperty; [None] is the language's [undefined]. *)
Fixpoint serialize (v : JSValue) : option string :=
  match v with
  | JUndefined => None
  | JNull => Some "null"
  | JBool b => Some (if b then "true" else "false")
  | JNum x => Some (if is_finite x then Number_toString x else "null")
  | JStr s => Some (quote s)
  | JArr xs =>
      Some ("[" ++ join ","
              (map (fun x => match serialize x with
                             | Some t => t
                             | None => "null"
                             end) xs) ++ "]")
  | JObj fields =>
      Some ("{" ++ join ","
              (flat_map (fun kv => match serialize (snd kv) with
                                   | Some t => [quote (fst kv) ++ ":" ++ t]
                                   | None => []
                                   end) fields) ++ "}")
  end.

Definition JSON_stringify (v : JSValue) : string :=
  match serialize v with Some t => t | None => "undefined" end.

Fixpoint compare_units (a b : string) : number :=
  match a, b with
  | EmptyString, EmptyString => 0%float
  | EmptyString, String _ _ => (-1)%float
  | String _ _, EmptyString => 1%float
  | String x a', String y b' =>
      if (nat_of_ascii x <? nat_of_ascii y)%nat then (-1)%float
      else if (nat_of_ascii y <? nat_of_ascii x)%nat then 1%float
      else compare_units a' b'
  end.

Definition builtins : Builtins :=
  {| JS.parseFloat := parseFloat;
     JS.Number_toString := Number_toString;
     JS.Number_toString_radix := Number_toString_radix;
     JS.Number_toFixed := Number_toFixed;
     JS.JSON_stringify := JSON_stringify;
     JS.String_localeCompare := compare_units;
     JS.sha3_256 := fun data => repeat Byte.x00 32;
     JS.sha256_hex := fun text => zeros 64 |}.

End Engine.

Import JS.
#[local] Open Scope js_scope.

(** ** utils/types.ts *)

Module Types.

Record Amount := {
  value : string;
  currency : string;
}.

Record Constraints := {
  maxSlippage : number;
  maxFee : string;
  expiry : number;   (* unix timestamp, seconds *)
}.

Record RiskBounds := {
  maxVolatility : number;
  complianceFlags : list string;
}.

Record PaymentIntentEnvelope := {
  intentId : string;
  action : string;          (* 'send' | 'swap' | 'batch' *)
  amount : Amount;
  destination : string;
  constraints : Constraints;
  riskBounds : RiskBounds;
  allowedRoutes : list string;
  requiredProofs : list string;
  explanation : string;
}.

Record ValidationResult := {
  isValid : bool;
  errors : list string;
  warnings : list string;
  attestation_note : option string;   (* [attestation?: string] *)
}.

Record AttestationRecord := {
  attestationId : string;
  envelopeId : string;
  timestamp : number;
  signature : string;
  publicKey : string;
  validationHash : string;
}.

Record SubmissionResult := {
  success : bool;
  transactionHash : option string;
  ledgerIndex : option number;
  error : option string;
}.

(** The envelope as the object [JSON.stringify] walks, its keys in the
    order of the interface. *)
Definition envelope_json (e : PaymentIntentEnvelope) : JSValue :=
  JObj [ ("intentId", JStr (intentId e));
         ("action", JStr (action e));
         ("amount", JObj [ ("value", JStr (value (amount e)));
                           ("currency", JStr (currency (amount e))) ]);
         ("destination", JStr (destination e));
         ("constraints", JObj [ ("maxSlippage", JNum (maxSlippage (constraints e)));
                                ("maxFee", JStr (maxFee (constraints e)));
                                ("expiry", JNum (expiry (constraints e))) ]);
         ("riskBounds", JObj [ ("maxVolatility", JNum (maxVolatility (riskBounds e)));
                               ("complianceFlags", JStrs (complianceFlags (riskBounds e))) ]);
         ("allowedRoutes", JStrs (allowedRoutes e));
         ("requiredProofs", JStrs (requiredProofs e));
         ("explanation", JStr (explanation e)) ].

End Types.

(** ** utils/logging.ts *)

Module Logging.

Section WithBuiltins.
Context (B : Builtins).

(** What [audit] receives: an audit entry without id and timestamp. *)
Record AuditInput := {
  layer : string;
  action : string;
  actor : string;
  data : list (string * JSValue);
  outcome : string;
}.

Record Logger := {
  debug : string -> option (list (string * JSValue)) -> M unit;
  info : string -> option (list (string * JSValue)) -> M unit;
  warn : string -> option (list (string * JSValue)) -> M unit;
  error : string -> option (list (string * JSValue)) -> M unit;
  critical : string -> option (list (string * JSValue)) -> M unit;
  audit : AuditInput -> M unit;
}.

Definition generateAuditId : M string :=
  t ← Date_now;
  r ← Math_random;
  ret ("audit-" ++ Number_toString B t ++ "-"
       ++ substring 2 9 (Number_toString_radix B r 36)).

Definition log (layerName level message : string)
    (data : option (list (string * JSValue))) : M unit :=
  t ← Date_now;
  console_log (Logged {| log_timestamp := t; log_level := level;
                         log_layer := layerName; log_message := message;
                         log_data := data |}).

Definition createLogger (layerName : string) : Logger :=
  {| debug := log layerName "debug";
     info := log layerName "info";
     warn := log layerName "warn";
     error := log layerName "error";
     critical := log layerName "critical";
     audit := fun entry =>
       id ← generateAuditId;
       t ← Date_now;
       console_log (Audited {| entryId := id; audit_timestamp := t;
                               audit_layer := layer entry;
                               audit_action := action entry;
                               audit_actor := actor entry;
                               audit_data := data entry;
                               audit_outcome := outcome entry |}) |}.

End WithBuiltins.

End Logging.

(** ** car/compute.ts *)

Module Compute.
Import Types.

Record Route := {
  routeId : string;
  type : string;            (* 'direct' | 'xrpl-dex' | 'ilp' | 'multi-hop' *)
  path : list string;
  estimatedFee : string;
  estimatedTime : number;
  confidence : number;
}.

Record LedgerState := {
  networkFee : string;
  lastLedgerIndex : number;
  reserves : gmap string string;
  orderBooks : option (gmap string JSValue);
}.

Record ComputeResult := {
  computeId : string;
  timestamp : number;
  envelope : PaymentIntentEnvelope;
  selectedRoute : Route;
  alternativeRoutes : list Route;
  computeTimeMs : number;
}.

Section WithBuiltins.
Context (B : Builtins).

Definition logger : Logging.Logger := Logging.createLogger B "car".

(** Multiply fee string by factor *)
Definition multiplyFee (fee : string) (factor : number) : string :=
  Number_toFixed B (parseFloat B fee * factor)%float 6.

(** Get candidate routes from ledger state. Each [routes.push] reads the
    clock for the route id before the array grows. *)
Definition getCandidateRoutes (envelope : PaymentIntentEnvelope)
    (ledgerState : LedgerState) : M (list Route) :=
  let routes : list Route := [] in
  routes ←
    (if String.eqb (currency (amount envelope)) "XRP" then
       t ← Date_now;
       ret (routes ++ [ {| routeId := "route-direct-" ++ Number_toString B t;
                           type := "direct";
                           path := [destination envelope];
                           estimatedFee := networkFee ledgerState;
                           estimatedTime := 4%float;
                           confidence := 0.99%float |} ])%list
     else ret routes);
  routes ←
    (if String.eqb (action envelope) "swap"
        || negb (String.eqb (currency (amount envelope)) "XRP") then
       t ← Date_now;
       ret (routes ++ [ {| routeId := "route-dex-" ++ Number_toString B t;
                           type := "xrpl-dex";
                           path := ["XRP"; currency (amount envelope);
                                    destination envelope];
                           estimatedFee := multiplyFee (networkFee ledgerState) 2%float;
                           estimatedTime := 8%float;
                           confidence := 0.9%float |} ])%list
     else ret routes);
  t ← Date_now;
  ret (routes ++ [ {| routeId := "route-ilp-" ++ Number_toString B t;
                      type := "ilp";
                      path := ["ilp-connector"; destination envelope];
                      estimatedFee := multiplyFee (networkFee ledgerState) 3%float;
                      estimatedTime := 15%float;
                      confidence := 0.85%float |} ])%list.

(** Filter routes by allowed list *)
Definition filterByAllowedRoutes (routes : list Route) (allowed : list string)
    : list Route :=
  if (length allowed =? 0)%nat then routes
  else List.filter (fun route => includes allowed (type route) || includes allowed "*")
              routes.

(** The comparator of the selection: confidence (desc), then fee (asc),
    then time (asc). *)
Definition compareRoutes (a b : Route) : number :=
  if num_neq (confidence a) (confidence b) then
    (confidence b - confidence a)%float
  else
    let feeA := parseFloat B (estimatedFee a) in
    let feeB := parseFloat B (estimatedFee b) in
    if num_neq feeA feeB then (feeA - feeB)%float
    else (estimatedTime a - estimatedTime b)%float.

(** Select optimal route based on deterministic criteria. [sorted[0]] is
    read on a non-empty array only; the default of [hd] is never used. *)
Definition selectOptimalRoute (routes : list Route)
    (envelope : PaymentIntentEnvelope) : M Route :=
  match routes with
  | [] => throw "No valid routes available"
  | first :: _ =>
      let sorted := sort compareRoutes routes in
      let maxFee := parseFloat B (maxFee (constraints envelope)) in
      let validRoutes :=
        List.filter (fun r => num_le (parseFloat B (estimatedFee r)) maxFee) sorted in
      match validRoutes with
      | [] =>
          Logging.warn logger
            "No routes within fee constraint, using lowest fee option" None;;
          ret (hd first sorted)
      | best :: _ => ret best
      end
  end.

(** Compute optimal route for payment *)
Definition compute (envelope : PaymentIntentEnvelope)
    (ledgerState : LedgerState) : M ComputeResult :=
  startTime ← Date_now;
  Logging.info logger "Computing route"
    (Some [("intentId", JStr (intentId envelope))]);;
  candidates ← getCandidateRoutes envelope ledgerState;
  let allowedCandidates :=
    filterByAllowedRoutes candidates (allowedRoutes envelope) in
  selectedRoute ← selectOptimalRoute allowedCandidates envelope;
  endTime ← Date_now;
  let computeTimeMs := (endTime - startTime)%float in
  idTime ← Date_now;
  stamp ← Date_now;
  let result :=
    {| computeId := "compute-" ++ Number_toString B idTime;
       timestamp := stamp;
       envelope := envelope;
       selectedRoute := selectedRoute;
       alternativeRoutes :=
         List.filter (fun r => negb (String.eqb (routeId r) (routeId selectedRoute)))
                allowedCandidates;
       computeTimeMs := computeTimeMs |} in
  Logging.audit logger
    {| Logging.layer := "car";
       Logging.action := "compute";
       Logging.actor := "system";
       Logging.data :=
         [ ("computeId", JStr (computeId result));
           ("intentId", JStr (intentId envelope));
           ("selectedRouteType", JStr (type selectedRoute));
           ("routeCount", JNum (float_of_Z (Z.of_nat (length allowedCandidates))));
           ("computeTimeMs", JNum computeTimeMs) ];
       Logging.outcome := "success" |};;
  ret result.

(** *** Notions used to state the properties of the computation *)

(** Two routes that differ at most in their [routeId]. *)
Definition sameRoute (r1 r2 : Route) : Prop :=
  type r1 = type r2 /\ path r1 = path r2
  /\ estimatedFee r1 = estimatedFee r2
  /\ estimatedTime r1 = estimatedTime r2
  /\ confidence r1 = confidence r2.

(** The types of the candidates depend on the envelope alone. *)
Definition candidateTypes (envelope : PaymentIntentEnvelope) : list string :=
  ((if String.eqb (currency (amount envelope)) "XRP" then ["direct"] else [])
   ++ (if String.eqb (action envelope) "swap"
          || negb (String.eqb (currency (amount envelope)) "XRP")
       then ["xrpl-dex"] else [])
   ++ ["ilp"])%list.

(** The candidates of [getCandidateRoutes] with their ids left empty. *)
Definition candidateShapes (envelope : PaymentIntentEnvelope)
    (ledgerState : LedgerState) : list Route :=
  ((if String.eqb (currency (amount envelope)) "XRP" then
      [ {| routeId := ""; type := "direct"; path := [destination envelope];
           estimatedFee := networkFee ledgerState;
           estimatedTime := 4%float; confidence := 0.99%float |} ]
    else [])
   ++ (if String.eqb (action envelope) "swap"
          || negb (String.eqb (currency (amount envelope)) "XRP") then
         [ {| routeId := ""; type := "xrpl-dex";
              path := ["XRP"; currency (amount envelope); destination envelope];
              estimatedFee := multiplyFee (networkFee ledgerState) 2%float;
              estimatedTime := 8%float; confidence := 0.9%float |} ]
       else [])
   ++ [ {| routeId := ""; type := "ilp";
           path := ["ilp-connector"; destination envelope];
           estimatedFee := multiplyFee (networkFee ledgerState) 3%float;
           estimatedTime := 15%float; confidence := 0.85%float |} ])%list.

(** The test of the fee filter of [selectOptimalRoute]. *)
Definition withinFee (envelope : PaymentIntentEnvelope) (r : Route) : bool :=
  num_le (parseFloat B (estimatedFee r))
         (parseFloat B (maxFee (constraints envelope))).

End WithBuiltins.

End Compute.

(** ** car/validate.ts *)

Module Validate.
Import Types Compute.

Record CARValidationConfig := {
  maxTransactionSize : string;
  minBalance : string;
  requireDestinationTag : bool;
  blockedDestinations : list string;
  maxPendingTransactions : number;
}.

Definition DEFAULT_CONFIG : CARValidationConfig :=
  {| maxTransactionSize := "100000";
     minBalance := "20";   (* XRPL reserve *)
     requireDestinationTag := false;
     blockedDestinations := [];
     maxPendingTransactions := 10%float |}.

Section WithBuiltins.
Context (B : Builtins).

Definition logger : Logging.Logger := Logging.createLogger B "car".

Definition str (x : number) : string := Number_toString B x.

(** The messages of the five rules that reject, and of the two that warn. *)
Definition amountError (amount maxSize : number) : string :=
  "Amount " ++ str amount ++ " exceeds max transaction size " ++ str maxSize.

Definition balanceError (balance required : number) : string :=
  "Insufficient balance: have " ++ str balance ++ ", need " ++ str required
  ++ " (amount + fee + reserve)".

Definition blockedError (destination : string) : string :=
  "Destination " ++ destination ++ " is blocked".

Definition feeError (fee : number) (maxFee : string) : string :=
  "Route fee " ++ str fee ++ " exceeds max fee " ++ maxFee.

Definition expiryError (expiry now : number) : string :=
  "Envelope expired at " ++ str expiry ++ ", current time " ++ str now.

Definition proofsWarning : string := "Proof verification not yet implemented".

Definition confidenceWarning (confidence : number) : string :=
  "Selected route confidence " ++ str confidence
  ++ " is below recommended threshold".

(** [if (c) a.push(x)] *)
Definition push_if (c : bool) (a : list string) (x : string) : list string :=
  if c then (a ++ [x])%list else a.

(** Validate envelope and compute result against ledger state. The
    default of the parameter [config] is [DEFAULT_CONFIG]. *)
Definition validate (computeResult : ComputeResult) (ledgerState : LedgerState)
    (sourceBalance : string) (config : CARValidationConfig)
    : M ValidationResult :=
  Logging.info logger "CAR validation"
    (Some [("computeId", JStr (computeId computeResult))]);;
  let errors : list string := [] in
  let warnings : list string := [] in
  let envelope := Compute.envelope computeResult in
  (* Rule 1: Amount within transaction limits *)
  let amount := parseFloat B (value (Types.amount envelope)) in
  let maxSize := parseFloat B (maxTransactionSize config) in
  let errors := push_if (num_gt amount maxSize) errors (amountError amount maxSize) in
  (* Rule 2: Sufficient balance (including reserve) *)
  let balance := parseFloat B sourceBalance in
  let fee := parseFloat B (estimatedFee (selectedRoute computeResult)) in
  let minBalance := parseFloat B (minBalance config) in
  let required := (amount + fee + minBalance)%float in
  let errors := push_if (num_lt balance required) errors
                  (balanceError balance required) in
  (* Rule 3: Destination not blocked *)
  let errors := push_if (includes (blockedDestinations config) (destination envelope))
                  errors (blockedError (destination envelope)) in
  (* Rule 4: Fee within constraints *)
  let errors := push_if (num_gt fee (parseFloat B (maxFee (constraints envelope))))
                  errors (feeError fee (maxFee (constraints envelope))) in
  (* Rule 5: Not expired *)
  t ← Date_now;
  let now := Math_floor (t / 1000)%float in
  let errors := push_if (num_ge now (expiry (constraints envelope))) errors
                  (expiryError (expiry (constraints envelope)) now) in
  (* Rule 6: Required proofs check (placeholder) *)
  let warnings := push_if (0 <? length (requiredProofs envelope))%nat warnings
                    proofsWarning in
  (* Rule 7: Route confidence check *)
  let warnings := push_if (num_lt (confidence (selectedRoute computeResult)) 0.8%float)
                    warnings
                    (confidenceWarning (confidence (selectedRoute computeResult))) in
  let isValid := (length errors =? 0)%nat in
  Logging.audit logger
    {| Logging.layer := "car";
       Logging.action := "validate";
       Logging.actor := "system";
       Logging.data :=
         [ ("computeId", JStr (computeId computeResult));
           ("intentId", JStr (intentId envelope));
           ("isValid", JBool isValid);
           ("errorCount", JNum (float_of_Z (Z.of_nat (length errors))));
           ("warningCount", JNum (float_of_Z (Z.of_nat (length warnings)))) ];
       Logging.outcome := if isValid then "success" else "rejected" |};;
  (if negb isValid then
     Logging.warn logger "CAR validation FAILED" (Some [("errors", JStrs errors)])
   else ret tt);;
  ret {| isValid := isValid; errors := errors; warnings := warnings;
         attestation_note := None |}.

(** Quick pre-validation check (before full compute) *)
Definition preValidate (envelope : PaymentIntentEnvelope)
    (ledgerState : LedgerState) : M (bool * option string) :=
  t ← Date_now;
  let now := Math_floor (t / 1000)%float in
  if num_ge now (expiry (constraints envelope)) then
    ret (false, Some "Envelope already expired")
  else if num_eq (lastLedgerIndex ledgerState) 0%float then
    ret (false, Some "Ledger state unavailable")
  else ret (true, None).

(** Validate human override signal *)
Definition validateOverride (overrideSignal expectedSignature : string) : M bool :=
  Logging.info logger "Override signal received"
    (Some [("hasSignal", JBool (truthy overrideSignal))]);;
  ret (String.eqb overrideSignal expectedSignature).

End WithBuiltins.

(** *** Notions used to state the properties of the validator *)

(** The five rules that reject. *)
Inductive Rule :=
| AmountLimit
| Balance
| Blocklist
| FeeBound
| Expiry.

Definition allRules : list Rule := [AmountLimit; Balance; Blocklist; FeeBound; Expiry].

Section Rules.
Context (B : Builtins).
Context (computeResult : ComputeResult) (sourceBalance : string)
        (config : CARValidationConfig).

(** The numbers [validate] computes, and each rule's test and message,
    at the current time [now] (in seconds). *)
Definition amountOf : number :=
  parseFloat B (value (amount (Compute.envelope computeResult))).
Definition feeOf : number :=
  parseFloat B (estimatedFee (selectedRoute computeResult)).
Definition requiredOf : number :=
  (amountOf + feeOf + parseFloat B (minBalance config))%float.

Definition fails (now : number) (r : Rule) : bool :=
  let envelope := Compute.envelope computeResult in
  match r with
  | AmountLimit => num_gt amountOf (parseFloat B (maxTransactionSize config))
  | Balance => num_lt (parseFloat B sourceBalance) requiredOf
  | Blocklist => includes (blockedDestinations config) (destination envelope)
  | FeeBound => num_gt feeOf (parseFloat B (maxFee (constraints envelope)))
  | Expiry => num_ge now (expiry (constraints envelope))
  end.

Definition message (now : number) (r : Rule) : string :=
  let envelope := Compute.envelope computeResult in
  match r with
  | AmountLimit => amountError B amountOf (parseFloat B (maxTransactionSize config))
  | Balance => balanceError B (parseFloat B sourceBalance) requiredOf
  | Blocklist => blockedError (destination envelope)
  | FeeBound => feeError B feeOf (maxFee (constraints envelope))
  | Expiry => expiryError B (expiry (constraints envelope)) now
  end.

End Rules.

(** The time of rule 5: [validate] reads the clock once for its first
    log line, then once for the rule. *)
Definition nowAt (w : World) : number :=
  Math_floor (clock w (S (clock_reads w)) / 1000)%float.

End Validate.

(** ** utils/crypto.ts *)

Module Crypto.
Import Types.

(** ToInt32 of an integer. *)
Definition toInt32 (z : Z) : Z := ((z + 2 ^ 31) mod 2 ^ 32 - 2 ^ 31)%Z.

(** One turn of the loop: [hash = ((hash << 5) - hash) + char;
    hash = hash & hash]. The shift and the [&] wrap to 32 bits; the sum
    in between is exact. *)
Definition hashStep (hash : Z) (char : ascii) : Z :=
  toInt32 (toInt32 (Z.shiftl hash 5) - hash + Z.of_nat (nat_of_ascii char)).

(** The digits of a non-negative integer in radix 16. *)
Fixpoint hexDigits (fuel : nat) (n : Z) (acc : string) : string :=
  match fuel with
  | O => acc
  | S f =>
      let acc := substring (Z.to_nat (n mod 16)) 1 "0123456789abcdef" ++ acc in
      if (n / 16 =? 0)%Z then acc else hexDigits f (n / 16) acc
  end.

Section WithBuiltins.
Context (B : Builtins).

(** Hash an envelope for attestation. The argument is the object as
    [JSON.stringify] walks it. *)
Definition hashEnvelope (envelope : JSValue) : string :=
  let serialized := JSON_stringify B envelope in
  let hash := fold_left hashStep (list_ascii_of_string serialized) 0%Z in
  "hash-" ++ hexDigits 9 (Z.abs hash) "".

(** Sign an attestation *)
Definition signAttestation (envelopeHash privateKey : string) : M string :=
  t ← Date_now;
  ret ("sig-" ++ envelopeHash ++ "-" ++ Number_toString B t).

(** Verify an attestation signature.
    Placeholder - always returns false until implemented *)
Definition verifySignature (attestation : AttestationRecord)
    (publicKey : string) : bool :=
  false.

(** Generate a new keypair for attestation *)
Definition generateKeypair : M (string * string) :=
  t1 ← Date_now;
  t2 ← Date_now;
  ret ("pub-" ++ Number_toString B t1, "priv-" ++ Number_toString B t2).

(** Create an attestation record *)
Definition createAttestation (envelope : PaymentIntentEnvelope)
    (privateKey publicKey : string) : M AttestationRecord :=
  let validationHash := hashEnvelope (envelope_json envelope) in
  signature ← signAttestation validationHash privateKey;
  idTime ← Date_now;
  stamp ← Date_now;
  ret {| attestationId := "attest-" ++ Number_toString B idTime;
         envelopeId := intentId envelope;
         timestamp := stamp;
         signature := signature;
         publicKey := publicKey;
         validationHash := validationHash |}.

(** Verify that an attestation is valid for an envelope *)
Definition verifyAttestation (envelope : PaymentIntentEnvelope)
    (attestation : AttestationRecord) : bool :=
  let computedHash := hashEnvelope (envelope_json envelope) in
  if negb (String.eqb computedHash (validationHash attestation)) then false
  else verifySignature attestation (Types.publicKey attestation).

End WithBuiltins.

End Crypto.

(** ** car/attest.ts *)

Module Attest.
Import Types Compute.

Record AttestationConfig := {
  signingKeyPath : string;
  requireMultiSig : bool;
  minSignatures : number;
}.

Record AttestResult := {
  attestId : string;
  timestamp : number;
  envelope : PaymentIntentEnvelope;
  computeResult : ComputeResult;
  validationResult : ValidationResult;
  attestation : AttestationRecord;
  attestationChain : list AttestationRecord;
}.

Record RevocationRecord := {
  revocationId : string;
  revoked_attestationId : string;
  revocation_timestamp : number;
  reason : string;
  revokedBy : string;
}.

Section WithBuiltins.
Context (B : Builtins).

Definition logger : Logging.Logger := Logging.createLogger B "car".

(** Attest a validated envelope; [None] is the source's [null]. *)
Definition attest (envelope : PaymentIntentEnvelope)
    (computeResult : ComputeResult) (validationResult : ValidationResult)
    (privateKey publicKey : string) : M (option AttestResult) :=
  Logging.info logger "Attesting envelope"
    (Some [("intentId", JStr (intentId envelope))]);;
  if negb (isValid validationResult) then
    Logging.error logger "Cannot attest invalid envelope"
      (Some [("intentId", JStr (intentId envelope));
             ("errors", JStrs (errors validationResult))]);;
    ret None
  else
    attestation ← Crypto.createAttestation B envelope privateKey publicKey;
    let attestationChain := [attestation] in
    idTime ← Date_now;
    stamp ← Date_now;
    let result :=
      {| attestId := "attest-" ++ Number_toString B idTime;
         timestamp := stamp;
         envelope := envelope;
         computeResult := computeResult;
         validationResult := validationResult;
         attestation := attestation;
         attestationChain := attestationChain |} in
    Logging.audit logger
      {| Logging.layer := "car";
         Logging.action := "attest";
         Logging.actor := "system";
         Logging.data :=
           [ ("attestId", JStr (attestId result));
             ("intentId", JStr (intentId envelope));
             ("attestationId", JStr (attestationId attestation));
             ("validationHash", JStr (validationHash attestation)) ];
         Logging.outcome := "success" |};;
    ret (Some result).

(** Verify an existing attestation *)
Definition verifyAttest (envelope : PaymentIntentEnvelope)
    (attestation : AttestationRecord) : M bool :=
  Logging.info logger "Verifying attestation"
    (Some [("attestationId", JStr (attestationId attestation))]);;
  let isValid := Crypto.verifyAttestation B envelope attestation in
  Logging.audit logger
    {| Logging.layer := "car";
       Logging.action := "verifyAttest";
       Logging.actor := "system";
       Logging.data :=
         [ ("attestationId", JStr (attestationId attestation));
           ("isValid", JBool isValid) ];
       Logging.outcome := if isValid then "success" else "rejected" |};;
  ret isValid.

(** Create attestation hash for logging *)
Definition createAttestationHash (envelope : PaymentIntentEnvelope)
    (validationResult : ValidationResult) : M string :=
  let envelopeHash := Crypto.hashEnvelope B (envelope_json envelope) in
  t ← Date_now;
  ret (Crypto.hashEnvelope B
         (JObj [ ("envelopeHash", JStr envelopeHash);
                 ("validationErrors", JStrs (errors validationResult));
                 ("validationWarnings", JStrs (warnings validationResult));
                 ("timestamp", JNum t) ])).

(** Check if attestation is still valid (not expired). The default of
    [maxAge] is [defaultMaxAge], five minutes. *)
Definition defaultMaxAge : number := 300000%float.

Definition isAttestationValid (attestation : AttestationRecord)
    (maxAge : number) : M bool :=
  t ← Date_now;
  let age := (t - Types.timestamp attestation)%float in
  ret (num_lt age maxAge).

(** Revoke an attestation (for emergency use) *)
Definition revokeAttestation (attestation : AttestationRecord)
    (reason revokedBy : string) : M RevocationRecord :=
  idTime ← Date_now;
  stamp ← Date_now;
  let revocation :=
    {| revocationId := "revoke-" ++ Number_toString B idTime;
       revoked_attestationId := attestationId attestation;
       revocation_timestamp := stamp;
       reason := reason;
       revokedBy := revokedBy |} in
  let fields :=
    [ ("revocationId", JStr (revocationId revocation));
      ("attestationId", JStr (revoked_attestationId revocation));
      ("timestamp", JNum stamp);
      ("reason", JStr reason);
      ("revokedBy", JStr revokedBy) ] in
  Logging.audit logger
    {| Logging.layer := "car";
       Logging.action := "revokeAttestation";
       Logging.actor := revokedBy;
       Logging.data := fields;
       Logging.outcome := "success" |};;
  Logging.warn logger "Attestation revoked" (Some fields);;
  ret revocation.

End WithBuiltins.

End Attest.

(** ** car/route.ts *)

Module Route.
Import Types Attest.

Record RouteConfig := {
  ledgerType : string;     (* 'xrpl' | 'ilp' | 'test' *)
  nodeUrl : string;
  timeout : number;
  retryCount : number;
}.

Record RouteResult := {
  routeId : string;
  timestamp : number;
  attestResult : AttestResult;
  submission : SubmissionResult;
  ledgerResponse : option JSValue;
}.

(** Assignments to the module-level [routingHalted] and [haltReason]. *)
Definition set_halt (halted : bool) (reason : option string) : M unit := fun w =>
  (Ok tt,
   {| clock := clock w; clock_reads := clock_reads w;
      entropy := entropy w; entropy_reads := entropy_reads w;
      uuids := uuids w; uuid_reads := uuid_reads w;
      console := console w;
      routingHalted := halted; haltReason := reason |}).

Definition get_halt : M (bool * option string) := fun w =>
  (Ok (routingHalted w, haltReason w), w).

(** The world with the two variables assigned. *)
Definition with_halt (w : World) (halted : bool) (reason : option string) : World :=
  snd (set_halt halted reason w).

Section WithBuiltins.
Context (B : Builtins).

Definition logger : Logging.Logger := Logging.createLogger B "car".

(** Submit to XRPL *)
Definition submitToXRPL (attestResult : AttestResult) (config : RouteConfig)
    : M (SubmissionResult * option JSValue) :=
  Logging.info logger "Submitting to XRPL" (Some [("nodeUrl", JStr (nodeUrl config))]);;
  ret ({| success := false; transactionHash := None; ledgerIndex := None;
          error := Some "XRPL submission not yet implemented" |},
       Some JNull).

(** Submit to ILP *)
Definition submitToILP (attestResult : AttestResult) (config : RouteConfig)
    : M (SubmissionResult * option JSValue) :=
  Logging.info logger "Submitting to ILP" (Some [("nodeUrl", JStr (nodeUrl config))]);;
  ret ({| success := false; transactionHash := None; ledgerIndex := None;
          error := Some "ILP submission not yet implemented" |},
       Some JNull).

(** Submit to testnet (for development) *)
Definition submitToTestnet (attestResult : AttestResult) (config : RouteConfig)
    : M (SubmissionResult * option JSValue) :=
  Logging.info logger "Submitting to testnet (simulated)" None;;
  t ← Date_now;
  r ← Math_random;
  ret ({| success := true;
          transactionHash := Some ("test-tx-" ++ Number_toString B t);
          ledgerIndex := Some (Math_floor (r * 1000000)%float);
          error := None |},
       Some (JObj [("simulated", JBool true)])).

(** Route an attested envelope to the ledger *)
Definition route (attestResult : AttestResult) (config : RouteConfig)
    : M RouteResult :=
  Logging.info logger "Routing to ledger"
    (Some [("intentId", JStr (intentId (envelope attestResult)));
           ("ledgerType", JStr (ledgerType config))]);;
  (* Final safety check: verify attestation is still valid *)
  fresh ← isAttestationValid (attestation attestResult) defaultMaxAge;
  if negb fresh then
    Logging.error logger "Attestation expired before routing" None;;
    idTime ← Date_now;
    stamp ← Date_now;
    ret {| routeId := "route-" ++ Number_toString B idTime;
           timestamp := stamp;
           attestResult := attestResult;
           submission := {| success := false; transactionHash := None;
                            ledgerIndex := None;
                            error := Some "Attestation expired" |};
           ledgerResponse := None |}
  else
    (* Submit to appropriate ledger *)
    sent ←
      try_catch
        (if String.eqb (ledgerType config) "xrpl" then
           submitToXRPL attestResult config
         else if String.eqb (ledgerType config) "ilp" then
           submitToILP attestResult config
         else if String.eqb (ledgerType config) "test" then
           submitToTestnet attestResult config
         else throw ("Unknown ledger type: " ++ ledgerType config))
        (fun message =>
           let text := "Error: " ++ message in   (* String(error) *)
           Logging.error logger "Routing failed" (Some [("error", JStr text)]);;
           ret ({| success := false; transactionHash := None;
                   ledgerIndex := None; error := Some text |}, None));
    let '(submission, ledgerResponse) := sent in
    idTime ← Date_now;
    stamp ← Date_now;
    let result :=
      {| routeId := "route-" ++ Number_toString B idTime;
         timestamp := stamp;
         attestResult := attestResult;
         submission := submission;
         ledgerResponse := ledgerResponse |} in
    Logging.audit logger
      {| Logging.layer := "car";
         Logging.action := "route";
         Logging.actor := "system";
         Logging.data :=
           [ ("routeId", JStr (routeId result));
             ("intentId", JStr (intentId (envelope attestResult)));
             ("success", JBool (success submission));
             ("transactionHash", JOptStr (transactionHash submission));
             ("error", JOptStr (error submission)) ];
         Logging.outcome := if success submission then "success" else "failure" |};;
    ret result.

(** Halt routing (emergency stop) *)
Definition haltRouting (reason : string) : M unit :=
  set_halt true (Some reason);;
  Logging.audit logger
    {| Logging.layer := "car";
       Logging.action := "haltRouting";
       Logging.actor := "system";
       Logging.data := [("reason", JStr reason)];
       Logging.outcome := "success" |};;
  Logging.warn logger "ROUTING HALTED" (Some [("reason", JStr reason)]).

Definition resumeRouting : M unit :=
  set_halt false None;;
  Logging.info logger "Routing resumed" None.

Definition isRoutingHalted : M (bool * option string) := get_halt.

End WithBuiltins.

End Route.

(** ** pie/pie.schema.ts and the time utilities *)

Module PieSchema.
Import Types.

(** Check if envelope has expired *)
Definition isExpired (envelope : PaymentIntentEnvelope) : M bool :=
  t ← Date_now;
  ret (num_gt t (expiry (constraints envelope) * 1000)%float).

End PieSchema.

Module Time.

Definition nowUnixMs : M number := Date_now.

Definition nowUnixSec : M number :=
  t ← Date_now;
  ret (Math_floor (t / 1000)%float).

(** Check if a Unix timestamp (seconds) has expired *)
Definition isExpiredSec (expiry : number) : M bool :=
  now ← nowUnixSec;
  ret (num_ge now expiry).

(** Check if a Unix timestamp (milliseconds) has expired *)
Definition isExpiredMs (expiry : number) : M bool :=
  now ← nowUnixMs;
  ret (num_ge now expiry).

End Time.

(** ** security/pqc/policy.ts and security/pqc/attestation.ts *)

Module Pqc.

(** Get the signature algorithms required by a policy: the classical
    ones and the post-quantum ones. *)
Definition getRequiredAlgorithms (policy : string) : list string * list string :=
  if String.eqb policy "CLASSICAL_ONLY" then
    (["ed25519"; "secp256k1"], [])
  else if String.eqb policy "HYBRID_ECDSA_SECP256K1_PLUS_DILITHIUM" then
    (["secp256k1"], ["dilithium2"; "dilithium3"; "dilithium5"])
  else if String.eqb policy "HYBRID_ED25519_PLUS_DILITHIUM" then
    (["ed25519"], ["dilithium2"; "dilithium3"; "dilithium5"])
  else if String.eqb policy "PQC_ONLY_DILITHIUM" then
    ([], ["dilithium2"; "dilithium3"; "dilithium5"])
  else ([], []).

Record Sig := {
  alg : string;
  publicKeyHex : string;
  signatureHex : string;
}.

Record CarAttestation := {
  attestationId : string;
  suite : string;
  cryptoPolicy : string;
  keyEpoch : number;
  createdAt : number;
  envelopeHashHex : string;
  classicalSig : option Sig;
  pqcSig : option Sig;
  meta : option (list (string * string));
}.

(** [typeof x] for a field the interface declares a [number]. *)
Definition typeof_number (x : number) : string := "number".

(** [!x] for an optional object field: true when the field is absent. *)
Definition absent {A} (x : option A) : bool :=
  match x with Some _ => false | None => true end.

(** Validate attestation structure (not cryptographic validity) *)
Definition isValidAttestationStructure (attestation : CarAttestation) : bool :=
  if negb (truthy (attestationId attestation)) then false
  else if negb (truthy (suite attestation)) then false
  else if negb (truthy (cryptoPolicy attestation)) then false
  else if negb (String.eqb (typeof_number (keyEpoch attestation)) "number") then false
  else if negb (String.eqb (typeof_number (createdAt attestation)) "number") then false
  else if negb (truthy (envelopeHashHex attestation)) then false
  else if str_includes (cryptoPolicy attestation) "HYBRID"
          && (absent (classicalSig attestation) || absent (pqcSig attestation))
  then false
  else if str_includes (cryptoPolicy attestation) "PQC_ONLY"
          && absent (pqcSig attestation)
  then false
  else true.

(** Check if attestation has expired based on max age *)
Definition isAttestationExpired (attestation : CarAttestation)
    (maxAgeMs : number) : M bool :=
  t ← Date_now;
  ret (num_gt (t - createdAt attestation)%float maxAgeMs).

(** Get attestation age in milliseconds *)
Definition getAttestationAge (attestation : CarAttestation) : M number :=
  t ← Date_now;
  ret (t - createdAt attestation)%float.

Definition sig_json (s : Sig) : JSValue :=
  JObj [ ("alg", JStr (alg s));
         ("publicKeyHex", JStr (publicKeyHex s));
         ("signatureHex", JStr (signatureHex s)) ].

(** The attestation as the object [JSON.stringify] walks, its keys in
    the order the suites write them. *)
Definition attestation_json (a : CarAttestation) : JSValue :=
  JObj [ ("attestationId", JStr (attestationId a));
         ("suite", JStr (suite a));
         ("cryptoPolicy", JStr (cryptoPolicy a));
         ("keyEpoch", JNum (keyEpoch a));
         ("createdAt", JNum (createdAt a));
         ("envelopeHashHex", JStr (envelopeHashHex a));
         ("classicalSig",
          match classicalSig a with Some s => sig_json s | None => JUndefined end);
         ("pqcSig",
          match pqcSig a with Some s => sig_json s | None => JUndefined end);
         ("meta",
          match meta a with
          | Some m => JObj (map (fun kv => (fst kv, JStr (snd kv))) m)
          | None => JUndefined
          end) ].

End Pqc.

(** ** car/attest/types.ts, the two hybrid suites and car/attest/index.ts *)

Module Attestor.
Import Types Pqc.

Record AttestInput := {
  envelope : PaymentIntentEnvelope;
  envelopeCanonicalBytes : list Byte.byte;
  input_keyEpoch : number;
}.

Record AttestOutput := {
  attestation : CarAttestation;
  attestationHashHex : string;
}.

Record CarAttestor := {
  id : string;
  supports : list string;
  attest : AttestInput -> M AttestOutput;
}.

(** [buffer.toString("hex")] *)
Definition toHex (buffer : list Byte.byte) : string :=
  fold_right
    (fun b acc =>
       let n := N.to_nat (Byte.to_N b) in
       substring (n / 16) 1 "0123456789abcdef"
       ++ substring (n mod 16) 1 "0123456789abcdef" ++ acc)
    "" buffer.

(** Classical signing placeholder (ed25519) *)
Definition signEd25519 (_msg : list Byte.byte) : string * string :=
  ("ED25519_PUBLIC_KEY_HEX_PLACEHOLDER", "ED25519_SIGNATURE_HEX_PLACEHOLDER").

(** Classical signing placeholder (secp256k1 ECDSA) *)
Definition signEcdsaSecp256k1 (_msg : list Byte.byte) : string * string :=
  ("SECP256K1_PUBLIC_KEY_HEX_PLACEHOLDER", "SECP256K1_SIGNATURE_HEX_PLACEHOLDER").

(** PQC signing placeholder (Dilithium): algorithm, public key, signature *)
Definition signDilithium (_msg : list Byte.byte) : string * string * string :=
  ("dilithium2", "DILITHIUM_PUBLIC_KEY_HEX_PLACEHOLDER",
   "DILITHIUM_SIGNATURE_HEX_PLACEHOLDER").

Section WithBuiltins.
Context (B : Builtins).

Definition hybridEd25519DilithiumSuite : CarAttestor :=
  {| id := "CAR_ATTEST_V1_HYBRID_ED25519_DILITHIUM";
     supports := ["HYBRID_ED25519_PLUS_DILITHIUM"];
     attest := fun input =>
       (* Step 1: Hash the envelope (SHA3-256) *)
       let envelopeHash := sha3_256 B (envelopeCanonicalBytes input) in
       let envelopeHashHex := toHex envelopeHash in
       (* Step 2: Sign with classical algorithm (Ed25519) *)
       let classical := signEd25519 envelopeHash in
       (* Step 3: Sign with PQC algorithm (Dilithium) *)
       let pqc := signDilithium envelopeHash in
       (* Step 4: Build attestation record *)
       uuid ← randomUUID;
       t ← Date_now;
       let attestation :=
         {| attestationId := uuid;
            suite := "CAR_ATTEST_V1_HYBRID";
            cryptoPolicy := "HYBRID_ED25519_PLUS_DILITHIUM";
            keyEpoch := input_keyEpoch input;
            createdAt := t;
            envelopeHashHex := envelopeHashHex;
            classicalSig := Some {| alg := "ed25519";
                                    publicKeyHex := fst classical;
                                    signatureHex := snd classical |};
            pqcSig := Some {| alg := fst (fst pqc);
                              publicKeyHex := snd (fst pqc);
                              signatureHex := snd pqc |};
            meta := Some [("note",
                           "Hybrid attestation: ed25519 + dilithium over SHA3-256(envelope)")] |} in
       (* Step 5: Create commitment hash for anchoring / audit logs *)
       let attestationHash :=
         sha256_hex B (JSON_stringify B (attestation_json attestation)) in
       ret {| attestation := attestation;
              attestationHashHex := attestationHash |} |}.

Definition hybridEcdsaDilithiumSuite : CarAttestor :=
  {| id := "CAR_ATTEST_V1_HYBRID_ECDSA_DILITHIUM";
     supports := ["HYBRID_ECDSA_SECP256K1_PLUS_DILITHIUM"];
     attest := fun input =>
       (* Step 1: Hash the envelope (SHA3-256) *)
       let envelopeHash := sha3_256 B (envelopeCanonicalBytes input) in
       let envelopeHashHex := toHex envelopeHash in
       (* Step 2: Sign with classical algorithm (secp256k1 ECDSA) *)
       let classical := signEcdsaSecp256k1 envelopeHash in
       (* Step 3: Sign with PQC algorithm (Dilithium) *)
       let pqc := signDilithium envelopeHash in
       (* Step 4: Build attestation record *)
       uuid ← randomUUID;
       t ← Date_now;
       let attestation :=
         {| attestationId := uuid;
            suite := "CAR_ATTEST_V1_HYBRID";
            cryptoPolicy := "HYBRID_ECDSA_SECP256K1_PLUS_DILITHIUM";
            keyEpoch := input_keyEpoch input;
            createdAt := t;
            envelopeHashHex := envelopeHashHex;
            classicalSig := Some {| alg := "secp256k1";
                                    publicKeyHex := fst classical;
                                    signatureHex := snd classical |};
            pqcSig := Some {| alg := fst (fst pqc);
                              publicKeyHex := snd (fst pqc);
                              signatureHex := snd pqc |};
            meta := Some [("note",
                           "Hybrid attestation: secp256k1 + dilithium over SHA3-256(envelope)")] |} in
       (* Step 5: Create commitment hash for anchoring / audit logs *)
       let attestationHash :=
         sha256_hex B (JSON_stringify B (attestation_json attestation)) in
       ret {| attestation := attestation;
              attestationHashHex := attestationHash |} |}.

(** Factory: choose an attestation suite based on PIE.cryptoPolicy. *)
Definition createAttestor (cryptoPolicy : string) : Result CarAttestor :=
  if String.eqb cryptoPolicy "HYBRID_ED25519_PLUS_DILITHIUM" then
    Ok hybridEd25519DilithiumSuite
  else if String.eqb cryptoPolicy "HYBRID_ECDSA_SECP256K1_PLUS_DILITHIUM" then
    Ok hybridEcdsaDilithiumSuite
  else if String.eqb cryptoPolicy "CLASSICAL_ONLY" then
    Throw "CLASSICAL_ONLY attestor not yet implemented"
  else if String.eqb cryptoPolicy "PQC_ONLY_DILITHIUM" then
    Throw "PQC_ONLY_DILITHIUM attestor not yet implemented"
  else
    Throw ("Unsupported cryptoPolicy for CAR attestation: " ++ cryptoPolicy).

End WithBuiltins.

(** List all supported crypto policies *)
Definition getSupportedPolicies : list string :=
  [ "HYBRID_ED25519_PLUS_DILITHIUM";
    "HYBRID_ECDSA_SECP256K1_PLUS_DILITHIUM" ].

(** Check if a policy is supported *)
Definition isPolicySupported (policy : string) : bool :=
  includes getSupportedPolicies policy.

End Attestor.

(** ** optimizers/dwave: model.ts, adapter.ts and the orchestrator *)

Module Rotation.

Record RotationNode := {
  id : string;
  tier : string;              (* "CRITICAL" | "HIGH" | "MEDIUM" | "LOW" *)
  windowStartUtc : string;
  windowEndUtc : string;
  maxDowntimeMinutes : number;
  dependencies : list string; (* ids that must rotate before this *)
}.

Record RotationConstraints := {
  maxConcurrent : number;
  maxTotalDowntimeMinutes : number;
  epochTarget : number;
}.

Record RotationPlanItem := {
  item_id : string;
  scheduledStartUtc : string;
  scheduledEndUtc : string;
  item_epoch : number;
}.

Record RotationPlan := {
  epoch : number;
  items : list RotationPlanItem;
  score : number;
  notes : option (list string);
}.

(** Tier priority ranking (lower = higher priority) *)
Definition TIER_PRIORITY : gmap string number :=
  <["LOW" := 3%float]> (<["MEDIUM" := 2%float]> (<["HIGH" := 1%float]>
    (<["CRITICAL" := 0%float]> ∅))).

(** The property names every object literal inherits. *)
Definition objectPrototypeKeys : list string :=
  [ "constructor"; "hasOwnProperty"; "isPrototypeOf"; "propertyIsEnumerable";
    "toLocaleString"; "toString"; "valueOf"; "__proto__";
    "__defineGetter__"; "__defineSetter__";
    "__lookupGetter__"; "__lookupSetter__" ].

(** [key in TIER_PRIORITY]: an own key or an inherited one. *)
Definition in_TIER_PRIORITY (key : string) : bool :=
  bool_decide (is_Some (TIER_PRIORITY !! key)) || includes objectPrototypeKeys key.

(** [TIER_PRIORITY[key]] as an operand of [-]: a key that is not an own
    key reads [undefined] or a function, either of which is [NaN] there. *)
Definition tierPriority (key : string) : number :=
  match TIER_PRIORITY !! key with
  | Some n => n
  | None => nan
  end.

Definition typeof_number (x : number) : string := "number".

(** Validate rotation node. [dependencies] is an array by its type. *)
Definition isValidRotationNode (node : RotationNode) : bool :=
  if negb (truthy (id node)) then false
  else if negb (truthy (tier node)) || negb (in_TIER_PRIORITY (tier node)) then false
  else if negb (truthy (windowStartUtc node)) || negb (truthy (windowEndUtc node))
  then false
  else if negb (String.eqb (typeof_number (maxDowntimeMinutes node)) "number")
  then false
  else true.

(** Validate rotation constraints *)
Definition isValidConstraints (constraints : RotationConstraints) : bool :=
  if negb (String.eqb (typeof_number (maxConcurrent constraints)) "number")
     || num_lt (maxConcurrent constraints) 1%float then false
  else if negb (String.eqb (typeof_number (maxTotalDowntimeMinutes constraints)) "number")
  then false
  else if negb (String.eqb (typeof_number (epochTarget constraints)) "number")
  then false
  else true.

Record RotationOptimizerAdapter := {
  adapter_id : string;
  solve : list RotationNode -> RotationConstraints -> M RotationPlan;
}.

(** The class of the orchestrator: one private field. *)
Record RotationOptimizer := {
  adapter : RotationOptimizerAdapter;
}.

(** The two sets of the traversal. *)
Record Marks := {
  visited : gset string;
  inStack : gset string;
}.

(** [new Map(nodes.map(n => [n.id, n]))]: a later node replaces an
    earlier one of the same id. *)
Definition makeNodeMap (nodes : list RotationNode) : gmap string RotationNode :=
  fold_left (fun m n => <[id n := n]> m) nodes ∅.

(** The loop [for (const dep of node.dependencies)] of [hasCycle],
    over the recursive call [hasCycle]: it stops at the first dependency
    that answers true. *)
Definition eachDependency (hasCycle : string -> Marks -> option (bool * Marks))
    : list string -> Marks -> option (bool * Marks) :=
  fix each (deps : list string) (marks : Marks) : option (bool * Marks) :=
    match deps with
    | [] => Some (false, marks)
    | dep :: rest =>
        match hasCycle dep marks with
        | None => None
        | Some (true, marks') => Some (true, marks')
        | Some (false, marks') => each rest marks'
        end
    end.

(** The dependencies of [nodeMap.get(nodeId)], none when it is absent. *)
Definition dependenciesOf (nodeMap : gmap string RotationNode) (nodeId : string)
    : list string :=
  match nodeMap !! nodeId with
  | Some node => dependencies node
  | None => []
  end.

(** The closure [hasCycle] of [validateNoCycles]. It returns its answer
    with the marks it leaves; [fuel] bounds the depth of the recursion,
    and [None] says the bound was reached. *)
Fixpoint hasCycle (fuel : nat) (nodeMap : gmap string RotationNode)
    (nodeId : string) (marks : Marks) : option (bool * Marks) :=
  match fuel with
  | O => None
  | S fuel' =>
      if bool_decide (nodeId ∈ inStack marks) then Some (true, marks)
      else if bool_decide (nodeId ∈ visited marks) then Some (false, marks)
      else
        let marks := {| visited := {[nodeId]} ∪ visited marks;
                        inStack := {[nodeId]} ∪ inStack marks |} in
        match eachDependency (hasCycle fuel' nodeMap)
                (dependenciesOf nodeMap nodeId) marks with
        | None => None
        | Some (true, marks') => Some (true, marks')
        | Some (false, marks') =>
            Some (false, {| visited := visited marks';
                            inStack := inStack marks' ∖ {[nodeId]} |})
        end
  end.

(** Every identifier the traversal can meet: the ids of the nodes and
    of their dependencies. *)
Definition mentioned (nodes : list RotationNode) : list string :=
  flat_map (fun n => id n :: dependencies n) nodes.

(** The loop of [validateNoCycles] over the nodes. *)
Fixpoint checkNodes (fuel : nat) (nodeMap : gmap string RotationNode)
    (nodes : list RotationNode) (marks : Marks) : Result unit :=
  match nodes with
  | [] => Ok tt
  | node :: rest =>
      match hasCycle fuel nodeMap (id node) marks with
      | None => Throw "Maximum call stack size exceeded"
      | Some (true, _) =>
          Throw ("Dependency cycle detected involving node: " ++ id node)
      | Some (false, marks') => checkNodes fuel nodeMap rest marks'
      end
  end.

(** Validate that there are no dependency cycles *)
Definition validateNoCycles (nodes : list RotationNode) : Result unit :=
  checkNodes (S (length (mentioned nodes))) (makeNodeMap nodes) nodes
    {| visited := ∅; inStack := ∅ |}.

(** *** Notions used to state the properties of the traversal *)

Section Graph.
Context (nodeMap : gmap string RotationNode).

(** [u] depends on [v]: [v] is listed by the node that [nodeMap] holds
    for [u]. A cycle is a node that reaches itself along such edges. *)
Definition edge (u v : string) : Prop := In v (dependenciesOf nodeMap u).

(** Finished by the traversal: visited and no longer on the stack. *)
Definition finished (m : Marks) (u : string) : Prop :=
  u ∈ visited m /\ u ∉ inStack m.

(** What holds of the marks between two calls: the stack is visited,
    finished nodes depend on finished nodes only, and no finished node
    is on a cycle. *)
Record Inv (m : Marks) : Prop := {
  inv_stack : inStack m ⊆ visited m;
  inv_closed : forall u v, finished m u -> edge u v -> finished m v;
  inv_acyclic : forall u, finished m u -> tc edge u u -> False;
}.

(** A call that answers false leaves the invariant, keeps the stack,
    and has finished its node. *)
Definition answers_false (f : string -> Marks -> option (bool * Marks)) : Prop :=
  forall nodeId m m',
    Inv m -> f nodeId m = Some (false, m') ->
    Inv m' /\ visited m ⊆ visited m' /\ inStack m' = inStack m
    /\ finished m' nodeId.

(** With enough fuel a call on a node of [U] answers, and only adds marks. *)
Definition answers (U : gset string) (fuel : nat)
    (f : string -> Marks -> option (bool * Marks)) : Prop :=
  forall nodeId m,
    nodeId ∈ U -> size (U ∖ visited m) < fuel ->
    exists b m', f nodeId m = Some (b, m') /\ visited m ⊆ visited m'.

End Graph.

Section WithBuiltins.
Context (B : Builtins).

(** [x || y] on numbers: [y] when [x] is zero or [NaN]. *)
Definition num_or (x y : number) : number :=
  if num_eq x 0%float || is_nan x then y else x.

(** Default fallback adapter: deterministic greedy (classical). *)
Definition greedyRotationAdapter : RotationOptimizerAdapter :=
  {| adapter_id := "GREEDY_FALLBACK_V1";
     solve := fun nodes constraints =>
       (* Sort by tier priority, then by window start *)
       let sorted :=
         sort (fun a b =>
                 num_or (tierPriority (tier a) - tierPriority (tier b))%float
                        (String_localeCompare B (windowStartUtc a) (windowStartUtc b)))
              nodes in
       let items :=
         map (fun n => {| item_id := id n;
                          scheduledStartUtc := windowStartUtc n;
                          scheduledEndUtc := windowEndUtc n;
                          item_epoch := epochTarget constraints |}) sorted in
       (* Calculate simple score (total count as placeholder) *)
       let score := float_of_Z (Z.of_nat (length items)) in
       ret {| epoch := epochTarget constraints;
              items := items;
              score := score;
              notes := Some
                [ "Used GREEDY_FALLBACK_V1 adapter (no D-Wave).";
                  "Processed "
                  ++ Number_toString B (float_of_Z (Z.of_nat (length nodes)))
                  ++ " nodes.";
                  "maxConcurrent=" ++ Number_toString B (maxConcurrent constraints)
                  ++ " constraint applied via sequential scheduling." ] |} |}.

Definition logger : Logging.Logger := Logging.createLogger B "lear".

(** The loop that validates the nodes of [buildPlan]. *)
Fixpoint validateNodes (nodes : list RotationNode) : Result unit :=
  match nodes with
  | [] => Ok tt
  | node :: rest =>
      if negb (isValidRotationNode node) then
        Throw ("Invalid rotation node: " ++ id node)
      else validateNodes rest
  end.

(** Build a rotation plan from nodes and constraints *)
Definition buildPlan (this : RotationOptimizer) (nodes : list RotationNode)
    (constraints : RotationConstraints) : M RotationPlan :=
  Logging.info logger "Building rotation plan"
    (Some [ ("nodeCount", JNum (float_of_Z (Z.of_nat (length nodes))));
            ("epochTarget", JNum (epochTarget constraints));
            ("adapter", JStr (adapter_id (adapter this))) ]);;
  (* Validate inputs *)
  lift (validateNodes nodes);;
  (if negb (isValidConstraints constraints) then
     throw "Invalid rotation constraints"
   else ret tt);;
  (* Check for dependency cycles *)
  lift (validateNoCycles nodes);;
  (* Solve using adapter *)
  plan ← solve (adapter this) nodes constraints;
  Logging.audit logger
    {| Logging.layer := "lear";
       Logging.action := "buildRotationPlan";
       Logging.actor := "system";
       Logging.data :=
         [ ("adapter", JStr (adapter_id (adapter this)));
           ("nodeCount", JNum (float_of_Z (Z.of_nat (length nodes))));
           ("planItemCount", JNum (float_of_Z (Z.of_nat (length (items plan)))));
           ("score", JNum (score plan)) ];
       Logging.outcome := "success" |};;
  ret plan.

(** Set a different optimizer adapter: the object after the assignment. *)
Definition setAdapter (this : RotationOptimizer)
    (newAdapter : RotationOptimizerAdapter) : M RotationOptimizer :=
  Logging.info logger "Switching rotation optimizer adapter"
    (Some [ ("from", JStr (adapter_id (adapter this)));
            ("to", JStr (adapter_id newAdapter)) ]);;
  ret {| adapter := newAdapter |}.

(** Get current adapter ID *)
Definition getAdapterId (this : RotationOptimizer) : string :=
  adapter_id (adapter this).

(** [new RotationOptimizer()], with the default adapter. *)
Definition defaultRotationOptimizer : RotationOptimizer :=
  {| adapter := greedyRotationAdapter |}.

End WithBuiltins.

End Rotation.

(** ** ledger/ilp.ts *)

Module Ilp.

Record ResolvedAddress := {
  type : string;               (* 'payment-pointer' | 'ilp-address' *)
  host : option string;        (* [string | null] *)
  path : option string;
  ilpAddress : option string;
}.

(** [s.slice(start)] for a start within the string or at its end. *)
Definition slice (start : nat) (s : string) : string :=
  substring start (String.length s - start) s.

(** [s.split(sep)] for a separator of one character: the pieces between
    the occurrences of the separator, at least one piece. *)
Fixpoint split (sep : ascii) (s : string) : list string :=
  match s with
  | EmptyString => [""]
  | String c r =>
      if Ascii.eqb c sep then "" :: split sep r
      else match split sep r with
           | [] => [String c ""]
           | piece :: pieces => String c piece :: pieces
           end
  end.

(** [a.join(sep)] *)
Fixpoint join (sep : string) (a : list string) : string :=
  match a with
  | [] => ""
  | x :: rest =>
      match rest with
      | [] => x
      | _ :: _ => x ++ sep ++ join sep rest
      end
  end.

(** Resolve ILP address to payment pointer; [None] is the source's
    [null]. The pattern [[host, ...path]] reads the first piece and the
    remaining ones. *)
Definition resolveAddress (address : string) : option ResolvedAddress :=
  if String.prefix "$" address then
    let pieces := split "/" (slice 1 address) in
    let host := match pieces with [] => None | h :: _ => Some h end in
    let path := match pieces with [] => [] | _ :: t => t end in
    Some {| type := "payment-pointer";
            host := host;
            path := Some ("/" ++ join "/" path);
            ilpAddress := None |}
  else if String.prefix "g." address then
    Some {| type := "ilp-address";
            host := None;
            path := None;
            ilpAddress := Some address |}
  else None.

(** *** Notions used to state the properties of the resolution *)

(** The character occurs in the string. *)
Fixpoint occurs (c : ascii) (s : string) : bool :=
  match s with
  | EmptyString => false
  | String x r => Ascii.eqb x c || occurs c r
  end.

End Ilp.

(** ** security/pqc/hashes.ts *)

Module Hashes.

Section WithBuiltins.
Context (B : Builtins).

(** Use SHA3-256 for envelope hashing. *)
Definition sha3_256 (data : list Byte.byte) : list Byte.byte := JS.sha3_256 B data.

(** Create a commitment hash for on-ledger anchoring *)
Definition createCommitmentHash (attestationJson : string) : string :=
  sha256_hex B attestationJson.

(** Verify a commitment hash *)
Definition verifyCommitmentHash (attestationJson expectedHash : string) : bool :=
  let computed := createCommitmentHash attestationJson in
  String.eqb computed expectedHash.

End WithBuiltins.

End Hashes.

(** ** security/pqc/policy.ts ([isValidCryptoPolicy]) and pie.crypto.ts *)

Module PieCrypto.

Record CryptoPolicy := {
  cryptoPolicy : string;
  attestationSuite : string;
  keyEpoch : number;
  requireHybrid : bool;
}.

(** [PieCryptoFields extends CryptoPolicy]: the fields of the policy and
    one more. *)
Record PieCryptoFields := {
  policy : CryptoPolicy;
  requiredProofs : list string;
}.

(** [Partial<PieCryptoFields>]: every field may be missing. *)
Record PartialPieCryptoFields := {
  partial_cryptoPolicy : option string;
  partial_attestationSuite : option string;
  partial_keyEpoch : option number;
  partial_requireHybrid : option bool;
  partial_requiredProofs : option (list string);
}.

(** A complete object where a partial one is expected. *)
Definition asPartial (fields : PieCryptoFields) : PartialPieCryptoFields :=
  {| partial_cryptoPolicy := Some (cryptoPolicy (policy fields));
     partial_attestationSuite := Some (attestationSuite (policy fields));
     partial_keyEpoch := Some (keyEpoch (policy fields));
     partial_requireHybrid := Some (requireHybrid (policy fields));
     partial_requiredProofs := Some (requiredProofs fields) |}.

Definition typeof_number (x : number) : string := "number".
Definition typeof_boolean (x : bool) : string := "boolean".

(** Validate that a crypto policy is well-formed *)
Definition isValidCryptoPolicy (policy : CryptoPolicy) : bool :=
  if negb (truthy (cryptoPolicy policy)) then false
  else if negb (truthy (attestationSuite policy)) then false
  else if negb (String.eqb (typeof_number (keyEpoch policy)) "number")
          || num_lt (keyEpoch policy) 0%float then false
  else if negb (String.eqb (typeof_boolean (requireHybrid policy)) "boolean") then false
  else true.

(** [!x] for an optional string: true when it is missing or empty. *)
Definition missing (x : option string) : bool :=
  match x with Some s => negb (truthy s) | None => true end.

(** A strict validator for crypto policy fields. *)
Definition validatePieCryptoFields (input : PartialPieCryptoFields) : Result unit :=
  if missing (partial_cryptoPolicy input) then Throw "PIE missing cryptoPolicy"
  else if missing (partial_attestationSuite input) then
    Throw "PIE missing attestationSuite"
  else if match partial_keyEpoch input with
          | Some k => negb (String.eqb (typeof_number k) "number") || num_lt k 0%float
          | None => true
          end then Throw "PIE invalid keyEpoch"
  else if match partial_requireHybrid input with
          | Some b => negb (String.eqb (typeof_boolean b) "boolean")
          | None => true
          end then Throw "PIE invalid requireHybrid"
  else if match partial_requiredProofs input with
          | Some _ => false
          | None => true
          end then Throw "PIE invalid requiredProofs"
  else Ok tt.

(** Opinionated defaults for safe rollout *)
Definition defaultHybridPolicy (keyEpoch : number) : PieCryptoFields :=
  {| policy := {| cryptoPolicy := "HYBRID_ED25519_PLUS_DILITHIUM";
                  attestationSuite := "CAR_ATTEST_V1_HYBRID";
                  keyEpoch := keyEpoch;
                  requireHybrid := true |};
     requiredProofs := ["pqc_attestation:v1"] |}.

(** Classical-only policy (no PQC) *)
Definition classicalOnlyPolicy (keyEpoch : number) : PieCryptoFields :=
  {| policy := {| cryptoPolicy := "CLASSICAL_ONLY";
                  attestationSuite := "CAR_ATTEST_V1";
                  keyEpoch := keyEpoch;
                  requireHybrid := false |};
     requiredProofs := [] |}.

(** ECDSA + Dilithium hybrid policy (XRPL-compatible classical side) *)
Definition ecdsaDilithiumPolicy (keyEpoch : number) : PieCryptoFields :=
  {| policy := {| cryptoPolicy := "HYBRID_ECDSA_SECP256K1_PLUS_DILITHIUM";
                  attestationSuite := "CAR_ATTEST_V1_HYBRID";
                  keyEpoch := keyEpoch;
                  requireHybrid := true |};
     requiredProofs := ["pqc_attestation:v1"] |}.

(** PQC-only policy *)
Definition pqcOnlyPolicy (keyEpoch : number) : PieCryptoFields :=
  {| policy := {| cryptoPolicy := "PQC_ONLY_DILITHIUM";
                  attestationSuite := "CAR_ATTEST_V1_PQC";
                  keyEpoch := keyEpoch;
                  requireHybrid := false |};
     requiredProofs := ["pqc_attestation:v1"] |}.

(** *** Notions used to state the properties of the policies *)

(** The four policies the module builds, at one key epoch. *)
Definition builtPolicies (keyEpoch : number) : list PieCryptoFields :=
  [ defaultHybridPolicy keyEpoch; classicalOnlyPolicy keyEpoch;
    ecdsaDilithiumPolicy keyEpoch; pqcOnlyPolicy keyEpoch ].

End PieCrypto.

(** ** ledger/settlement.ts *)

Module Settlement.
Import Types.

Record SettlementConfig := {
  primaryLedger : string;        (* 'xrpl' | 'ilp' *)
  confirmationRequirement : number;
  timeoutMs : number;
}.

Record Settlement := {
  settlementId : string;
  settlement_intentId : string;
  settlement_timestamp : number;
  status : string;    (* 'pending' | 'submitted' | 'confirming' | 'finalized'
                         | 'failed' | 'timeout' *)
  ledger : string;
  settlement_transactionHash : option string;
  confirmations : number;
  finalizedAt : option number;
}.

Record SettlementSummary := {
  total : number;
  pending : number;
  finalized : number;
  failed : number;
  avgConfirmationTime : number;
}.

(** [{ ...settlement, status }] *)
Definition with_status (settlement : Settlement) (newStatus : string) : Settlement :=
  {| settlementId := settlementId settlement;
     settlement_intentId := settlement_intentId settlement;
     settlement_timestamp := settlement_timestamp settlement;
     status := newStatus;
     ledger := ledger settlement;
     settlement_transactionHash := settlement_transactionHash settlement;
     confirmations := confirmations settlement;
     finalizedAt := finalizedAt settlement |}.

(** Truthiness of an optional number: missing, zero and [NaN] are falsy. *)
Definition truthy_number (x : option number) : bool :=
  match x with
  | Some n => negb (num_eq n 0%float || is_nan n)
  | None => false
  end.

(** An optional number as an operand of [-]: [undefined] is [NaN] there. *)
Definition to_number (x : option number) : number :=
  match x with Some n => n | None => nan end.

Definition count {A} (l : list A) : number := float_of_Z (Z.of_nat (length l)).

Section WithBuiltins.
Context (B : Builtins).

Definition logger : Logging.Logger := Logging.createLogger B "ledger".

(** Track a settlement *)
Definition createSettlement (intentId ledgerName : string) : M Settlement :=
  idTime ← Date_now;
  stamp ← Date_now;
  let settlement :=
    {| settlementId := "settle-" ++ Number_toString B idTime;
       settlement_intentId := intentId;
       settlement_timestamp := stamp;
       status := "pending";
       ledger := ledgerName;
       settlement_transactionHash := None;
       confirmations := 0%float;
       finalizedAt := None |} in
  Logging.info logger "Settlement created"
    (Some [("settlementId", JStr (settlementId settlement))]);;
  ret settlement.

(** Update settlement with submission result *)
Definition recordSubmission (settlement : Settlement) (result : SubmissionResult)
    : M Settlement :=
  let updated :=
    {| settlementId := settlementId settlement;
       settlement_intentId := settlement_intentId settlement;
       settlement_timestamp := settlement_timestamp settlement;
       status := if success result then "submitted" else "failed";
       ledger := ledger settlement;
       settlement_transactionHash := transactionHash result;
       confirmations := confirmations settlement;
       finalizedAt := finalizedAt settlement |} in
  Logging.audit logger
    {| Logging.layer := "ledger";
       Logging.action := "recordSubmission";
       Logging.actor := "system";
       Logging.data :=
         [ ("settlementId", JStr (settlementId settlement));
           ("success", JBool (success result));
           ("transactionHash", JOptStr (transactionHash result)) ];
       Logging.outcome := if success result then "success" else "failure" |};;
  ret updated.

(** Update settlement confirmations. The object literal reads the clock
    for [finalizedAt] when the requirement is met. *)
Definition recordConfirmation (settlement : Settlement) (newConfirmations : number)
    (config : SettlementConfig) : M Settlement :=
  let isFinalized := num_ge newConfirmations (confirmationRequirement config) in
  finalizedTime ← (if isFinalized then t ← Date_now; ret (Some t) else ret None);
  let updated :=
    {| settlementId := settlementId settlement;
       settlement_intentId := settlement_intentId settlement;
       settlement_timestamp := settlement_timestamp settlement;
       status := if isFinalized then "finalized" else "confirming";
       ledger := ledger settlement;
       settlement_transactionHash := settlement_transactionHash settlement;
       confirmations := newConfirmations;
       finalizedAt := finalizedTime |} in
  (if isFinalized then
     Logging.info logger "Settlement finalized"
       (Some [ ("settlementId", JStr (settlementId settlement));
               ("confirmations", JNum newConfirmations) ]);;
     Logging.audit logger
       {| Logging.layer := "ledger";
          Logging.action := "settlementFinalized";
          Logging.actor := "system";
          Logging.data :=
            [ ("settlementId", JStr (settlementId settlement));
              ("confirmations", JNum newConfirmations);
              ("finalizedAt", JOptNum (finalizedAt updated)) ];
          Logging.outcome := "success" |}
   else ret tt);;
  ret updated.

(** Check if settlement has timed out *)
Definition checkTimeout (settlement : Settlement) (config : SettlementConfig)
    : M Settlement :=
  t ← Date_now;
  let elapsed := (t - settlement_timestamp settlement)%float in
  if num_gt elapsed (timeoutMs config)
     && negb (String.eqb (status settlement) "finalized") then
    Logging.warn logger "Settlement timeout"
      (Some [ ("settlementId", JStr (settlementId settlement));
              ("elapsed", JNum elapsed) ]);;
    ret (with_status settlement "timeout")
  else ret settlement.

End WithBuiltins.

(** Get settlement summary *)
Definition summarizeSettlements (settlements : list Settlement) : SettlementSummary :=
  let finalizedOnes :=
    List.filter (fun s => String.eqb (status s) "finalized") settlements in
  let confirmationTimes :=
    map (fun s => (to_number (finalizedAt s) - settlement_timestamp s)%float)
        (List.filter (fun s => truthy_number (finalizedAt s)) finalizedOnes) in
  let avgConfirmationTime :=
    if (0 <? length confirmationTimes)%nat then
      (fold_left (fun a b => a + b)%float confirmationTimes 0%float
       / count confirmationTimes)%float
    else 0%float in
  {| total := count settlements;
     pending :=
       count (List.filter
                (fun s => includes ["pending"; "submitted"; "confirming"] (status s))
                settlements);
     finalized := count finalizedOnes;
     failed :=
       count (List.filter (fun s => includes ["failed"; "timeout"] (status s))
                settlements);
     avgConfirmationTime := avgConfirmationTime |}.

(** Check if settlement is final (no more changes possible) *)
Definition isFinal (settlement : Settlement) : bool :=
  includes ["finalized"; "failed"; "timeout"] (status settlement).

(** *** Notions used to state the properties of the settlements *)

(** The six values of [SettlementStatus]. *)
Definition statuses : list string :=
  ["pending"; "submitted"; "confirming"; "finalized"; "failed"; "timeout"].

End Settlement.

(** ** Notions used to state further properties of the gate *)

Module Gate.
Import Types.

(** The freshness test of [route]: the clock is read once for the first
    log line, then once for the age of the attestation. *)
Definition freshAt (w : World) (attestation : AttestationRecord) : bool :=
  num_lt (clock w (S (clock_reads w)) - timestamp attestation)%float
         Attest.defaultMaxAge.

(** What [route] answers for a ledger type on a fresh attestation. *)
Definition ledgerError (ledgerType : string) : option string :=
  if String.eqb ledgerType "xrpl" then Some "XRPL submission not yet implemented"
  else if String.eqb ledgerType "ilp" then Some "ILP submission not yet implemented"
  else if String.eqb ledgerType "test" then None
  else Some ("Error: Unknown ledger type: " ++ ledgerType).

Definition isLogged (l : ConsoleLine) : bool :=
  match l with Logged _ => true | Audited _ => false end.

Definition isAudited (l : ConsoleLine) : bool :=
  match l with Logged _ => false | Audited _ => true end.

(** The messages of the log lines, an audit entry counting for its action. *)
Definition lineText (l : ConsoleLine) : string :=
  match l with
  | Logged e => log_message e
  | Audited e => audit_action e
  end.

(** A hexadecimal digit in lower case, and the number a text of such
    digits denotes. *)
Definition isHexDigit (c : ascii) : bool :=
  let n := nat_of_ascii c in
  ((48 <=? n)%nat && (n <=? 57)%nat) || ((97 <=? n)%nat && (n <=? 102)%nat).

Definition hexDigitValue (c : ascii) : Z :=
  let n := Z.of_nat (nat_of_ascii c) in
  if (n <=? 57)%Z then (n - 48)%Z else (n - 87)%Z.

Definition hexValue (s : string) : Z :=
  fold_left (fun a c => 16 * a + hexDigitValue c)%Z (list_ascii_of_string s) 0%Z.

Definition allHex (s : string) : bool :=
  forallb isHexDigit (list_ascii_of_string s).

(** The number [hashEnvelope] prints: the 32-bit hash of the JSON text. *)
Definition hashOf (B : Builtins) (envelope : JSValue) : Z :=
  fold_left Crypto.hashStep (list_ascii_of_string (JSON_stringify B envelope)) 0%Z.

(** The candidates an envelope allows, their ids left empty. *)
Definition allowedShapes (B : Builtins) (envelope : PaymentIntentEnvelope)
    (ledgerState : Compute.LedgerState) : list Compute.Route :=
  Compute.filterByAllowedRoutes (Compute.candidateShapes B envelope ledgerState)
    (allowedRoutes envelope).

(** [x] is not sorted before [y], which stands before it. *)
Definition staysAfter {A} (cmp : A -> A -> number) (y x : A) : Prop :=
  num_lt (cmp x y) 0%float = false.

(** A computation that leaves the halt flag and its reason as they are,
    whether it returns or throws. *)
Definition keeps_halt {A} (m : M A) : Prop :=
  forall w, routingHalted (snd (m w)) = routingHalted w
            /\ haltReason (snd (m w)) = haltReason w.

End Gate.

(** ** Notions used to state the properties of the greedy plan *)

Module Planning.
Import Rotation.

(** The plan item the greedy adapter makes of a node. *)
Definition itemOf (constraints : RotationConstraints) (n : RotationNode)
    : RotationPlanItem :=
  {| item_id := id n;
     scheduledStartUtc := windowStartUtc n;
     scheduledEndUtc := windowEndUtc n;
     item_epoch := epochTarget constraints |}.

(** The tier is one of the four own keys of [TIER_PRIORITY]. *)
Definition ownTier (n : RotationNode) : Prop := is_Some (TIER_PRIORITY !! tier n).

(** [a] is not ranked after [b]. *)
Definition tierLe (a b : RotationNode) : Prop :=
  num_le (tierPriority (tier a)) (tierPriority (tier b)) = true.

(** Two nodes that differ at most in their dependencies. *)
Definition sameWork (a b : RotationNode) : Prop :=
  id a = id b /\ tier a = tier b
  /\ windowStartUtc a = windowStartUtc b /\ windowEndUtc a = windowEndUtc b
  /\ maxDowntimeMinutes a = maxDowntimeMinutes b.

(** No node of the graph reaches itself. *)
Definition acyclic (nodes : list RotationNode) : Prop :=
  forall c, tc (edge (makeNodeMap nodes)) c c -> False.

End Planning.

(** ** Sample data for running the embedding *)

Module Sample.
Import Types Compute.

(** A world whose clock starts at 1700000000000 ms and advances by one
    millisecond at each reading. *)
Definition world : World :=
  {| clock := fun k => (1700000000000 + float_of_Z (Z.of_nat k))%float;
     clock_reads := 0;
     entropy := fun _ => 0.5%float;
     entropy_reads := 0;
     uuids := fun _ => "123e4567-e89b-42d3-a456-426614174000";
     uuid_reads := 0;
     console := [];
     routingHalted := false;
     haltReason := None |}.

(** Send 100 XRP, fee at most 1, expiring 300 s after the clock's start. *)
Definition envelope : PaymentIntentEnvelope :=
  {| intentId := "6f1c0a52-7d3e-4b8a-9c1d-2e5f7a9b0c3d";
     action := "send";
     amount := {| value := "100"; currency := "XRP" |};
     destination := "rDestination";
     constraints := {| maxSlippage := 0.01%float; maxFee := "1";
                       expiry := 1700000300%float |};
     riskBounds := {| maxVolatility := 0.1%float; complianceFlags := [] |};
     allowedRoutes := [];
     requiredProofs := [];
     explanation := "Pay the supplier invoice for October" |}.

Definition with_allowedRoutes (e : PaymentIntentEnvelope) (allowed : list string)
    : PaymentIntentEnvelope :=
  {| intentId := intentId e; action := action e; amount := amount e;
     destination := destination e; constraints := constraints e;
     riskBounds := riskBounds e; allowedRoutes := allowed;
     requiredProofs := requiredProofs e; explanation := explanation e |}.

Definition with_expiry (e : PaymentIntentEnvelope) (t : number)
    : PaymentIntentEnvelope :=
  {| intentId := intentId e; action := action e; amount := amount e;
     destination := destination e;
     constraints := {| maxSlippage := maxSlippage (constraints e);
                       maxFee := maxFee (constraints e); expiry := t |};
     riskBounds := riskBounds e; allowedRoutes := allowedRoutes e;
     requiredProofs := requiredProofs e; explanation := explanation e |}.

(** The same world one minute later. *)
Definition world_later : World :=
  {| clock := fun k => (1700000060000 + float_of_Z (Z.of_nat k))%float;
     clock_reads := 0;
     entropy := fun _ => 0.25%float;
     entropy_reads := 0;
     uuids := fun _ => "123e4567-e89b-42d3-a456-426614174001";
     uuid_reads := 0;
     console := [];
     routingHalted := false;
     haltReason := None |}.

(** What [compute] returns for [envelope] on [ledger "0.00001"] in
    [world] (see [computed_by_compute] below). *)
Definition computed : ComputeResult :=
  {| computeId := "compute-1700000000005";
     timestamp := 1700000000006%float;
     Compute.envelope := envelope;
     selectedRoute :=
       {| routeId := "route-direct-1700000000002"; type := "direct";
          path := ["rDestination"]; estimatedFee := "0.00001";
          estimatedTime := 4%float; confidence := 0.99%float |};
     alternativeRoutes :=
       [ {| routeId := "route-ilp-1700000000003"; type := "ilp";
            path := ["ilp-connector"; "rDestination"];
            estimatedFee := "0.000030";
            estimatedTime := 15%float; confidence := 0.85%float |} ];
     computeTimeMs := 4%float |}.

(** The outcome of [validate] on [computed] with a balance of 1000, and
    what [attest] returns for it in [world] (see [attested_by_attest]). *)
Definition validated : ValidationResult :=
  {| isValid := true; errors := []; warnings := []; attestation_note := None |}.

Definition attestationRecord : AttestationRecord :=
  {| attestationId := "attest-1700000000002";
     envelopeId := "6f1c0a52-7d3e-4b8a-9c1d-2e5f7a9b0c3d";
     Types.timestamp := 1700000000003%float;
     signature := "sig-hash-7ed582c9-1700000000001";
     publicKey := "pub";
     validationHash := "hash-7ed582c9" |}.

Definition attested : Attest.AttestResult :=
  {| Attest.attestId := "attest-1700000000004";
     Attest.timestamp := 1700000000005%float;
     Attest.envelope := envelope;
     Attest.computeResult := computed;
     Attest.validationResult := validated;
     Attest.attestation := attestationRecord;
     Attest.attestationChain := [attestationRecord] |}.

(** The deterministic test backend. *)
Definition testConfig : Route.RouteConfig :=
  {| Route.ledgerType := "test"; Route.nodeUrl := "http://localhost:51234";
     Route.timeout := 30000%float; Route.retryCount := 0%float |}.

(** [computed] for an envelope that expires at second 1700000000. *)
Definition computedExpiring : ComputeResult :=
  {| computeId := computeId computed; Compute.timestamp := Compute.timestamp computed;
     Compute.envelope := with_expiry envelope 1700000000%float;
     selectedRoute := selectedRoute computed;
     alternativeRoutes := alternativeRoutes computed;
     computeTimeMs := computeTimeMs computed |}.

Definition ledger (fee : string) : LedgerState :=
  {| networkFee := fee; lastLedgerIndex := 84000000%float;
     reserves := ∅; orderBooks := None |}.

(** The three nodes A, B and C, each depending on the next and C on A. *)
Definition cyclicNodes : list Rotation.RotationNode :=
  [ {| Rotation.id := "A"; Rotation.tier := "CRITICAL";
       Rotation.windowStartUtc := "2026-01-01T00:00:00Z"; Rotation.windowEndUtc := "2026-01-01T01:00:00Z";
       Rotation.maxDowntimeMinutes := 5%float; Rotation.dependencies := ["B"] |};
    {| Rotation.id := "B"; Rotation.tier := "HIGH";
       Rotation.windowStartUtc := "2026-01-01T01:00:00Z"; Rotation.windowEndUtc := "2026-01-01T02:00:00Z";
       Rotation.maxDowntimeMinutes := 5%float; Rotation.dependencies := ["C"] |};
    {| Rotation.id := "C"; Rotation.tier := "LOW";
       Rotation.windowStartUtc := "2026-01-01T02:00:00Z"; Rotation.windowEndUtc := "2026-01-01T03:00:00Z";
       Rotation.maxDowntimeMinutes := 5%float; Rotation.dependencies := ["A"] |} ].

Definition someConstraints (maxConcurrent : number) : Rotation.RotationConstraints :=
  {| Rotation.maxConcurrent := maxConcurrent; Rotation.maxTotalDowntimeMinutes := 60%float;
     Rotation.epochTarget := 2%float |}.

End Sample.

(** Further sample data. *)

Module Cases.
Import Types.

(** The world of [Sample.world] ten minutes later. *)
Definition world_stale : World :=
  {| clock := fun k => (1700000600000 + float_of_Z (Z.of_nat k))%float;
     clock_reads := 0;
     entropy := fun _ => 0.75%float;
     entropy_reads := 0;
     uuids := fun _ => "123e4567-e89b-42d3-a456-426614174002";
     uuid_reads := 0;
     console := [];
     routingHalted := false;
     haltReason := None |}.

(** A node without its dependencies. *)
Definition withoutDependencies (n : Rotation.RotationNode) : Rotation.RotationNode :=
  {| Rotation.id := Rotation.id n; Rotation.tier := Rotation.tier n;
     Rotation.windowStartUtc := Rotation.windowStartUtc n;
     Rotation.windowEndUtc := Rotation.windowEndUtc n;
     Rotation.maxDowntimeMinutes := Rotation.maxDowntimeMinutes n;
     Rotation.dependencies := [] |}.

(** Three nodes without a cycle: the vault depends on nothing, the
    signer on the vault, the gateway on both. The gateway is listed
    first and ranks highest. *)
Definition chainNodes : list Rotation.RotationNode :=
  [ {| Rotation.id := "gateway"; Rotation.tier := "CRITICAL";
       Rotation.windowStartUtc := "2026-01-01T00:00:00Z";
       Rotation.windowEndUtc := "2026-01-01T01:00:00Z";
       Rotation.maxDowntimeMinutes := 5%float;
       Rotation.dependencies := ["vault"; "signer"] |};
    {| Rotation.id := "vault"; Rotation.tier := "LOW";
       Rotation.windowStartUtc := "2026-01-01T02:00:00Z";
       Rotation.windowEndUtc := "2026-01-01T03:00:00Z";
       Rotation.maxDowntimeMinutes := 5%float;
       Rotation.dependencies := [] |};
    {| Rotation.id := "signer"; Rotation.tier := "HIGH";
       Rotation.windowStartUtc := "2026-01-01T01:00:00Z";
       Rotation.windowEndUtc := "2026-01-01T02:00:00Z";
       Rotation.maxDowntimeMinutes := 5%float;
       Rotation.dependencies := ["vault"] |} ].

(** A node that depends on itself, listed again without the
    dependency. *)
Definition replacedNode : list Rotation.RotationNode :=
  [ {| Rotation.id := "A"; Rotation.tier := "CRITICAL";
       Rotation.windowStartUtc := "2026-01-01T00:00:00Z";
       Rotation.windowEndUtc := "2026-01-01T01:00:00Z";
       Rotation.maxDowntimeMinutes := 5%float;
       Rotation.dependencies := ["A"] |};
    {| Rotation.id := "A"; Rotation.tier := "CRITICAL";
       Rotation.windowStartUtc := "2026-01-01T00:00:00Z";
       Rotation.windowEndUtc := "2026-01-01T01:00:00Z";
       Rotation.maxDowntimeMinutes := 5%float;
       Rotation.dependencies := [] |} ].

(** A settlement made at the start of the sample clock, in a status. *)
Definition settlement (status : string) : Settlement.Settlement :=
  {| Settlement.settlementId := "settle-1700000000000";
     Settlement.settlement_intentId := "6f1c0a52-7d3e-4b8a-9c1d-2e5f7a9b0c3d";
     Settlement.settlement_timestamp := 1700000000001%float;
     Settlement.status := status;
     Settlement.ledger := "xrpl";
     Settlement.settlement_transactionHash := None;
     Settlement.confirmations := 0%float;
     Settlement.finalizedAt := None |}.

(** Three confirmations required, one minute allowed. *)
Definition settlementConfig : Settlement.SettlementConfig :=
  {| Settlement.primaryLedger := "xrpl";
     Settlement.confirmationRequirement := 3%float;
     Settlement.timeoutMs := 60000%float |}.

End Cases.

(** * Properties *)

(** ** The reference engine on known values *)

Module EngineFacts.
Import Engine.

Example floor_samples :
  Math_floor 1700000000.999%float = 1700000000%float /\
  Math_floor (-0.5)%float = (-1)%float /\
  Math_floor 3%float = 3%float /\
  Math_floor 0.25%float = 0%float.
Proof. vm_compute. auto. Qed.

Example parseFloat_samples :
  parseFloat "0.1" = 0.1%float /\ parseFloat "100" = 100%float /\
  parseFloat "0.00001" = 0.00001%float /\ parseFloat "  -12.5e1xyz" = (-125)%float /\
  parseFloat "0.000030" = 0.00003%float /\ parseFloat "1.7976931348623157e308" = 0x1.fffffffffffffp+1023%float /\
  is_nan (parseFloat "abc") = true /\ parseFloat ".5" = 0.5%float /\
  parseFloat "5e-324" = 0x1p-1074%float /\ parseFloat "Infinity" = infinity.
Proof. vm_compute. repeat split. Qed.

Example Number_toString_samples :
  Number_toString 100%float = "100" /\ Number_toString 0.1%float = "0.1" /\
  Number_toString (0.1 + 0.2)%float = "0.30000000000000004" /\
  Number_toString 1e21%float = "1e+21" /\ Number_toString 0.000001%float = "0.000001" /\
  Number_toString 1e-7%float = "1e-7" /\ Number_toString (-1.5)%float = "-1.5" /\
  Number_toString 1700000000000%float = "1700000000000" /\
  Number_toString 123456789012345680000%float = "123456789012345680000" /\
  Number_toString 1.2e-5%float = "0.000012" /\ Number_toString 0.99%float = "0.99".
Proof. vm_compute. repeat split. Qed.

Example Number_toFixed_samples :
  Number_toFixed (0.00001 * 2)%float 6 = "0.000020" /\
  Number_toFixed 15%float 6 = "15.000000" /\
  Number_toFixed (-1.5)%float 0 = "-2" /\
  Number_toFixed 2.5%float 0 = "3" /\
  Number_toFixed 1.005%float 2 = "1.00" /\
  Number_toFixed nan 6 = "NaN".
Proof. vm_compute. repeat split. Qed.

Example JSON_stringify_sample :
  JSON_stringify (JObj [("a", JNum 1.5%float); ("b", JStrs ["x"; "y"]);
                        ("c", JUndefined); ("d", JNull)])
  = "{" ++ dquote ++ "a" ++ dquote ++ ":1.5," ++ dquote ++ "b" ++ dquote
    ++ ":[" ++ dquote ++ "x" ++ dquote ++ "," ++ dquote ++ "y" ++ dquote
    ++ "]," ++ dquote ++ "d" ++ dquote ++ ":null}".
Proof. vm_compute. reflexivity. Qed.

End EngineFacts.


(** ** Candidate routes and the no-route failure *)

Module ComputeFacts.
Import Types Compute.

(** Unfolds one layer of the monad and of the clock and console. *)
Ltac step :=
  cbn [bind ret throw lift try_catch Date_now Math_random randomUUID console_log
       fst snd clock clock_reads entropy entropy_reads uuids uuid_reads
       console routingHalted haltReason].

Lemma bind_run {A C} (m : M A) (k : A -> M C) w a w' :
  m w = (Ok a, w') -> bind m k w = k a w'.
Proof. intros H. unfold bind. rewrite H. reflexivity. Qed.

Lemma bind_throw {A C} (m : M A) (k : A -> M C) w e w' :
  m w = (Throw e, w') -> bind m k w = (Throw e, w').
Proof. intros H. unfold bind. rewrite H. reflexivity. Qed.

Section WithBuiltins.
Context (B : Builtins).

Lemma getCandidateRoutes_types envelope ledgerState w :
  exists routes w',
    getCandidateRoutes B envelope ledgerState w = (Ok routes, w')
    /\ map type routes = candidateTypes envelope.
Proof.
  unfold getCandidateRoutes, candidateTypes.
  destruct (String.eqb (currency (amount envelope)) "XRP");
    destruct (String.eqb (action envelope) "swap");
    step; cbn; eexists _, _; split; reflexivity.
Qed.

Lemma filter_nil_none {A} (f : A -> bool) (l : list A) :
  List.filter f l = [] -> forall x, In x l -> f x = false.
Proof.
  induction l as [|a l IH]; cbn; [tauto|].
  destruct (f a) eqn:E; [discriminate|].
  intros H x [->|Hx]; auto.
Qed.

(** *** The sort keeps the elements and commutes with related lists *)

Lemma sort_insert_In {A} (cmp : A -> A -> number) x y l :
  In y (sort_insert cmp x l) <-> y = x \/ In y l.
Proof.
  induction l as [|a l IH]; cbn.
  - intuition.
  - case_match; cbn; [intuition|]. rewrite IH. intuition.
Qed.

Lemma sort_In {A} (cmp : A -> A -> number) y l :
  In y (sort cmp l) <-> In y l.
Proof.
  unfold sort.
  assert (G : forall acc, In y (fold_left (fun acc x => sort_insert cmp x acc) l acc)
                          <-> In y acc \/ In y l).
  { induction l as [|a l IH]; intros acc; cbn; [intuition|].
    rewrite IH, sort_insert_In. intuition. }
  rewrite G. cbn. intuition.
Qed.

Lemma sort_length {A} (cmp : A -> A -> number) l :
  length (sort cmp l) = length l.
Proof.
  unfold sort.
  assert (I : forall x acc, length (sort_insert cmp x acc) = S (length acc)).
  { intros x acc. induction acc as [|a acc IH]; cbn; [reflexivity|].
    case_match; cbn; [reflexivity|]. now rewrite IH. }
  assert (G : forall acc, length (fold_left (fun acc x => sort_insert cmp x acc) l acc)
                          = length acc + length l).
  { induction l as [|a l IH]; intros acc; cbn; [lia|]. rewrite IH, I. lia. }
  rewrite G. reflexivity.
Qed.

Section Related.
Context {A : Type} (R : A -> A -> Prop).
Context (cmp1 cmp2 : A -> A -> number).
Hypothesis cmp_related :
  forall a1 a2 b1 b2, R a1 a2 -> R b1 b2 -> cmp1 a1 b1 = cmp2 a2 b2.

Lemma sort_insert_related x1 x2 l1 l2 :
  R x1 x2 -> Forall2 R l1 l2 ->
  Forall2 R (sort_insert cmp1 x1 l1) (sort_insert cmp2 x2 l2).
Proof.
  intros Hx Hl. induction Hl as [|a1 a2 l1 l2 Ha Hl IH]; cbn.
  - repeat constructor. exact Hx.
  - rewrite (cmp_related x1 x2 a1 a2 Hx Ha).
    case_match; repeat constructor; assumption.
Qed.

Lemma sort_related l1 l2 :
  Forall2 R l1 l2 -> Forall2 R (sort cmp1 l1) (sort cmp2 l2).
Proof.
  unfold sort. intros Hl.
  assert (G : forall acc1 acc2, Forall2 R acc1 acc2 ->
            Forall2 R (fold_left (fun acc x => sort_insert cmp1 x acc) l1 acc1)
                      (fold_left (fun acc x => sort_insert cmp2 x acc) l2 acc2)).
  { induction Hl as [|a1 a2 l1 l2 Ha Hl IH]; intros acc1 acc2 Hacc; cbn.
    - exact Hacc.
    - apply IH. apply sort_insert_related; assumption. }
  apply G. constructor.
Qed.

Lemma filter_related (f1 f2 : A -> bool) l1 l2 :
  (forall a1 a2, R a1 a2 -> f1 a1 = f2 a2) ->
  Forall2 R l1 l2 -> Forall2 R (List.filter f1 l1) (List.filter f2 l2).
Proof.
  intros Hf Hl. induction Hl as [|a1 a2 l1 l2 Ha Hl IH]; cbn.
  - constructor.
  - rewrite (Hf a1 a2 Ha). destruct (f2 a2); [constructor|]; assumption.
Qed.

End Related.

Lemma filter_none_nil {A} (f : A -> bool) (l : list A) :
  (forall x, In x l -> f x = false) -> List.filter f l = [].
Proof.
  induction l as [|a l IH]; cbn; intros H; [reflexivity|].
  rewrite (H a) by auto. apply IH. intros x Hx. apply H. auto.
Qed.

Lemma selectOptimalRoute_throws routes envelope w msg w' :
  selectOptimalRoute B routes envelope w = (Throw msg, w') ->
  routes = [] /\ msg = "No valid routes available".
Proof.
  unfold selectOptimalRoute. destruct routes as [|r0 rs].
  - step. intros [= <- <-]. auto.
  - destruct (List.filter _ _); unfold logger; cbn; unfold Logging.log; step;
      discriminate.
Qed.

Lemma compute_throws envelope ledgerState w msg w' :
  compute B envelope ledgerState w = (Throw msg, w') ->
  exists w1 routes w2,
    getCandidateRoutes B envelope ledgerState w1 = (Ok routes, w2)
    /\ filterByAllowedRoutes routes (allowedRoutes envelope) = []
    /\ msg = "No valid routes available".
Proof.
  intros H. revert H.
  unfold compute, logger. cbn. unfold Logging.log. step.
  match goal with
  | |- context [bind (getCandidateRoutes B ?e ?l) _ ?w0] =>
      destruct (getCandidateRoutes_types e l w0) as (routes & w2 & E & _);
      rewrite (bind_run _ _ _ _ _ E); intros H; exists w0, routes, w2
  end.
  destruct (selectOptimalRoute B (filterByAllowedRoutes routes (allowedRoutes envelope))
              envelope w2) as [[r|m] w3] eqn:S.
  - rewrite (bind_run _ _ _ _ _ S) in H. unfold Logging.generateAuditId in H.
    revert H. step. discriminate.
  - rewrite (bind_throw _ _ _ _ _ S) in H.
    apply selectOptimalRoute_throws in S as [S ->].
    injection H as <- _. auto.
Qed.

(** C10. The candidate list always holds an ILP route, whatever the
    envelope, the ledger state and the clock, so it is never empty; and
    when [compute] throws, the error is the no-route one, the allow-list
    of the envelope is not empty and names neither the wildcard nor the
    type of any candidate. *)
Theorem no_route_only_by_allow_list envelope ledgerState :
  (forall w, exists routes w',
      getCandidateRoutes B envelope ledgerState w = (Ok routes, w')
      /\ routes <> []
      /\ exists r, In r routes /\ type r = "ilp")
  /\ (forall w msg w',
        compute B envelope ledgerState w = (Throw msg, w') ->
        msg = "No valid routes available"
        /\ allowedRoutes envelope <> []
        /\ includes (allowedRoutes envelope) "*" = false
        /\ forall w1 routes w2,
             getCandidateRoutes B envelope ledgerState w1 = (Ok routes, w2) ->
             forall r, In r routes ->
                       includes (allowedRoutes envelope) (type r) = false).
Proof.
  split.
  - intros w.
    destruct (getCandidateRoutes_types envelope ledgerState w)
      as (routes & w' & E & T).
    exists routes, w'. split; [exact E|].
    assert (Hin : In "ilp" (map type routes)).
    { rewrite T. unfold candidateTypes. rewrite !in_app_iff. cbn. auto. }
    apply in_map_iff in Hin as (r & Hr & Hin).
    split; [intros ->; contradiction | eauto].
  - intros w msg w' H.
    apply compute_throws in H as (w1 & routes & w2 & E & F & ->).
    destruct (getCandidateRoutes_types envelope ledgerState w1)
      as (routes1 & w2' & E1 & T1).
    rewrite E in E1. symmetry in E1. simplify_eq.
    unfold filterByAllowedRoutes in F.
    destruct (allowedRoutes envelope) as [|a allowed] eqn:A.
    + cbn in F. subst routes. exfalso.
      apply (f_equal (@length string)) in T1. unfold candidateTypes in T1.
      rewrite !length_app in T1. cbn in T1. lia.
    + cbn [length Nat.eqb] in F.
      split; [reflexivity|]. split; [discriminate|].
      split.
      { destruct routes as [|r0 rest].
        { exfalso. apply (f_equal (@length string)) in T1.
          unfold candidateTypes in T1. rewrite !length_app in T1.
          cbn in T1. lia. }
        pose proof (filter_nil_none _ _ F r0 (or_introl eq_refl)) as Hf.
        cbn beta in Hf. apply orb_false_iff in Hf as [_ Hf]. exact Hf. }
      intros w3 routes3 w4 E3 r Hr.
      destruct (getCandidateRoutes_types envelope ledgerState w3)
        as (routes3' & w4' & E3' & T3).
      rewrite E3 in E3'. symmetry in E3'. simplify_eq.
      assert (Ht : In (type r) (map type routes)).
      { rewrite T1, <- T3. apply in_map. exact Hr. }
      apply in_map_iff in Ht as (r1 & Hty & Hr1).
      pose proof (filter_nil_none _ _ F r1 Hr1) as Hf. cbn beta in Hf.
      apply orb_false_iff in Hf as [Hf _]. rewrite <- Hty. exact Hf.
Qed.

(** *** Candidates up to their ids *)

Lemma sameRoute_refl r : sameRoute r r.
Proof. repeat split. Qed.

Lemma sameRoute_sym r1 r2 : sameRoute r1 r2 -> sameRoute r2 r1.
Proof. intros (? & ? & ? & ? & ?). repeat split; congruence. Qed.

Lemma sameRoute_trans r1 r2 r3 :
  sameRoute r1 r2 -> sameRoute r2 r3 -> sameRoute r1 r3.
Proof.
  intros (? & ? & ? & ? & ?) (? & ? & ? & ? & ?). repeat split; congruence.
Qed.

Lemma Forall2_sameRoute_sym l1 l2 :
  Forall2 sameRoute l1 l2 -> Forall2 sameRoute l2 l1.
Proof. induction 1; constructor; auto using sameRoute_sym. Qed.

Lemma Forall2_sameRoute_trans l1 l2 l3 :
  Forall2 sameRoute l1 l2 -> Forall2 sameRoute l2 l3 -> Forall2 sameRoute l1 l3.
Proof.
  intros H. revert l3. induction H; intros l3 H3; inversion H3; subst;
    constructor; eauto using sameRoute_trans.
Qed.

Lemma getCandidateRoutes_shape envelope ledgerState w :
  exists routes w',
    getCandidateRoutes B envelope ledgerState w = (Ok routes, w')
    /\ Forall2 sameRoute routes (candidateShapes B envelope ledgerState).
Proof.
  unfold getCandidateRoutes, candidateShapes.
  destruct (String.eqb (currency (amount envelope)) "XRP");
    destruct (String.eqb (action envelope) "swap");
    step; cbn; eexists _, _; (split; [reflexivity|]);
    repeat constructor.
Qed.

(** In one run the id of a candidate tells its type. *)
Lemma getCandidateRoutes_ids envelope ledgerState w routes w' :
  getCandidateRoutes B envelope ledgerState w = (Ok routes, w') ->
  forall r s, In r routes -> In s routes ->
    String.eqb (routeId r) (routeId s) = String.eqb (type r) (type s).
Proof.
  unfold getCandidateRoutes.
  destruct (String.eqb (currency (amount envelope)) "XRP");
    destruct (String.eqb (action envelope) "swap");
    step; cbn; intros [= <- <-] r s Hr Hs; cbn in Hr, Hs;
    repeat (destruct Hr as [<-|Hr]; [|]); try contradiction;
    repeat (destruct Hs as [<-|Hs]; [|]); try contradiction;
    cbn; rewrite ?String.eqb_refl; reflexivity.
Qed.

Lemma filterByAllowedRoutes_related l1 l2 allowed :
  Forall2 sameRoute l1 l2 ->
  Forall2 sameRoute (filterByAllowedRoutes l1 allowed)
                    (filterByAllowedRoutes l2 allowed).
Proof.
  intros H. unfold filterByAllowedRoutes. case_match; [exact H|].
  apply (filter_related sameRoute); [|exact H].
  intros a1 a2 (-> & _). reflexivity.
Qed.

Lemma filterByAllowedRoutes_In r routes allowed :
  In r (filterByAllowedRoutes routes allowed) -> In r routes.
Proof.
  unfold filterByAllowedRoutes. case_match; [auto|].
  rewrite filter_In. tauto.
Qed.

Lemma compareRoutes_related a1 a2 b1 b2 :
  sameRoute a1 a2 -> sameRoute b1 b2 ->
  compareRoutes B a1 b1 = compareRoutes B a2 b2.
Proof.
  intros (_ & _ & Fa & Ta & Ca) (_ & _ & Fb & Tb & Cb).
  unfold compareRoutes. rewrite Fa, Ta, Ca, Fb, Tb, Cb. reflexivity.
Qed.

(** *** Selection when no candidate is within the fee bound *)

(** The first component of a selection does not depend on the world. *)
Lemma selectOptimalRoute_result routes envelope w :
  fst (selectOptimalRoute B routes envelope w) =
  match routes with
  | [] => Throw "No valid routes available"
  | first :: _ =>
      match List.filter (withinFee B envelope) (sort (compareRoutes B) routes) with
      | [] => Ok (hd first (sort (compareRoutes B) routes))
      | best :: _ => Ok best
      end
  end.
Proof.
  unfold selectOptimalRoute, withinFee. destruct routes as [|r0 rs]; [reflexivity|].
  case_match; reflexivity.
Qed.

Lemma hd_sort_In (first : Route) rest :
  In (hd first (sort (compareRoutes B) (first :: rest))) (first :: rest).
Proof.
  apply (sort_In (compareRoutes B)).
  pose proof (sort_length (compareRoutes B) (first :: rest)) as L.
  destruct (sort (compareRoutes B) (first :: rest)); [discriminate L|].
  cbn. auto.
Qed.

Lemma selectOptimalRoute_fallback routes envelope w :
  routes <> [] ->
  (forall r, In r routes -> withinFee B envelope r = false) ->
  exists r w',
    selectOptimalRoute B routes envelope w = (Ok r, w')
    /\ In r routes
    /\ withinFee B envelope r = false
    /\ exists t, console w' = (console w ++
         [Logged {| log_timestamp := t; log_level := "warn"; log_layer := "car";
                    log_message :=
                      "No routes within fee constraint, using lowest fee option";
                    log_data := None |}])%list.
Proof.
  intros Hne Hfee. unfold selectOptimalRoute.
  destruct routes as [|r0 rs]; [contradiction|].
  assert (F : List.filter (withinFee B envelope) (sort (compareRoutes B) (r0 :: rs)) = []).
  { apply filter_none_nil. intros x Hx.
    rewrite sort_In in Hx. exact (Hfee x Hx). }
  unfold withinFee in F. cbv zeta. rewrite F. unfold logger. cbn. unfold Logging.log. step.
  eexists _, _. split; [reflexivity|].
  pose proof (hd_sort_In r0 rs) as Hin.
  split; [exact Hin|]. split; [exact (Hfee _ Hin)|].
  eexists. reflexivity.
Qed.

(** [getCandidateRoutes] writes nothing. *)
Lemma getCandidateRoutes_console envelope ledgerState w routes w' :
  getCandidateRoutes B envelope ledgerState w = (Ok routes, w') ->
  console w' = console w.
Proof.
  unfold getCandidateRoutes.
  destruct (String.eqb (currency (amount envelope)) "XRP");
    destruct (String.eqb (action envelope) "swap");
    step; cbn; intros [= _ <-]; reflexivity.
Qed.

(** C2, as the code has it. When the allowed candidates are not empty
    and none is within the envelope's fee bound, [compute] does not
    fail. It returns a normal result whose selected route is one of the
    allowed candidates of that run, [w1] being the world in which they
    are made, and the fee of that route is outside the bound. It writes
    three lines and no other: its info line, the warning, and an audit
    entry of the action [compute] whose outcome is [success] and whose
    data do not mention the fee; so the warning alone tells the
    fallback. *)
Theorem compute_selects_fee_violating_route envelope ledgerState w :
  (forall w1 routes w2,
      getCandidateRoutes B envelope ledgerState w1 = (Ok routes, w2) ->
      filterByAllowedRoutes routes (allowedRoutes envelope) <> []
      /\ forall r, In r (filterByAllowedRoutes routes (allowedRoutes envelope)) ->
                   withinFee B envelope r = false) ->
  exists result w' w1 routes w2 t1 t2 entry,
    compute B envelope ledgerState w = (Ok result, w')
    /\ getCandidateRoutes B envelope ledgerState w1 = (Ok routes, w2)
    /\ clock w1 = clock w /\ clock_reads w1 = 2 + clock_reads w
    /\ In (selectedRoute result)
          (filterByAllowedRoutes routes (allowedRoutes envelope))
    /\ withinFee B envelope (selectedRoute result) = false
    /\ console w'
       = (console w
          ++ [ Logged {| log_timestamp := t1; log_level := "info";
                         log_layer := "car"; log_message := "Computing route";
                         log_data :=
                           Some [("intentId", JStr (intentId envelope))] |};
               Logged {| log_timestamp := t2; log_level := "warn";
                         log_layer := "car";
                         log_message :=
                           "No routes within fee constraint, using lowest fee option";
                         log_data := None |};
               Audited entry ])%list
    /\ audit_action entry = "compute"
    /\ audit_outcome entry = "success"
    /\ map fst (audit_data entry)
       = ["computeId"; "intentId"; "selectedRouteType"; "routeCount";
          "computeTimeMs"].
Proof.
  intros H. unfold compute, logger. cbn. unfold Logging.log. step.
  match goal with
  | |- context [bind (getCandidateRoutes B ?e ?l) _ ?w0] =>
      destruct (getCandidateRoutes_types e l w0) as (routes & w2 & E & _);
      rewrite (bind_run _ _ _ _ _ E); destruct (H _ _ _ E) as [Hne Hfee];
      pose proof (getCandidateRoutes_console _ _ _ _ _ E) as Hk;
      destruct (selectOptimalRoute_fallback _ envelope w2 Hne Hfee)
        as (r & w3 & S & Hin & Hr & t & Hc);
      rewrite (bind_run _ _ _ _ _ S); unfold Logging.generateAuditId; step;
      eexists _, _, w0, routes, w2, _, t, _
  end.
  split; [reflexivity|]. split; [exact E|].
  split; [reflexivity|]. split; [reflexivity|].
  split; [exact Hin|]. split; [exact Hr|].
  split.
  { cbn [console]. rewrite Hc, Hk. cbn [console].
    rewrite <- !app_assoc. reflexivity. }
  repeat split.
Qed.

Lemma sameRoute_withinFee envelope r1 r2 :
  sameRoute r1 r2 -> withinFee B envelope r1 = withinFee B envelope r2.
Proof. intros (_ & _ & F & _). unfold withinFee. rewrite F. reflexivity. Qed.

(** The premise of the theorem above, decided on the candidates without
    their ids. *)
Lemma none_within_fee_by_shapes envelope ledgerState :
  (let allowed :=
     filterByAllowedRoutes (candidateShapes B envelope ledgerState)
       (allowedRoutes envelope) in
   forallb (fun r => negb (withinFee B envelope r)) allowed
   && (0 <? length allowed)%nat) = true ->
  forall w1 routes w2,
    getCandidateRoutes B envelope ledgerState w1 = (Ok routes, w2) ->
    filterByAllowedRoutes routes (allowedRoutes envelope) <> []
    /\ forall r, In r (filterByAllowedRoutes routes (allowedRoutes envelope)) ->
                 withinFee B envelope r = false.
Proof.
  cbv zeta. intros H w1 routes w2 E.
  apply andb_true_iff in H as [Hall Hlen].
  destruct (getCandidateRoutes_shape envelope ledgerState w1)
    as (routes' & w2' & E' & S).
  rewrite E in E'. symmetry in E'. simplify_eq.
  apply (filterByAllowedRoutes_related _ _ (allowedRoutes envelope)) in S.
  split.
  - intros Hnil. rewrite Hnil in S.
    destruct (filterByAllowedRoutes (candidateShapes B envelope ledgerState) _);
      [discriminate Hlen|inversion S].
  - intros r Hr. rewrite forallb_forall in Hall. clear Hlen.
    induction S as [|a1 a2 l1 l2 Ha Hl IH]; [contradiction|].
    destruct Hr as [<-|Hr].
    + rewrite (sameRoute_withinFee envelope a1 a2 Ha).
      apply negb_true_iff, Hall. left. reflexivity.
    + apply IH; [|exact Hr].
      intros x Hx. apply Hall. right. exact Hx.
Qed.

(** *** Determinism of the computation *)

Lemma selectOptimalRoute_related l1 l2 e1 e2 w1 w2 :
  Forall2 sameRoute l1 l2 ->
  maxFee (constraints e1) = maxFee (constraints e2) ->
  match fst (selectOptimalRoute B l1 e1 w1), fst (selectOptimalRoute B l2 e2 w2) with
  | Ok r1, Ok r2 => sameRoute r1 r2 /\ In r1 l1 /\ In r2 l2
  | Throw m1, Throw m2 => m1 = m2
  | _, _ => False
  end.
Proof.
  intros H Hfee. rewrite !selectOptimalRoute_result.
  destruct H as [|a1 a2 l1 l2 Ha Hl]; [reflexivity|].
  assert (Hs : Forall2 sameRoute (sort (compareRoutes B) (a1 :: l1))
                                 (sort (compareRoutes B) (a2 :: l2))).
  { apply (sort_related sameRoute); [apply compareRoutes_related|].
    constructor; assumption. }
  assert (Hf : Forall2 sameRoute
                 (List.filter (withinFee B e1) (sort (compareRoutes B) (a1 :: l1)))
                 (List.filter (withinFee B e2) (sort (compareRoutes B) (a2 :: l2)))).
  { apply (filter_related sameRoute); [|exact Hs].
    intros r1 r2 (_ & _ & F & _). unfold withinFee. rewrite F, Hfee. reflexivity. }
  destruct (List.filter (withinFee B e1) (sort (compareRoutes B) (a1 :: l1)))
    as [|b1 f1] eqn:F1;
    destruct (List.filter (withinFee B e2) (sort (compareRoutes B) (a2 :: l2)))
      as [|b2 f2] eqn:F2;
    try solve [inversion Hf].
  - split; [|split; apply hd_sort_In].
    pose proof (sort_length (compareRoutes B) (a1 :: l1)) as L1.
    destruct Hs; [discriminate L1|]. assumption.
  - inversion Hf as [|? ? ? ? Hb Hf']; subst. split; [exact Hb|].
    split.
    + apply (sort_In (compareRoutes B)).
      apply (proj1 (filter_In (withinFee B e1) b1 _)).
      rewrite F1. left. reflexivity.
    + apply (sort_In (compareRoutes B)).
      apply (proj1 (filter_In (withinFee B e2) b2 _)).
      rewrite F2. left. reflexivity.
Qed.

Lemma getCandidateRoutes_clock envelope ledgerState v1 v2 :
  (forall k, clock v1 (k + clock_reads v1) = clock v2 (k + clock_reads v2)) ->
  fst (getCandidateRoutes B envelope ledgerState v1)
  = fst (getCandidateRoutes B envelope ledgerState v2).
Proof.
  intros H. pose proof (H 0) as H0. pose proof (H 1) as H1. pose proof (H 2) as H2.
  cbn in H0, H1, H2. unfold getCandidateRoutes.
  destruct (String.eqb (currency (amount envelope)) "XRP");
    destruct (String.eqb (action envelope) "swap");
    step; cbn; rewrite ?H0, ?H1, ?H2; reflexivity.
Qed.

(** One run of [compute], cut at the selection. *)
Lemma compute_run envelope ledgerState w :
  exists w1 routes w2,
    getCandidateRoutes B envelope ledgerState w1 = (Ok routes, w2)
    /\ clock w1 = clock w /\ clock_reads w1 = 2 + clock_reads w
    /\ let allowed := filterByAllowedRoutes routes (allowedRoutes envelope) in
       match fst (selectOptimalRoute B allowed envelope w2) with
       | Ok selected =>
           exists result,
             fst (compute B envelope ledgerState w) = Ok result
             /\ selectedRoute result = selected
             /\ alternativeRoutes result =
                  List.filter
                    (fun r => negb (String.eqb (routeId r) (routeId selected)))
                    allowed
       | Throw msg => fst (compute B envelope ledgerState w) = Throw msg
       end.
Proof.
  unfold compute, logger. cbn. unfold Logging.log. step.
  match goal with
  | |- context [bind (getCandidateRoutes B ?e ?l) _ ?w0] =>
      destruct (getCandidateRoutes_types e l w0) as (routes & w2 & E & _);
      rewrite (bind_run _ _ _ _ _ E); exists w0, routes, w2
  end.
  split; [exact E|]. do 2 (split; [reflexivity|]). cbv zeta.
  destruct (selectOptimalRoute B (filterByAllowedRoutes routes (allowedRoutes envelope))
              envelope w2) as [[sel|m] w3] eqn:S; cbn [fst].
  - rewrite (bind_run _ _ _ _ _ S). unfold Logging.generateAuditId. step.
    eexists. repeat split.
  - rewrite (bind_throw _ _ _ _ _ S). reflexivity.
Qed.

Lemma alternatives_by_type routes allowed selected :
  (forall r s, In r routes -> In s routes ->
     String.eqb (routeId r) (routeId s) = String.eqb (type r) (type s)) ->
  In selected (filterByAllowedRoutes routes allowed) ->
  List.filter (fun r => negb (String.eqb (routeId r) (routeId selected)))
    (filterByAllowedRoutes routes allowed)
  = List.filter (fun r => negb (String.eqb (type r) (type selected)))
      (filterByAllowedRoutes routes allowed).
Proof.
  intros Hids Hsel. apply filter_ext_in. intros r Hr.
  rewrite Hids; eauto using filterByAllowedRoutes_In.
Qed.

(** C9, as the code has it. Two runs of [compute] on envelopes with the
    same action, currency, destination, allow-list and fee bound, and on
    ledger states with the same network fee, at any two moments: both
    fail with the same error, or both return, and then the selected
    routes agree in type, path, fee, time and confidence, and so do the
    alternatives, one by one in their order. Ids are made from the clock:
    on the same envelope and ledger state, when the readings of the two
    clocks agree from the start of the runs on, the selected routes and
    the alternatives are equal, ids included. *)
Theorem compute_deterministic e1 e2 l1 l2 w1 w2 :
  action e1 = action e2 ->
  currency (amount e1) = currency (amount e2) ->
  destination e1 = destination e2 ->
  allowedRoutes e1 = allowedRoutes e2 ->
  maxFee (constraints e1) = maxFee (constraints e2) ->
  networkFee l1 = networkFee l2 ->
  match fst (compute B e1 l1 w1), fst (compute B e2 l2 w2) with
  | Ok r1, Ok r2 =>
      sameRoute (selectedRoute r1) (selectedRoute r2)
      /\ Forall2 sameRoute (alternativeRoutes r1) (alternativeRoutes r2)
      /\ (e1 = e2 -> l1 = l2 ->
          (forall k, clock w1 (k + clock_reads w1) = clock w2 (k + clock_reads w2)) ->
          selectedRoute r1 = selectedRoute r2
          /\ alternativeRoutes r1 = alternativeRoutes r2)
  | Throw m1, Throw m2 => m1 = m2
  | _, _ => False
  end.
Proof.
  intros Hact Hcur Hdst Hall Hfee Hnet.
  destruct (compute_run e1 l1 w1) as (v1 & c1 & v1' & E1 & K1 & N1 & R1).
  destruct (compute_run e2 l2 w2) as (v2 & c2 & v2' & E2 & K2 & N2 & R2).
  cbv zeta in R1, R2.
  assert (Hc : Forall2 sameRoute c1 c2).
  { destruct (getCandidateRoutes_shape e1 l1 v1) as (c1' & ? & E1' & S1).
    destruct (getCandidateRoutes_shape e2 l2 v2) as (c2' & ? & E2' & S2).
    rewrite E1 in E1'. rewrite E2 in E2'. symmetry in E1', E2'. simplify_eq.
    eapply Forall2_sameRoute_trans; [exact S1|].
    apply Forall2_sameRoute_sym.
    replace (candidateShapes B e1 l1) with (candidateShapes B e2 l2); [exact S2|].
    unfold candidateShapes. rewrite Hact, Hcur, Hdst, Hnet. reflexivity. }
  apply (filterByAllowedRoutes_related _ _ (allowedRoutes e1)) in Hc.
  rewrite Hall in Hc at 2.
  pose proof (selectOptimalRoute_related _ _ e1 e2 v1' v2' Hc Hfee) as Hs.
  destruct (fst (selectOptimalRoute B _ e1 v1')) as [s1|m1] eqn:S1;
    destruct (fst (selectOptimalRoute B _ e2 v2')) as [s2|m2] eqn:S2;
    try contradiction.
  - destruct R1 as (r1 & -> & Hs1 & Ha1). destruct R2 as (r2 & -> & Hs2 & Ha2).
    destruct Hs as (Hsame & Hin1 & Hin2).
    rewrite Hs1, Hs2, Ha1, Ha2.
    rewrite (alternatives_by_type c1 _ s1 (getCandidateRoutes_ids _ _ _ _ _ E1) Hin1).
    rewrite (alternatives_by_type c2 _ s2 (getCandidateRoutes_ids _ _ _ _ _ E2) Hin2).
    split; [exact Hsame|]. split.
    + apply (filter_related sameRoute); [|exact Hc].
      intros a1 a2 (-> & _). destruct Hsame as (-> & _). reflexivity.
    + intros <- <- Hclk.
      assert (c1 = c2) as <-.
      { pose proof (getCandidateRoutes_clock e1 l1 v1 v2) as G.
        rewrite E1, E2, K1, K2, N1, N2 in G. cbn [fst] in G.
        assert (Ok c1 = Ok c2) as [= ->]; [|reflexivity].
        apply G. intros k. rewrite !Nat.add_assoc, (Nat.add_comm k 2).
        rewrite <- !Nat.add_assoc. apply (Hclk (2 + k)). }
      rewrite selectOptimalRoute_result in S1, S2. rewrite S1 in S2.
      injection S2 as <-. split; reflexivity.
  - rewrite R1, R2. exact Hs.
Qed.

End WithBuiltins.

(** With a network fee of 5 and a fee bound of 1 no candidate is within
    the bound, and [compute] returns the direct route, of fee 5, one of
    the candidates; the audit entry records a success. *)
Lemma compute_selects_fee_violating_route_witness :
  exists result w' w1 routes w2 t1 t2 entry,
    compute Engine.builtins Sample.envelope (Sample.ledger "5") Sample.world
    = (Ok result, w')
    /\ getCandidateRoutes Engine.builtins Sample.envelope (Sample.ledger "5") w1
       = (Ok routes, w2)
    /\ clock w1 = clock Sample.world
    /\ clock_reads w1 = 2 + clock_reads Sample.world
    /\ In (selectedRoute result)
          (filterByAllowedRoutes routes (allowedRoutes Sample.envelope))
    /\ withinFee Engine.builtins Sample.envelope (selectedRoute result) = false
    /\ console w'
       = (console Sample.world
          ++ [ Logged {| log_timestamp := t1; log_level := "info";
                         log_layer := "car"; log_message := "Computing route";
                         log_data :=
                           Some [("intentId", JStr (intentId Sample.envelope))] |};
               Logged {| log_timestamp := t2; log_level := "warn";
                         log_layer := "car";
                         log_message :=
                           "No routes within fee constraint, using lowest fee option";
                         log_data := None |};
               Audited entry ])%list
    /\ audit_action entry = "compute"
    /\ audit_outcome entry = "success"
    /\ map fst (audit_data entry)
       = ["computeId"; "intentId"; "selectedRouteType"; "routeCount";
          "computeTimeMs"].
Proof.
  apply (compute_selects_fee_violating_route Engine.builtins Sample.envelope
           (Sample.ledger "5") Sample.world).
  apply none_within_fee_by_shapes. vm_compute. reflexivity.
Defined.

(** C2 as stated fails: a route whose fee (5) exceeds the bound (1) is
    returned as the selected route of a successful computation, while no
    allowed candidate is within the bound. *)
Lemma fee_violating_route_returned :
  match fst (compute Engine.builtins Sample.envelope (Sample.ledger "5")
               Sample.world) with
  | Ok result =>
      type (selectedRoute result) = "direct"
      /\ estimatedFee (selectedRoute result) = "5"
      /\ maxFee (constraints Sample.envelope) = "1"
      /\ map estimatedFee (alternativeRoutes result) = ["15.000000"]
      /\ forallb (fun r => negb (withinFee Engine.builtins Sample.envelope r))
           (selectedRoute result :: alternativeRoutes result) = true
  | Throw _ => False
  end.
Proof. vm_compute. repeat split. Qed.

(** The same envelope computed at two moments a minute apart. *)
Lemma compute_deterministic_witness :
  match fst (compute Engine.builtins Sample.envelope (Sample.ledger "0.00001")
               Sample.world),
        fst (compute Engine.builtins Sample.envelope (Sample.ledger "0.00001")
               Sample.world_later) with
  | Ok r1, Ok r2 =>
      sameRoute (selectedRoute r1) (selectedRoute r2)
      /\ Forall2 sameRoute (alternativeRoutes r1) (alternativeRoutes r2)
      /\ routeId (selectedRoute r1) = "route-direct-1700000000002"
      /\ routeId (selectedRoute r2) = "route-direct-1700000060002"
  | _, _ => False
  end.
Proof.
  pose proof (compute_deterministic Engine.builtins Sample.envelope Sample.envelope
                (Sample.ledger "0.00001") (Sample.ledger "0.00001")
                Sample.world Sample.world_later
                eq_refl eq_refl eq_refl eq_refl eq_refl eq_refl) as H.
  destruct (fst (compute Engine.builtins Sample.envelope (Sample.ledger "0.00001")
                   Sample.world)) as [r1|m1] eqn:E1;
    destruct (fst (compute Engine.builtins Sample.envelope (Sample.ledger "0.00001")
                     Sample.world_later)) as [r2|m2] eqn:E2;
    try exact H; try (vm_compute in E1; discriminate E1);
    try (vm_compute in E2; discriminate E2).
  destruct H as (Hs & Ha & _). split; [exact Hs|]. split; [exact Ha|].
  vm_compute in E1. vm_compute in E2.
  injection E1 as <-. injection E2 as <-. split; reflexivity.
Defined.

(** C9 as stated fails: two envelopes with the same amount, destination
    and constraints, on the same ledger state and clock, get different
    selected routes and alternatives when their allow-lists differ. *)
Lemma same_amount_different_selection :
  let e1 := Sample.envelope in
  let e2 := Sample.with_allowedRoutes Sample.envelope ["ilp"] in
  amount e1 = amount e2 /\ destination e1 = destination e2
  /\ constraints e1 = constraints e2
  /\ match fst (compute Engine.builtins e1 (Sample.ledger "0.00001") Sample.world),
           fst (compute Engine.builtins e2 (Sample.ledger "0.00001") Sample.world) with
     | Ok r1, Ok r2 =>
         type (selectedRoute r1) = "direct"
         /\ type (selectedRoute r2) = "ilp"
         /\ map type (alternativeRoutes r1) = ["ilp"]
         /\ alternativeRoutes r2 = []
     | _, _ => False
     end.
Proof. vm_compute. repeat split. Qed.

(** An envelope that allows only multi-hop routes has no route. *)
Lemma no_route_only_by_allow_list_witness :
  fst (compute Engine.builtins (Sample.with_allowedRoutes Sample.envelope ["multi-hop"])
         (Sample.ledger "0.00001") Sample.world)
  = Throw "No valid routes available"
  /\ includes ["multi-hop"] "ilp" = false.
Proof.
  pose (e := Sample.with_allowedRoutes Sample.envelope ["multi-hop"]).
  pose (l := Sample.ledger "0.00001").
  destruct (no_route_only_by_allow_list Engine.builtins e l) as [Hilp Hthrow].
  destruct (Hilp Sample.world) as (routes & w' & E & _ & r & Hr & Hty).
  fold e l.
  destruct (compute Engine.builtins e l Sample.world) as [res w1] eqn:Ec.
  assert (Hres : res = Throw "No valid routes available").
  { pose proof (f_equal fst Ec) as F. cbn [fst] in F. rewrite <- F.
    vm_compute. reflexivity. }
  subst res. destruct (Hthrow _ _ _ Ec) as (_ & _ & _ & Hnone).
  split; [reflexivity|].
  rewrite <- Hty. exact (Hnone _ _ _ E r Hr).
Defined.

End ComputeFacts.

(** ** The rule validator *)

Module ValidateFacts.
Import Types Compute Validate.
Import ComputeFacts.

Section WithBuiltins.
Context (B : Builtins).
Context (computeResult : ComputeResult) (sourceBalance : string)
        (config : CARValidationConfig).

#[local] Abbreviation fails := (Validate.fails B computeResult sourceBalance config).
#[local] Abbreviation message := (Validate.message B computeResult sourceBalance config).

Lemma push_if_app c a x :
  push_if c a x = (a ++ (if c then [x] else []))%list.
Proof. destruct c; cbn; [reflexivity|]. now rewrite app_nil_r. Qed.

Lemma validate_run ledgerState w :
  exists result w',
    validate B computeResult ledgerState sourceBalance config w = (Ok result, w')
    /\ errors result =
         flat_map (fun r => if fails (nowAt w) r then [message (nowAt w) r] else [])
                  allRules
    /\ warnings result =
         ((if (0 <? length (requiredProofs (Compute.envelope computeResult)))%nat
           then [proofsWarning] else [])
          ++ (if num_lt (confidence (selectedRoute computeResult)) 0.8%float
              then [confidenceWarning B (confidence (selectedRoute computeResult))]
              else []))%list
    /\ isValid result = (length (errors result) =? 0)%nat.
Proof.
  unfold validate, Validate.logger.
  cbn [Logging.info Logging.audit Logging.warn Logging.createLogger].
  unfold Logging.log, Logging.generateAuditId. step. cbv zeta.
  match goal with
  | |- context [if negb ?b then _ else _] => destruct b eqn:V
  end; cbn [negb]; step; eexists _, _; (split; [reflexivity|]);
    cbn [errors warnings isValid]; (split; [|split; [|symmetry; exact V]]);
    clear V.
  all: rewrite ?push_if_app; unfold Validate.fails, Validate.message, nowAt,
    requiredOf, amountOf, feeOf, allRules; cbn [flat_map app]; rewrite <- ?app_assoc, ?app_nil_r;
    reflexivity.
Qed.


End WithBuiltins.

Example computed_by_compute :
  fst (compute Engine.builtins Sample.envelope (Sample.ledger "0.00001") Sample.world)
  = Ok Sample.computed.
Proof. vm_compute. reflexivity. Qed.


End ValidateFacts.

(** ** Expiry at the boundary *)

Module ExpiryFacts.
Import Types Compute Validate.

(** C7 at the boundary. The envelope expires at second 1700000000 and
    the clock reads 1700000000000 ms, then 1700000000001 ms. The
    validator of CAR, the pre-validation and the time utilities treat it
    as expired; [isExpired] of the PIE layer, which compares with [>],
    does not. *)
Lemma isExpired_misses_the_boundary :
  let e := Sample.with_expiry Sample.envelope 1700000000%float in
  clock Sample.world 0 = (expiry (constraints e) * 1000)%float
  /\ fst (PieSchema.isExpired e Sample.world) = Ok false
  /\ match fst (validate Engine.builtins Sample.computedExpiring
                  (Sample.ledger "0.00001") "1000" DEFAULT_CONFIG Sample.world) with
     | Ok r =>
         errors r = ["Envelope expired at 1700000000, current time 1700000000"]
         /\ isValid r = false
     | Throw _ => False
     end
  /\ fst (preValidate e (Sample.ledger "0.00001") Sample.world)
     = Ok (false, Some "Envelope already expired")
  /\ fst (Time.isExpiredSec 1700000000%float Sample.world) = Ok true
  /\ fst (Time.isExpiredMs 1700000000000%float Sample.world) = Ok true.
Proof. vm_compute. repeat split. Qed.

End ExpiryFacts.

(** ** Halting and routing *)

Module RouteFacts.
Import Types Attest Route.
Import ComputeFacts.

Example attested_by_attest :
  fst (attest Engine.builtins Sample.envelope Sample.computed Sample.validated
         "priv" "pub" Sample.world)
  = Ok (Some Sample.attested).
Proof. vm_compute. reflexivity. Qed.

(** C1 at the failing input. After [haltRouting "incident"] the flag is
    set, and [route] on a fresh attestation and the test backend still
    submits: it logs the submission and returns a successful result. *)
Lemma route_while_halted_submits :
  match (haltRouting Engine.builtins "incident";;
         halted ← isRoutingHalted;
         result ← route Engine.builtins Sample.attested Sample.testConfig;
         ret (halted, result)) Sample.world with
  | (Ok (halted, result), w') =>
      halted = (true, Some "incident")
      /\ success (submission result) = true
      /\ transactionHash (submission result) = Some "test-tx-1700000000006"
      /\ error (submission result) = None
      /\ routingHalted w' = true
      /\ existsb (fun l => match l with
                           | Logged e =>
                               String.eqb (log_message e)
                                 "Submitting to testnet (simulated)"
                           | Audited _ => false
                           end) (console w') = true
  | (Throw _, _) => False
  end.
Proof. vm_compute. repeat split. Qed.

Section WithBuiltins.
Context (B : Builtins).

(** [route] never reads the flag: its result is the same whatever the
    flag and the reason are. *)
Lemma route_ignores_halt attestResult config w halted reason :
  fst (route B attestResult config (with_halt w halted reason))
  = fst (route B attestResult config w).
Proof.
  unfold route, with_halt, set_halt, logger, isAttestationValid.
  cbn [Logging.info Logging.audit Logging.warn Logging.error Logging.createLogger].
  unfold Logging.log, Logging.generateAuditId. step.
  case_match.
  - step. reflexivity.
  - unfold submitToXRPL, submitToILP, submitToTestnet, logger.
    cbn [Logging.info Logging.audit Logging.warn Logging.error Logging.createLogger].
    unfold Logging.log.
    destruct (String.eqb (ledgerType config) "xrpl");
      [|destruct (String.eqb (ledgerType config) "ilp");
        [|destruct (String.eqb (ledgerType config) "test")]];
      step; reflexivity.
Qed.

End WithBuiltins.

End RouteFacts.

(** ** Hashing and the legacy attestation record *)

Module CryptoFacts.
Import Types Crypto.
Import ComputeFacts.

Section WithBuiltins.
Context (B : Builtins).

(** C3, as the code has it. [createAttestation] always returns, at any
    moment; the hash it stores is the hash of the envelope, so the hash
    [verifyAttestation] computes again is the same string and its first
    check passes; and [verifyAttestation] returns false all the same, for
    the fresh attestation as for any other, because [verifySignature] is
    a placeholder that returns false. *)
Theorem fresh_attestation_hash_matches_but_never_verifies
    envelope privateKey publicKey w :
  exists attestation w',
    createAttestation B envelope privateKey publicKey w = (Ok attestation, w')
    /\ validationHash attestation = hashEnvelope B (envelope_json envelope)
    /\ String.eqb (hashEnvelope B (envelope_json envelope))
                  (validationHash attestation) = true
    /\ verifyAttestation B envelope attestation = false
    /\ forall other, verifyAttestation B envelope other = false.
Proof.
  unfold createAttestation, signAttestation. step.
  eexists _, _. split; [reflexivity|]. cbn [validationHash].
  split; [reflexivity|]. split; [apply String.eqb_refl|].
  assert (H : forall other, verifyAttestation B envelope other = false).
  { intros other. unfold verifyAttestation, verifySignature.
    case_match; reflexivity. }
  split; [apply H | exact H].
Qed.

End WithBuiltins.

(** C3 as stated fails: the attestation just made for the sample
    envelope carries the envelope's hash, and is not verified. *)
Lemma fresh_attestation_not_verified :
  match fst (createAttestation Engine.builtins Sample.envelope "priv" "pub"
               Sample.world) with
  | Ok attestation =>
      validationHash attestation = "hash-7ed582c9"
      /\ hashEnvelope Engine.builtins (envelope_json Sample.envelope)
         = "hash-7ed582c9"
      /\ verifyAttestation Engine.builtins Sample.envelope attestation = false
  | Throw _ => False
  end.
Proof. vm_compute. repeat split. Qed.

End CryptoFacts.

(** ** Suite selection and hybrid attestations *)

Module AttestorFacts.
Import Types Pqc Attestor.
Import ComputeFacts.

Section WithBuiltins.
Context (B : Builtins).

(** C4, as the code has it. [createAttestor] returns a suite exactly for
    the two hybrid policies, which are the supported ones, and the suite
    supports the policy asked for. For CLASSICAL_ONLY and
    PQC_ONLY_DILITHIUM it throws that the attestor is not yet
    implemented; for every other policy id it throws that the policy is
    unsupported. *)
Theorem createAttestor_cases cryptoPolicy :
  match createAttestor B cryptoPolicy with
  | Ok attestor =>
      isPolicySupported cryptoPolicy = true
      /\ includes (supports attestor) cryptoPolicy = true
      /\ (cryptoPolicy = "HYBRID_ED25519_PLUS_DILITHIUM"
          /\ attestor = hybridEd25519DilithiumSuite B
          \/ cryptoPolicy = "HYBRID_ECDSA_SECP256K1_PLUS_DILITHIUM"
             /\ attestor = hybridEcdsaDilithiumSuite B)
  | Throw msg =>
      isPolicySupported cryptoPolicy = false
      /\ (cryptoPolicy = "CLASSICAL_ONLY"
          /\ msg = "CLASSICAL_ONLY attestor not yet implemented"
          \/ cryptoPolicy = "PQC_ONLY_DILITHIUM"
             /\ msg = "PQC_ONLY_DILITHIUM attestor not yet implemented"
          \/ ~ In cryptoPolicy
                 [ "CLASSICAL_ONLY"; "HYBRID_ECDSA_SECP256K1_PLUS_DILITHIUM";
                   "HYBRID_ED25519_PLUS_DILITHIUM"; "PQC_ONLY_DILITHIUM" ]
             /\ msg = "Unsupported cryptoPolicy for CAR attestation: "
                      ++ cryptoPolicy)
  end.
Proof.
  unfold createAttestor, isPolicySupported, getSupportedPolicies, includes.
  cbn [existsb].
  destruct (String.eqb_spec cryptoPolicy "HYBRID_ED25519_PLUS_DILITHIUM") as [->|N1].
  { cbn. auto. }
  destruct (String.eqb_spec cryptoPolicy "HYBRID_ECDSA_SECP256K1_PLUS_DILITHIUM")
    as [->|N2].
  { cbn. auto. }
  destruct (String.eqb_spec cryptoPolicy "CLASSICAL_ONLY") as [->|N3].
  { cbn. auto. }
  destruct (String.eqb_spec cryptoPolicy "PQC_ONLY_DILITHIUM") as [->|N4].
  { cbn. auto. }
  cbn. split; [reflexivity|]. right. right. split; [|reflexivity].
  intros [H|[H|[H|[H|[]]]]]; congruence.
Qed.

(** C5. Structural verification rejects every attestation under a
    hybrid policy that lacks the classical or the post-quantum
    signature; and [attest] of either hybrid suite always returns an
    attestation under the suite's policy with both signatures present,
    the classical one of the algorithm the policy requires and the
    post-quantum one of a required algorithm with a signature text. *)
Theorem hybrid_attestations_carry_both_signatures :
  (forall attestation,
      cryptoPolicy attestation = "HYBRID_ED25519_PLUS_DILITHIUM"
      \/ cryptoPolicy attestation = "HYBRID_ECDSA_SECP256K1_PLUS_DILITHIUM" ->
      classicalSig attestation = None \/ pqcSig attestation = None ->
      isValidAttestationStructure attestation = false)
  /\ (forall attestor input w,
        attestor = hybridEd25519DilithiumSuite B
        \/ attestor = hybridEcdsaDilithiumSuite B ->
        exists output w' classical pqc,
          attest attestor input w = (Ok output, w')
          /\ supports attestor = [cryptoPolicy (attestation output)]
          /\ classicalSig (attestation output) = Some classical
          /\ pqcSig (attestation output) = Some pqc
          /\ fst (getRequiredAlgorithms (cryptoPolicy (attestation output)))
             = [alg classical]
          /\ truthy (signatureHex classical) = true
          /\ includes (snd (getRequiredAlgorithms (cryptoPolicy (attestation output))))
               (alg pqc) = true
          /\ truthy (signatureHex pqc) = true).
Proof.
  split.
  - intros attestation Hpolicy Hmissing. unfold isValidAttestationStructure.
    assert (Hh : str_includes (cryptoPolicy attestation) "HYBRID" = true)
      by (destruct Hpolicy as [-> | ->]; reflexivity).
    assert (Ha : absent (classicalSig attestation) || absent (pqcSig attestation) = true)
      by (destruct Hmissing as [-> | ->]; cbn; auto using orb_true_r).
    rewrite Hh, Ha. cbn [andb]. repeat case_match; reflexivity.
  - intros attestor input w [-> | ->]; cbn [attest hybridEd25519DilithiumSuite
      hybridEcdsaDilithiumSuite]; step; eexists _, _, _, _;
      (split; [reflexivity|]); cbn; repeat split.
Qed.

End WithBuiltins.

(** C4 as stated fails: for CLASSICAL_ONLY, a policy of the enumeration,
    no attestor is returned. *)
Lemma classical_only_has_no_attestor :
  createAttestor Engine.builtins "CLASSICAL_ONLY"
  = Throw "CLASSICAL_ONLY attestor not yet implemented"
  /\ createAttestor Engine.builtins "PQC_ONLY_DILITHIUM"
     = Throw "PQC_ONLY_DILITHIUM attestor not yet implemented".
Proof. split; reflexivity. Qed.

(** An ed25519 hybrid attestation stripped of its post-quantum
    signature is rejected. *)
Lemma hybrid_attestations_carry_both_signatures_witness :
  isValidAttestationStructure
    {| attestationId := "123e4567-e89b-42d3-a456-426614174000";
       suite := "CAR_ATTEST_V1_HYBRID";
       cryptoPolicy := "HYBRID_ED25519_PLUS_DILITHIUM";
       keyEpoch := 1%float;
       createdAt := 1700000000000%float;
       envelopeHashHex := "00";
       classicalSig := Some {| alg := "ed25519";
                               publicKeyHex := "ED25519_PUBLIC_KEY_HEX_PLACEHOLDER";
                               signatureHex := "ED25519_SIGNATURE_HEX_PLACEHOLDER" |};
       pqcSig := None;
       meta := None |} = false
  /\ exists output w' classical pqc,
       attest (hybridEd25519DilithiumSuite Engine.builtins)
         {| envelope := Sample.envelope; envelopeCanonicalBytes := [];
            input_keyEpoch := 1%float |} Sample.world = (Ok output, w')
       /\ supports (hybridEd25519DilithiumSuite Engine.builtins)
          = [cryptoPolicy (attestation output)]
       /\ classicalSig (attestation output) = Some classical
       /\ pqcSig (attestation output) = Some pqc
       /\ fst (getRequiredAlgorithms (cryptoPolicy (attestation output)))
          = [alg classical]
       /\ truthy (signatureHex classical) = true
       /\ includes (snd (getRequiredAlgorithms (cryptoPolicy (attestation output))))
            (alg pqc) = true
       /\ truthy (signatureHex pqc) = true.
Proof.
  destruct (hybrid_attestations_carry_both_signatures Engine.builtins)
    as [Hreject Hattest].
  split.
  - apply Hreject; [left | right]; reflexivity.
  - apply Hattest. left. reflexivity.
Defined.

End AttestorFacts.

(** ** The dependency graph of the rotation planner *)

Module RotationFacts.
Import Rotation.
Import ComputeFacts.

Section Graph.
Context (nodeMap : gmap string RotationNode).

#[local] Abbreviation edge := (Rotation.edge nodeMap).
#[local] Abbreviation finished := Rotation.finished.
#[local] Abbreviation Inv := (Rotation.Inv nodeMap).
#[local] Abbreviation answers_false := (Rotation.answers_false nodeMap).

Lemma finished_reach m u v :
  Inv m -> finished m u -> rtc edge u v -> finished m v.
Proof.
  intros HI Hu Hr. induction Hr as [|x y z Hxy _ IH]; [exact Hu|].
  apply IH. exact (inv_closed nodeMap m HI x y Hu Hxy).
Qed.

Lemma tc_first u w : tc edge u w -> exists v, edge u v /\ rtc edge v w.
Proof.
  intros H. destruct H as [x y Hxy | x y z Hxy Hyz].
  - exists y. split; [exact Hxy | apply rtc_refl].
  - exists y. split; [exact Hxy | apply tc_rtc, Hyz].
Qed.

Lemma eachDependency_false f :
  answers_false f ->
  forall deps m m',
    Inv m -> eachDependency f deps m = Some (false, m') ->
    Inv m' /\ visited m ⊆ visited m' /\ inStack m' = inStack m
    /\ forall d, In d deps -> finished m' d.
Proof.
  intros Hf. induction deps as [|d rest IH]; intros m m' HI H; cbn in H.
  - simplify_eq. split; [exact HI|]. split; [done|]. split; [done|].
    intros d [].
  - destruct (f d m) as [[[|] m1]|] eqn:E; try discriminate.
    destruct (Hf d m m1 HI E) as (HI1 & HV1 & HS1 & Hd).
    destruct (IH m1 m' HI1 H) as (HI' & HV' & HS' & Hrest).
    split; [exact HI'|]. split; [etrans; eassumption|]. split; [congruence|].
    intros x [<-|Hx]; [|auto].
    destruct Hd as [Hdv Hds]. split; [apply HV', Hdv|]. rewrite HS'. exact Hds.
Qed.

Lemma hasCycle_false fuel : answers_false (hasCycle fuel nodeMap).
Proof.
  induction fuel as [|fuel IH]; intros nodeId m m' HI H; [discriminate|].
  cbn [hasCycle] in H.
  case_bool_decide as Hstack; [discriminate|].
  case_bool_decide as Hvis.
  { simplify_eq. split; [exact HI|]. split; [done|]. split; [done|].
    split; assumption. }
  set (m1 := {| visited := {[nodeId]} ∪ visited m;
                inStack := {[nodeId]} ∪ inStack m |}) in H.
  assert (HI1 : Inv m1).
  { destruct HI as [Hs Hc Ha]. split.
    - cbn [visited inStack]. set_solver.
    - intros u v [Hu1 Hu2] Huv. cbn [visited inStack] in Hu1, Hu2.
      assert (Hu : finished m u) by (split; set_solver).
      destruct (Hc u v Hu Huv) as [Hv1 Hv2]. split; cbn [visited inStack]; [set_solver|].
      intros Hin. apply elem_of_union in Hin as [Hin|Hin]; [|done].
      apply elem_of_singleton in Hin. subst v. done.
    - intros u [Hu1 Hu2]. cbn [visited inStack] in Hu1, Hu2. apply Ha. split; set_solver. }
  destruct (eachDependency (hasCycle fuel nodeMap) (dependenciesOf nodeMap nodeId) m1)
    as [[[|] m2]|] eqn:E; try discriminate.
  simplify_eq.
  destruct (eachDependency_false _ IH _ _ _ HI1 E) as (HI2 & HV2 & HS2 & Hdeps).
  cbn [visited inStack] in HV2, HS2.
  assert (Hback : inStack m2 ∖ {[nodeId]} = inStack m).
  { rewrite HS2. apply set_eq. intros x. set_solver. }
  assert (Hin : nodeId ∈ visited m2) by set_solver.
  destruct HI as [Hs Hc Ha]. destruct HI2 as [Hs2 Hc2 Ha2].
  assert (Hold : forall u, u <> nodeId -> u ∈ visited m2 -> u ∉ inStack m ->
                           finished m2 u).
  { intros u Hne Hu1 Hu2. split; [exact Hu1|]. rewrite HS2. set_solver. }
  assert (Hweak : forall u, finished m2 u -> u ∈ visited m2 /\ u ∉ inStack m).
  { intros u [Hu1 Hu2]. split; [exact Hu1|]. rewrite HS2 in Hu2. set_solver. }
  split; [|split; [|split]].
  - split; cbn [visited inStack]; rewrite ?Hback.
    + set_solver.
    + intros u v [Hu1 Hu2] Huv. cbn [visited inStack] in Hu1, Hu2.
      unfold finished. cbn [visited inStack]. apply Hweak.
      destruct (decide (u = nodeId)) as [->|Hne].
      * apply Hdeps. exact Huv.
      * apply (Hc2 u v); [apply Hold; assumption | exact Huv].
    + intros u [Hu1 Hu2] Hcycle. cbn [visited inStack] in Hu1, Hu2.
      destruct (decide (u = nodeId)) as [->|Hne].
      * apply tc_first in Hcycle as (v & Hv & Hreach).
        assert (Hfin : finished m2 nodeId).
        { apply (finished_reach m2 v nodeId); [split; assumption | | exact Hreach].
          apply Hdeps. exact Hv. }
        destruct Hfin as [_ Hfin]. apply Hfin. rewrite HS2. set_solver.
      * apply (Ha2 u); [apply Hold; assumption | exact Hcycle].
  - cbn [visited]. set_solver.
  - cbn [inStack]. exact Hback.
  - split; cbn [visited inStack]; [exact Hin | rewrite Hback; exact Hstack].
Qed.

(** *** The bound on the depth suffices *)

Section Fuel.
Context (U : gset string).
Hypothesis U_closed : forall u v, edge u v -> v ∈ U.

#[local] Abbreviation answers := (Rotation.answers U).

Lemma size_unvisited_mono (V V' : gset string) :
  V ⊆ V' -> size (U ∖ V') <= size (U ∖ V).
Proof. intros H. apply subseteq_size. set_solver. Qed.

Lemma eachDependency_answers fuel f :
  answers fuel f ->
  forall deps m,
    (forall d, In d deps -> d ∈ U) -> size (U ∖ visited m) < fuel ->
    exists b m', eachDependency f deps m = Some (b, m') /\ visited m ⊆ visited m'.
Proof.
  intros Hf. induction deps as [|d rest IH]; intros m Hd Hsize; cbn.
  - eexists _, _. split; [reflexivity|done].
  - destruct (Hf d m) as (b & m1 & E & HV); [apply Hd; left; reflexivity | exact Hsize|].
    rewrite E. destruct b.
    + eexists _, _. split; [reflexivity|exact HV].
    + destruct (IH m1) as (b' & m' & E' & HV').
      * intros x Hx. apply Hd. right. exact Hx.
      * pose proof (size_unvisited_mono _ _ HV). lia.
      * exists b', m'. split; [exact E'|set_solver].
Qed.

Lemma hasCycle_answers fuel : answers fuel (hasCycle fuel nodeMap).
Proof.
  induction fuel as [|fuel IH]; intros nodeId m HU Hsize; [lia|].
  cbn [hasCycle].
  case_bool_decide as Hstack; [eexists _, _; split; [reflexivity|done]|].
  case_bool_decide as Hvis; [eexists _, _; split; [reflexivity|done]|].
  set (m1 := {| visited := {[nodeId]} ∪ visited m;
                inStack := {[nodeId]} ∪ inStack m |}).
  assert (Hless : size (U ∖ visited m1) < fuel).
  { assert (size (U ∖ visited m1) < size (U ∖ visited m)); [|lia].
    apply subset_size. cbn [visited]. set_solver. }
  destruct (eachDependency_answers fuel _ IH (dependenciesOf nodeMap nodeId) m1)
    as (b & m2 & E & HV); [intros d Hd; exact (U_closed nodeId d Hd) | exact Hless|].
  rewrite E. cbn [visited] in HV.
  destruct b; eexists _, _; (split; [reflexivity|]); cbn [visited]; set_solver.
Qed.

(** The loop over the nodes: it ends with the cycle error of one of
    them, or with every one of them finished. *)
Lemma checkNodes_spec fuel :
  size U < fuel ->
  forall nodes m,
    Inv m -> inStack m = ∅ -> (forall n, In n nodes -> id n ∈ U) ->
    match checkNodes fuel nodeMap nodes m with
    | Ok _ =>
        exists m', Inv m' /\ inStack m' = ∅ /\ visited m ⊆ visited m'
                   /\ forall n, In n nodes -> id n ∈ visited m'
    | Throw msg =>
        exists n, In n nodes
                  /\ msg = "Dependency cycle detected involving node: " ++ id n
    end.
Proof.
  intros Hfuel. induction nodes as [|node rest IH]; intros m HI HS HU; cbn.
  - exists m. split; [exact HI|]. split; [exact HS|]. split; [done|].
    intros n [].
  - destruct (hasCycle_answers fuel (id node) m) as (b & m1 & E & HV).
    { apply HU. left. reflexivity. }
    { pose proof (subseteq_size (U ∖ visited m) U). 
      assert (size (U ∖ visited m) <= size U) by (apply subseteq_size; set_solver).
      lia. }
    rewrite E. destruct b.
    + exists node. split; [left|]; reflexivity.
    + destruct (hasCycle_false fuel (id node) m m1 HI E) as (HI1 & _ & HS1 & Hfin).
      specialize (IH m1 HI1).
      destruct (checkNodes fuel nodeMap rest m1) as [[]|msg].
      * destruct IH as (m' & HI' & HS' & HV' & Hall).
        { congruence. } { intros n Hn. apply HU. right. exact Hn. }
        exists m'. split; [exact HI'|]. split; [exact HS'|].
        split; [set_solver|].
        intros n [<-|Hn]; [|auto]. destruct Hfin as [Hfin _]. set_solver.
      * destruct IH as (n & Hn & ->).
        { congruence. } { intros n Hn. apply HU. right. exact Hn. }
        exists n. split; [right; exact Hn | reflexivity].
Qed.

End Fuel.

End Graph.

Lemma makeNodeMap_lookup nodes k n :
  makeNodeMap nodes !! k = Some n -> In n nodes /\ id n = k.
Proof.
  unfold makeNodeMap.
  assert (G : forall acc : gmap string RotationNode,
             fold_left (fun m n => <[id n := n]> m) nodes acc !! k = Some n ->
             (In n nodes /\ id n = k) \/ acc !! k = Some n).
  { induction nodes as [|a rest IH]; intros acc H; cbn in H; [right; exact H|].
    destruct (IH _ H) as [[Hin Hid]|Hacc].
    - left. split; [right; exact Hin | exact Hid].
    - destruct (decide (id a = k)) as [<-|Hne].
      + rewrite lookup_insert_eq in Hacc. simplify_eq.
        left. split; [left|]; reflexivity.
      + rewrite lookup_insert_ne in Hacc by exact Hne. right. exact Hacc. }
  intros H. destruct (G ∅ H) as [?|Hempty]; [assumption|].
  rewrite lookup_empty in Hempty. discriminate.
Qed.

Lemma size_list_to_set_le (l : list string) :
  size (list_to_set l : gset string) <= length l.
Proof.
  induction l as [|a l IH]; cbn [list_to_set length].
  - rewrite size_empty. lia.
  - rewrite size_union_alt, size_singleton.
    assert (size (list_to_set l ∖ {[a]} : gset string) <= size (list_to_set l : gset string))
      by (apply subseteq_size; set_solver).
    lia.
Qed.

Lemma mentioned_id nodes n : In n nodes -> In (id n) (mentioned nodes).
Proof.
  intros H. unfold mentioned. apply in_flat_map. exists n.
  split; [exact H | left; reflexivity].
Qed.

Lemma mentioned_dependency nodes n d :
  In n nodes -> In d (dependencies n) -> In d (mentioned nodes).
Proof.
  intros H Hd. unfold mentioned. apply in_flat_map. exists n.
  split; [exact H | right; exact Hd].
Qed.

Lemma edge_source nodes u v :
  edge (makeNodeMap nodes) u v ->
  exists n, In n nodes /\ id n = u /\ In v (dependencies n).
Proof.
  unfold edge, dependenciesOf. intros H.
  destruct (makeNodeMap nodes !! u) as [n|] eqn:E; [|contradiction].
  apply makeNodeMap_lookup in E as [Hin Hid]. eauto.
Qed.

(** The traversal always ends within its bound: [validateNoCycles]
    returns, or throws the cycle error of one of the nodes. *)
Lemma validateNoCycles_ends nodes :
  validateNoCycles nodes = Ok tt
  \/ exists n, In n nodes
               /\ validateNoCycles nodes
                  = Throw ("Dependency cycle detected involving node: " ++ id n).
Proof.
  unfold validateNoCycles.
  set (nodeMap := makeNodeMap nodes).
  set (U := list_to_set (mentioned nodes) : gset string).
  set (m0 := {| visited := ∅; inStack := ∅ |}).
  assert (HU : forall u v, Rotation.edge nodeMap u v -> v ∈ U).
  { intros u v Huv. apply edge_source in Huv as (n & Hn & _ & Hv).
    apply elem_of_list_to_set, list_elem_of_In.
    exact (mentioned_dependency nodes n v Hn Hv). }
  assert (Hfuel : size U < S (length (mentioned nodes))).
  { pose proof (size_list_to_set_le (mentioned nodes)) as H. fold U in H. lia. }
  assert (HI0 : Rotation.Inv nodeMap m0).
  { split.
    - done.
    - intros u v [Hu _]. cbn [visited m0] in Hu. set_solver.
    - intros u [Hu _]. cbn [visited m0] in Hu. set_solver. }
  pose proof (checkNodes_spec nodeMap U HU _ Hfuel nodes m0 HI0 eq_refl) as H.
  destruct (checkNodes _ nodeMap nodes m0) as [[]|msg].
  - left. reflexivity.
  - right. destruct H as (n & Hn & ->).
    { intros n Hn. apply elem_of_list_to_set, list_elem_of_In, mentioned_id, Hn. }
    exists n. split; [exact Hn | reflexivity].
Qed.

(** A dependency cycle among the nodes is always found. *)
Lemma validateNoCycles_detects nodes :
  (exists c, tc (edge (makeNodeMap nodes)) c c) ->
  exists n, In n nodes
            /\ validateNoCycles nodes
               = Throw ("Dependency cycle detected involving node: " ++ id n).
Proof.
  intros (c & Hcycle). unfold validateNoCycles.
  set (nodeMap := makeNodeMap nodes) in *.
  set (U := list_to_set (mentioned nodes) : gset string).
  set (m0 := {| visited := ∅; inStack := ∅ |}).
  assert (HU : forall u v, edge nodeMap u v -> v ∈ U).
  { intros u v Huv. apply edge_source in Huv as (n & Hn & _ & Hv).
    apply elem_of_list_to_set, list_elem_of_In.
    exact (mentioned_dependency nodes n v Hn Hv). }
  assert (Hfuel : size U < S (length (mentioned nodes))).
  { pose proof (size_list_to_set_le (mentioned nodes)). fold U in H. lia. }
  assert (HI0 : Inv nodeMap m0).
  { split.
    - done.
    - intros u v [Hu _]. cbn [visited m0] in Hu. set_solver.
    - intros u [Hu _]. cbn [visited m0] in Hu. set_solver. }
  pose proof (checkNodes_spec nodeMap U HU _ Hfuel nodes m0 HI0 eq_refl) as H.
  destruct (checkNodes _ nodeMap nodes m0) as [[]|msg].
  - exfalso. destruct H as (m' & HI' & HS' & _ & Hall).
    { intros n Hn. apply elem_of_list_to_set, list_elem_of_In, mentioned_id, Hn. }
    destruct (tc_first nodeMap c c Hcycle) as (v & Hcv & _).
    apply edge_source in Hcv as (n & Hn & <- & _).
    apply (inv_acyclic nodeMap m' HI' (id n)); [|exact Hcycle].
    split; [apply Hall, Hn | rewrite HS'; set_solver].
  - destruct H as (n & Hn & ->).
    { intros n Hn. apply elem_of_list_to_set, list_elem_of_In, mentioned_id, Hn. }
    exists n. split; [exact Hn | reflexivity].
Qed.

Section WithBuiltins.
Context (B : Builtins).



End WithBuiltins.



Example cyclicNodes_error :
  fst (buildPlan Engine.builtins (defaultRotationOptimizer Engine.builtins)
         Sample.cyclicNodes (Sample.someConstraints 5%float) Sample.world)
  = Throw "Dependency cycle detected involving node: A".
Proof. vm_compute. reflexivity. Qed.


(** The graph is that of the map, not of the list: of two nodes of the
    same id the map holds the second, so a self-dependency of the first
    is no cycle, and both get an item of the plan. *)
Example replaced_node_is_no_cycle :
  dependenciesOf (makeNodeMap Cases.replacedNode) "A" = []
  /\ exists plan,
       fst (buildPlan Engine.builtins (defaultRotationOptimizer Engine.builtins)
              Cases.replacedNode (Sample.someConstraints 5%float) Sample.world)
       = Ok plan
       /\ map item_id (items plan) = ["A"; "A"].
Proof. split; [vm_compute; reflexivity|]. vm_compute. eexists. split; reflexivity. Qed.

End RotationFacts.

(** ** Outcomes of routing and attesting *)

Module GateFacts.
Import Types Attest Route Gate.
Import ComputeFacts.

(** Unfolds the calls of a logger down to the clock and the console. *)
Ltac open_logger :=
  cbn [Logging.debug Logging.info Logging.warn Logging.error Logging.critical
       Logging.audit Logging.createLogger];
  unfold Logging.log, Logging.generateAuditId.

(** *** Computations that leave the halt flag alone *)

Lemma keeps_halt_ret {A} (a : A) : keeps_halt (ret a).
Proof. intros w. split; reflexivity. Qed.

Lemma keeps_halt_throw {A} msg : keeps_halt (@throw A msg).
Proof. intros w. split; reflexivity. Qed.

Lemma keeps_halt_lift {A} (r : Result A) : keeps_halt (lift r).
Proof. intros w. split; reflexivity. Qed.

Lemma keeps_halt_bind {A C} (m : M A) (k : A -> M C) :
  keeps_halt m -> (forall a, keeps_halt (k a)) -> keeps_halt (bind m k).
Proof.
  intros Hm Hk w. unfold bind. specialize (Hm w).
  destruct (m w) as [[a|e] w1]; cbn [snd] in *.
  - destruct (Hk a w1) as [H1 H2]. destruct Hm as [H3 H4]. split; congruence.
  - exact Hm.
Qed.

Lemma keeps_halt_try_catch {A} (m : M A) (h : string -> M A) :
  keeps_halt m -> (forall e, keeps_halt (h e)) -> keeps_halt (try_catch m h).
Proof.
  intros Hm Hh w. unfold try_catch. specialize (Hm w).
  destruct (m w) as [[a|e] w1]; cbn [snd] in *.
  - exact Hm.
  - destruct (Hh e w1) as [H1 H2]. destruct Hm as [H3 H4]. split; congruence.
Qed.

Lemma keeps_halt_Date_now : keeps_halt Date_now.
Proof. intros w. split; reflexivity. Qed.

Lemma keeps_halt_Math_random : keeps_halt Math_random.
Proof. intros w. split; reflexivity. Qed.

Lemma keeps_halt_randomUUID : keeps_halt randomUUID.
Proof. intros w. split; reflexivity. Qed.

Lemma keeps_halt_console_log l : keeps_halt (console_log l).
Proof. intros w. split; reflexivity. Qed.

Ltac keeps_halt_step :=
  lazymatch goal with
  | |- keeps_halt (ret _) => apply keeps_halt_ret
  | |- keeps_halt (throw _) => apply keeps_halt_throw
  | |- keeps_halt (lift _) => apply keeps_halt_lift
  | |- keeps_halt Date_now => apply keeps_halt_Date_now
  | |- keeps_halt Math_random => apply keeps_halt_Math_random
  | |- keeps_halt randomUUID => apply keeps_halt_randomUUID
  | |- keeps_halt (console_log _) => apply keeps_halt_console_log
  | |- keeps_halt (bind _ _) => apply keeps_halt_bind; [|intros ?]
  | |- keeps_halt (try_catch _ _) => apply keeps_halt_try_catch; [|intros ?]
  | |- keeps_halt (if ?c then _ else _) => destruct c
  | |- keeps_halt (match ?x with _ => _ end) => destruct x
  | |- keeps_halt (let _ := _ in _) => cbv zeta
  end.

Ltac keeps_halt_auto :=
  unfold Compute.logger, Validate.logger, Attest.logger, Route.logger;
  open_logger; repeat keeps_halt_step.

Section WithBuiltins.
Context (B : Builtins).

(** One run of [route]. *)
Lemma route_run attestResult config w :
  exists result w',
    route B attestResult config w = (Ok result, w')
    /\ Route.attestResult result = attestResult
    /\ submission result
       = if freshAt w (attestation attestResult) then
           if String.eqb (ledgerType config) "xrpl" then
             {| success := false; transactionHash := None; ledgerIndex := None;
                error := Some "XRPL submission not yet implemented" |}
           else if String.eqb (ledgerType config) "ilp" then
             {| success := false; transactionHash := None; ledgerIndex := None;
                error := Some "ILP submission not yet implemented" |}
           else if String.eqb (ledgerType config) "test" then
             {| success := true;
                transactionHash :=
                  Some ("test-tx-"
                        ++ Number_toString B (clock w (3 + clock_reads w)));
                ledgerIndex :=
                  Some (Math_floor (entropy w (entropy_reads w) * 1000000)%float);
                error := None |}
           else
             {| success := false; transactionHash := None; ledgerIndex := None;
                error := Some ("Error: Unknown ledger type: " ++ ledgerType config) |}
         else
           {| success := false; transactionHash := None; ledgerIndex := None;
              error := Some "Attestation expired" |}.
Proof.
  unfold route, freshAt, isAttestationValid, Route.logger.
  open_logger. step.
  match goal with |- context [negb ?b] => destruct b eqn:F end; cbn [negb].
  - unfold submitToXRPL, submitToILP, submitToTestnet, Route.logger. open_logger.
    destruct (String.eqb (ledgerType config) "xrpl");
      [|destruct (String.eqb (ledgerType config) "ilp");
        [|destruct (String.eqb (ledgerType config) "test")]];
      step; eexists _, _; (split; [reflexivity|]); split; reflexivity.
  - step. eexists _, _. split; [reflexivity|]. split; reflexivity.
Qed.

(** X1. [route] never throws: every failure is returned as a
    submission without success. The submission succeeds exactly when the
    attestation is younger than five minutes at the reading of the clock
    and the ledger type is the test one, and then it carries a
    transaction hash; a stale attestation, the two ledgers without an
    implementation and an unknown ledger type each have their own error
    text. *)
Theorem route_outcome attestResult config w :
  exists result w',
    route B attestResult config w = (Ok result, w')
    /\ Route.attestResult result = attestResult
    /\ success (submission result)
       = freshAt w (attestation attestResult)
         && String.eqb (ledgerType config) "test"
    /\ error (submission result)
       = (if freshAt w (attestation attestResult)
          then ledgerError (ledgerType config)
          else Some "Attestation expired")
    /\ (success (submission result) = true
        <-> is_Some (transactionHash (submission result))).
Proof.
  destruct (route_run attestResult config w) as (result & w' & E & Ha & Hs).
  exists result, w'. split; [exact E|]. split; [exact Ha|].
  rewrite Hs. unfold ledgerError.
  destruct (freshAt w (attestation attestResult)); cbn [andb].
  - destruct (String.eqb (ledgerType config) "xrpl") eqn:E1.
    { apply String.eqb_eq in E1. rewrite E1. cbn.
      repeat split; try discriminate. intros [x Hx]. discriminate Hx. }
    destruct (String.eqb (ledgerType config) "ilp") eqn:E2.
    { apply String.eqb_eq in E2. rewrite E2. cbn.
      repeat split; try discriminate. intros [x Hx]. discriminate Hx. }
    destruct (String.eqb (ledgerType config) "test") eqn:E3; cbn;
      repeat split; try discriminate; eauto.
    intros [x Hx]. discriminate Hx.
  - cbn. repeat split; try discriminate. intros [x Hx]. discriminate Hx.
Qed.

(** X2. No function of the gate writes the halt flag or its reason:
    after [compute], [validate], [attest] or [route], returned or
    thrown, both are what they were. *)
Theorem gate_keeps_halt_state :
  (forall envelope ledgerState, keeps_halt (Compute.compute B envelope ledgerState))
  /\ (forall computeResult ledgerState sourceBalance config,
        keeps_halt (Validate.validate B computeResult ledgerState sourceBalance config))
  /\ (forall envelope computeResult validationResult privateKey publicKey,
        keeps_halt (attest B envelope computeResult validationResult
                      privateKey publicKey))
  /\ (forall attestResult config, keeps_halt (route B attestResult config)).
Proof.
  split; [|split; [|split]].
  - intros envelope ledgerState.
    unfold Compute.compute, Compute.getCandidateRoutes, Compute.selectOptimalRoute.
    keeps_halt_auto.
  - intros computeResult ledgerState sourceBalance config.
    unfold Validate.validate. keeps_halt_auto.
  - intros envelope computeResult validationResult privateKey publicKey.
    unfold attest, Crypto.createAttestation, Crypto.signAttestation.
    keeps_halt_auto.
  - intros attestResult config.
    unfold route, isAttestationValid, submitToXRPL, submitToILP, submitToTestnet.
    keeps_halt_auto.
Qed.

(** X3. The halt flag follows the last call: after [haltRouting] the
    flag is set with the reason given, a second [haltRouting] replaces
    the reason, [resumeRouting] clears both, and [isRoutingHalted] reads
    them without changing anything. *)
Theorem halt_flag_follows_last_call reason reason' w :
  fst ((haltRouting B reason;; isRoutingHalted) w) = Ok (true, Some reason)
  /\ fst ((haltRouting B reason;; haltRouting B reason';; isRoutingHalted) w)
     = Ok (true, Some reason')
  /\ fst ((haltRouting B reason;; resumeRouting B;; isRoutingHalted) w)
     = Ok (false, None)
  /\ fst ((resumeRouting B;; isRoutingHalted) w) = Ok (false, None)
  /\ isRoutingHalted w = (Ok (routingHalted w, haltReason w), w).
Proof.
  unfold haltRouting, resumeRouting, isRoutingHalted, Route.logger, set_halt, get_halt.
  open_logger. step. repeat split.
Qed.

(** X4. A stale attestation is not submitted: [route] returns the
    failure [Attestation expired] with no ledger response, writes two
    log lines and no audit entry, and does not draw a random number. *)
Theorem stale_attestation_is_not_submitted attestResult config w :
  freshAt w (attestation attestResult) = false ->
  exists result w',
    route B attestResult config w = (Ok result, w')
    /\ submission result
       = {| success := false; transactionHash := None; ledgerIndex := None;
            error := Some "Attestation expired" |}
    /\ ledgerResponse result = None
    /\ console w'
       = (console w
          ++ [ Logged {| log_timestamp := clock w (clock_reads w);
                         log_level := "info"; log_layer := "car";
                         log_message := "Routing to ledger";
                         log_data :=
                           Some [("intentId",
                                  JStr (intentId (envelope attestResult)));
                                 ("ledgerType", JStr (ledgerType config))] |};
               Logged {| log_timestamp := clock w (2 + clock_reads w);
                         log_level := "error"; log_layer := "car";
                         log_message := "Attestation expired before routing";
                         log_data := None |} ])%list
    /\ entropy_reads w' = entropy_reads w.
Proof.
  unfold freshAt. intros F.
  unfold route, isAttestationValid, Route.logger. open_logger. step.
  rewrite F. cbn [negb]. step.
  eexists _, _. split; [reflexivity|]. cbn [submission ledgerResponse].
  rewrite <- app_assoc. repeat split.
Qed.

(** One run of [attest]. *)
Lemma attest_run envelope computeResult validationResult privateKey publicKey w :
  exists w',
    attest B envelope computeResult validationResult privateKey publicKey w
    = (Ok (if isValid validationResult then
             let hash := Crypto.hashEnvelope B (envelope_json envelope) in
             let record :=
               {| attestationId :=
                    "attest-" ++ Number_toString B (clock w (2 + clock_reads w));
                  envelopeId := intentId envelope;
                  Types.timestamp := clock w (3 + clock_reads w);
                  signature :=
                    "sig-" ++ hash ++ "-"
                    ++ Number_toString B (clock w (1 + clock_reads w));
                  Types.publicKey := publicKey;
                  validationHash := hash |} in
             Some {| attestId :=
                       "attest-" ++ Number_toString B (clock w (4 + clock_reads w));
                     Attest.timestamp := clock w (5 + clock_reads w);
                     Attest.envelope := envelope;
                     Attest.computeResult := computeResult;
                     Attest.validationResult := validationResult;
                     attestation := record;
                     attestationChain := [record] |}
           else None), w')
    /\ clock w' = clock w
    /\ clock_reads w'
       = (if isValid validationResult then 8 else 2) + clock_reads w
    /\ exists lines,
         console w' = (console w ++ lines)%list
         /\ map lineText lines
            = if isValid validationResult then ["Attesting envelope"; "attest"]
              else ["Attesting envelope"; "Cannot attest invalid envelope"].
Proof.
  unfold attest, Crypto.createAttestation, Crypto.signAttestation, Attest.logger.
  open_logger. step.
  destruct (isValid validationResult); cbn [negb]; step;
    eexists; (split; [reflexivity|]); cbn [clock clock_reads console];
    (split; [reflexivity|]); (split; [reflexivity|]);
    rewrite <- app_assoc; eexists; (split; [reflexivity|]); reflexivity.
Qed.

(** X5. [attest] never throws and answers [null] exactly for an invalid
    validation result, after one error line and without an audit entry.
    For a valid one the result carries the envelope, the computation and
    the validation result it was given; its chain holds the attestation
    alone; the attestation names the envelope, stores the hash of the
    envelope and the public key, and is stamped with the fourth reading
    of the clock. *)
Theorem attest_cases envelope computeResult validationResult privateKey publicKey w :
  exists outcome w',
    attest B envelope computeResult validationResult privateKey publicKey w
    = (Ok outcome, w')
    /\ match outcome with
       | None =>
           isValid validationResult = false
           /\ exists lines,
                console w' = (console w ++ lines)%list
                /\ map lineText lines
                   = ["Attesting envelope"; "Cannot attest invalid envelope"]
                /\ forallb isLogged lines = true
       | Some result =>
           isValid validationResult = true
           /\ Attest.envelope result = envelope
           /\ Attest.computeResult result = computeResult
           /\ Attest.validationResult result = validationResult
           /\ attestationChain result = [attestation result]
           /\ envelopeId (attestation result) = intentId envelope
           /\ validationHash (attestation result)
              = Crypto.hashEnvelope B (envelope_json envelope)
           /\ Types.publicKey (attestation result) = publicKey
           /\ Types.timestamp (attestation result) = clock w (3 + clock_reads w)
           /\ clock_reads w' = 8 + clock_reads w
       end.
Proof.
  unfold attest, Crypto.createAttestation, Crypto.signAttestation, Attest.logger.
  open_logger. step.
  destruct (isValid validationResult); cbn [negb]; step;
    eexists _, _; (split; [reflexivity|]).
  - cbn. repeat split.
  - split; [reflexivity|]. cbn [console]. rewrite <- app_assoc.
    eexists. split; [reflexivity|]. split; reflexivity.
Qed.

Lemma no_errors_iff_no_rule_fails computeResult sourceBalance config now :
  flat_map (fun r => if Validate.fails B computeResult sourceBalance config now r
                     then [Validate.message B computeResult sourceBalance config now r]
                     else [])
           Validate.allRules = []
  <-> forall r, Validate.fails B computeResult sourceBalance config now r = false.
Proof.
  unfold Validate.allRules. cbn [flat_map]. split.
  - intros H r.
    destruct (Validate.fails B computeResult sourceBalance config now
                Validate.AmountLimit) eqn:E1; [discriminate H|].
    destruct (Validate.fails B computeResult sourceBalance config now
                Validate.Balance) eqn:E2; [discriminate H|].
    destruct (Validate.fails B computeResult sourceBalance config now
                Validate.Blocklist) eqn:E3; [discriminate H|].
    destruct (Validate.fails B computeResult sourceBalance config now
                Validate.FeeBound) eqn:E4; [discriminate H|].
    destruct (Validate.fails B computeResult sourceBalance config now
                Validate.Expiry) eqn:E5; [discriminate H|].
    destruct r; assumption.
  - intros H. rewrite !H. reflexivity.
Qed.

(** X6. Validation followed by attestation: the envelope of a
    computation is attested exactly when none of the five rules fails at
    the time the validator reads; when one fails, [attest] answers
    [null]. *)
Theorem attested_iff_no_rule_fails
    computeResult ledgerState sourceBalance config privateKey publicKey w :
  exists outcome w',
    (validationResult ← Validate.validate B computeResult ledgerState
                          sourceBalance config;
     attest B (Compute.envelope computeResult) computeResult validationResult
       privateKey publicKey) w = (Ok outcome, w')
    /\ (is_Some outcome
        <-> forall r, Validate.fails B computeResult sourceBalance config
                        (Validate.nowAt w) r = false).
Proof.
  destruct (ValidateFacts.validate_run B computeResult sourceBalance config
              ledgerState w) as (v & w1 & E & He & _ & Hv).
  rewrite (bind_run _ _ _ _ _ E).
  destruct (attest_run (Compute.envelope computeResult) computeResult v
              privateKey publicKey w1) as (w2 & Ea & _).
  rewrite Ea. eexists _, _. split; [reflexivity|].
  rewrite <- no_errors_iff_no_rule_fails, <- He, Hv.
  destruct (errors v) as [|e es]; cbn [length Nat.eqb]; cbv zeta.
  - split; [reflexivity | eauto].
  - split; [intros [x Hx]; discriminate Hx | discriminate].
Qed.

(** X7. [verifyAttest] answers false for every envelope and
    attestation, and records the verification as rejected in the audit
    line it writes. *)
Theorem verifyAttest_always_rejects envelope record w :
  exists w' entry,
    verifyAttest B envelope record w = (Ok false, w')
    /\ console w'
       = (console w
          ++ [ Logged {| log_timestamp := clock w (clock_reads w);
                         log_level := "info"; log_layer := "car";
                         log_message := "Verifying attestation";
                         log_data :=
                           Some [("attestationId", JStr (attestationId record))] |};
               Audited entry ])%list
    /\ audit_action entry = "verifyAttest"
    /\ audit_outcome entry = "rejected"
    /\ audit_data entry
       = [("attestationId", JStr (attestationId record)); ("isValid", JBool false)].
Proof.
  unfold verifyAttest, Attest.logger. open_logger.
  assert (V : Crypto.verifyAttestation B envelope record = false).
  { unfold Crypto.verifyAttestation, Crypto.verifySignature. case_match; reflexivity. }
  rewrite V. step.
  eexists _, _. split; [reflexivity|]. cbn [console]. rewrite <- app_assoc.
  repeat split.
Qed.

(** X8. Revoking an attestation does not stop its routing: the
    revocation is a record and two lines of the log, an audit entry and
    a warning, which [route] does not consult; the halt flag and its
    reason are left as they were. Routed after its revocation, an
    attestation is submitted as before, exactly when it is younger than
    five minutes at the reading of the clock and the ledger is the test
    one. *)
Theorem revocation_does_not_stop_routing attestResult reason revokedBy config w :
  exists revocation result w',
    (revocation ← revokeAttestation B (attestation attestResult) reason revokedBy;
     result ← route B attestResult config;
     ret (revocation, result)) w = (Ok (revocation, result), w')
    /\ revoked_attestationId revocation = attestationId (attestation attestResult)
    /\ Attest.reason revocation = reason
    /\ success (submission result)
       = num_lt (clock w (6 + clock_reads w)
                 - Types.timestamp (attestation attestResult))%float defaultMaxAge
         && String.eqb (ledgerType config) "test"
    /\ (let after :=
          snd (revokeAttestation B (attestation attestResult) reason revokedBy w) in
        routingHalted after = routingHalted w
        /\ haltReason after = haltReason w
        /\ exists entry line,
             console after = (console w ++ [Audited entry; Logged line])%list
             /\ audit_action entry = "revokeAttestation"
             /\ log_level line = "warn"
             /\ log_message line = "Attestation revoked").
Proof.
  unfold revokeAttestation, Attest.logger. open_logger. step.
  match goal with
  | |- context [bind (route B ?a ?c) _ ?w1] =>
      destruct (route_run a c w1) as (result & w2 & E & _ & Hs);
      rewrite (bind_run _ _ _ _ _ E)
  end.
  step. eexists _, _, _. split; [reflexivity|].
  split; [reflexivity|]. split; [reflexivity|]. split.
  - rewrite Hs. unfold freshAt. cbn [clock clock_reads Nat.add].
    destruct (num_lt _ _); cbn [andb]; [|reflexivity].
    destruct (String.eqb (ledgerType config) "xrpl") eqn:E1.
    { apply String.eqb_eq in E1. rewrite E1. reflexivity. }
    destruct (String.eqb (ledgerType config) "ilp") eqn:E2.
    { apply String.eqb_eq in E2. rewrite E2. reflexivity. }
    destruct (String.eqb (ledgerType config) "test"); reflexivity.
  - cbv zeta. split; [reflexivity|]. split; [reflexivity|].
    eexists _, _. split; [rewrite <- app_assoc; reflexivity|].
    repeat split.
Qed.

End WithBuiltins.

(** Ten minutes after the sample attestation was made, it is refused. *)
Lemma stale_attestation_is_not_submitted_witness :
  exists result w',
    route Engine.builtins Sample.attested Sample.testConfig Cases.world_stale
    = (Ok result, w')
    /\ error (submission result) = Some "Attestation expired"
    /\ entropy_reads w' = 0.
Proof.
  destruct (stale_attestation_is_not_submitted Engine.builtins Sample.attested
              Sample.testConfig Cases.world_stale)
    as (result & w' & E & Hs & _ & _ & He); [vm_compute; reflexivity|].
  exists result, w'. rewrite Hs. auto.
Defined.

End GateFacts.

(** ** The text of the hashes *)

Module HashFacts.
Import Types Crypto Gate.

Lemma toInt32_range z : (- 2 ^ 31 <= toInt32 z < 2 ^ 31)%Z.
Proof.
  unfold toInt32.
  pose proof (Z.mod_pos_bound (z + 2 ^ 31) (2 ^ 32) ltac:(lia)). lia.
Qed.

Lemma hash_range l h :
  (- 2 ^ 31 <= h < 2 ^ 31)%Z ->
  (- 2 ^ 31 <= fold_left hashStep l h < 2 ^ 31)%Z.
Proof.
  revert h. induction l as [|c l IH]; intros h Hh; cbn [fold_left]; [exact Hh|].
  apply IH. unfold hashStep. apply toInt32_range.
Qed.

(** The sixteen digits. *)
Lemma hex_digit_of k :
  k < 16 ->
  exists c, substring k 1 "0123456789abcdef" = String c ""
            /\ isHexDigit c = true /\ hexDigitValue c = Z.of_nat k.
Proof.
  intros Hk.
  do 16 (destruct k as [|k]; [eexists; repeat split|]).
  lia.
Qed.

Lemma append_cons x (s t : string) : String x s ++ t = String x (s ++ t).
Proof. reflexivity. Qed.

Lemma append_nil_r (s : string) : s ++ "" = s.
Proof. induction s as [|x s IH]; [reflexivity|]. now rewrite append_cons, IH. Qed.

Lemma append_assoc (s t u : string) : (s ++ t) ++ u = s ++ t ++ u.
Proof. induction s as [|x s IH]; [reflexivity|]. now rewrite !append_cons, IH. Qed.

Lemma length_append s t : String.length (s ++ t) = String.length s + String.length t.
Proof.
  induction s as [|x s IH]; [reflexivity|].
  rewrite append_cons. cbn [String.length]. now rewrite IH.
Qed.

Lemma list_ascii_of_append s t :
  list_ascii_of_string (s ++ t)
  = (list_ascii_of_string s ++ list_ascii_of_string t)%list.
Proof.
  induction s as [|x s IH]; [reflexivity|].
  rewrite append_cons. cbn [list_ascii_of_string app]. now rewrite IH.
Qed.

Lemma hexValue_app s c :
  hexValue (s ++ String c "") = (16 * hexValue s + hexDigitValue c)%Z.
Proof.
  unfold hexValue. rewrite list_ascii_of_append, fold_left_app. reflexivity.
Qed.

Lemma allHex_app s t : allHex (s ++ t) = allHex s && allHex t.
Proof. unfold allHex. rewrite list_ascii_of_append. apply forallb_app. Qed.

(** With fuel for every digit, [hexDigits] writes the digits of [n]
    before [acc], the most significant first and not a zero unless [n]
    is; more fuel changes nothing. *)
Lemma hexDigits_spec fuel :
  forall n acc,
    (0 <= n < 16 ^ Z.of_nat fuel)%Z -> 0 < fuel ->
    exists digits,
      hexDigits fuel n acc = digits ++ acc
      /\ 1 <= String.length digits <= fuel
      /\ allHex digits = true
      /\ hexValue digits = n
      /\ forall more, hexDigits (fuel + more) n acc = digits ++ acc.
Proof.
  induction fuel as [|fuel IH]; intros n acc Hn Hfuel; [lia|].
  assert (Hm : Z.to_nat (n mod 16) < 16)
    by (pose proof (Z.mod_pos_bound n 16 ltac:(lia)); lia).
  destruct (hex_digit_of _ Hm) as (c & Ec & Hc & Vc).
  rewrite Z2Nat.id in Vc by (pose proof (Z.mod_pos_bound n 16 ltac:(lia)); lia).
  cbn [hexDigits Nat.add]. rewrite Ec.
  destruct (n / 16 =? 0)%Z eqn:Q.
  - apply Z.eqb_eq in Q. exists (String c "").
    split; [reflexivity|]. split; [cbn; lia|].
    split; [unfold allHex; cbn; now rewrite Hc|].
    split; [|reflexivity].
    unfold hexValue. cbn. rewrite Vc.
    pose proof (Z.div_mod n 16 ltac:(lia)). lia.
  - apply Z.eqb_neq in Q.
    assert (Hq : (0 <= n / 16 < 16 ^ Z.of_nat fuel)%Z).
    { split; [apply Z.div_pos; lia|].
      apply Z.div_lt_upper_bound; [lia|].
      replace (Z.of_nat (S fuel)) with (Z.of_nat fuel + 1)%Z in Hn by lia.
      rewrite Z.pow_add_r in Hn by lia. lia. }
    assert (Hf : 0 < fuel).
    { destruct fuel; [|lia]. cbn in Hq. assert (n / 16 = 0)%Z by lia. contradiction. }
    destruct (IH (n / 16)%Z (String c "" ++ acc) Hq Hf)
      as (digits & E & Hlen & Hhex & Hval & Hmore).
    exists (digits ++ String c "").
    split; [rewrite E; now rewrite append_assoc|].
    split; [rewrite length_append; cbn; lia|].
    split; [rewrite allHex_app, Hhex; unfold allHex; cbn; now rewrite Hc|].
    split.
    + rewrite hexValue_app, Hval, Vc.
      pose proof (Z.div_mod n 16 ltac:(lia)). lia.
    + intros more. rewrite Hmore. now rewrite append_assoc.
Qed.

Section WithBuiltins.
Context (B : Builtins).

(** X9. The text of an envelope hash is [hash-] followed by one to
    eight hexadecimal digits in lower case, which denote the absolute
    value of the 32-bit hash of the JSON text, at most 2^31; the nine
    rounds of the digit loop always suffice. *)
Theorem hashEnvelope_format envelope :
  exists digits,
    hashEnvelope B envelope = "hash-" ++ digits
    /\ 1 <= String.length digits <= 8
    /\ allHex digits = true
    /\ hexValue digits = Z.abs (hashOf B envelope)
    /\ (hexValue digits <= 2 ^ 31)%Z
    /\ forall more, hexDigits (9 + more) (Z.abs (hashOf B envelope)) "" = digits.
Proof.
  unfold hashEnvelope. fold (hashOf B envelope).
  assert (R : (- 2 ^ 31 <= hashOf B envelope < 2 ^ 31)%Z)
    by (apply hash_range; lia).
  destruct (hexDigits_spec 8 (Z.abs (hashOf B envelope)) "")
    as (digits & E & Hlen & Hhex & Hval & Hmore); [cbn; lia | lia |].
  pose proof append_nil_r as A. rewrite A in E. exists digits.
  split.
  { pose proof (Hmore 1) as H1. rewrite A in H1. cbn [Nat.add] in H1.
    rewrite H1. reflexivity. }
  split; [exact Hlen|]. split; [exact Hhex|]. split; [exact Hval|].
  split; [lia|].
  intros more. replace (9 + more) with (8 + S more) by lia.
  rewrite Hmore. apply A.
Qed.

End WithBuiltins.

End HashFacts.

(** ** Hybrid attestations, their texts and the crypto policies *)

Module SuiteFacts.
Import Types Pqc Attestor Gate.
Import ComputeFacts HashFacts.

(** The two characters [toHex] writes for a byte. *)
Lemma toHex_cons b buffer :
  exists c1 c2,
    toHex (b :: buffer) = String c1 (String c2 (toHex buffer))
    /\ isHexDigit c1 = true /\ isHexDigit c2 = true
    /\ (16 * hexDigitValue c1 + hexDigitValue c2)%Z = Z.of_N (Byte.to_N b).
Proof.
  unfold toHex. cbn [fold_right]. fold (toHex buffer).
  destruct b; eexists _, _; (split; [reflexivity|]); repeat split.
Qed.

Lemma byte_of_value b1 b2 : Byte.to_N b1 = Byte.to_N b2 -> b1 = b2.
Proof.
  intros H. pose proof (Byte.of_to_N b1) as H1. rewrite H, Byte.of_to_N in H1.
  congruence.
Qed.

(** The hexadecimal text of a buffer has two digits in lower case for
    each byte, and two buffers with the same text are equal. *)
Lemma toHex_faithful :
  (forall buffer,
      String.length (toHex buffer) = 2 * length buffer
      /\ allHex (toHex buffer) = true)
  /\ (forall buffer1 buffer2, toHex buffer1 = toHex buffer2 -> buffer1 = buffer2).
Proof.
  split.
  - induction buffer as [|b buffer [IH1 IH2]]; [split; reflexivity|].
    destruct (toHex_cons b buffer) as (c1 & c2 & E & H1 & H2 & _).
    rewrite E. split.
    + cbn [String.length length]. rewrite IH1. lia.
    + unfold allHex in *. cbn [list_ascii_of_string forallb].
      now rewrite H1, H2, IH2.
  - induction buffer1 as [|b1 buffer1 IH]; intros [|b2 buffer2] H.
    + reflexivity.
    + destruct (toHex_cons b2 buffer2) as (c1 & c2 & E & _). rewrite E in H.
      discriminate H.
    + destruct (toHex_cons b1 buffer1) as (c1 & c2 & E & _). rewrite E in H.
      discriminate H.
    + destruct (toHex_cons b1 buffer1) as (c1 & c2 & E1 & _ & _ & V1).
      destruct (toHex_cons b2 buffer2) as (d1 & d2 & E2 & _ & _ & V2).
      rewrite E1, E2 in H. injection H as -> -> H.
      f_equal; [|exact (IH _ H)].
      apply byte_of_value. lia.
Qed.

Section WithBuiltins.
Context (B : Builtins).

(** X10. An attestation made by either hybrid suite passes the
    structural validation exactly when the identifier drawn for it and
    the digest of the envelope are not empty. It carries the key epoch
    of the input and the reading of the clock, and its envelope hash is
    the hexadecimal text of the digest, two digits for each byte. *)
Theorem hybrid_attestation_is_well_formed attestor input w :
  attestor = hybridEd25519DilithiumSuite B
  \/ attestor = hybridEcdsaDilithiumSuite B ->
  exists output w',
    attest attestor input w = (Ok output, w')
    /\ isValidAttestationStructure (attestation output)
       = truthy (uuids w (uuid_reads w))
         && (0 <? length (sha3_256 B (envelopeCanonicalBytes input)))%nat
    /\ attestationId (attestation output) = uuids w (uuid_reads w)
    /\ keyEpoch (attestation output) = input_keyEpoch input
    /\ createdAt (attestation output) = clock w (clock_reads w)
    /\ envelopeHashHex (attestation output)
       = toHex (sha3_256 B (envelopeCanonicalBytes input))
    /\ String.length (envelopeHashHex (attestation output))
       = 2 * length (sha3_256 B (envelopeCanonicalBytes input)).
Proof.
  assert (Hhex : forall buffer,
            truthy (toHex buffer) = (0 <? length buffer)%nat).
  { intros [|b buffer]; [reflexivity|].
    destruct (toHex_cons b buffer) as (c1 & c2 & E & _). rewrite E. reflexivity. }
  intros [-> | ->];
    cbn [attest hybridEd25519DilithiumSuite hybridEcdsaDilithiumSuite]; step;
    eexists _, _; (split; [reflexivity|]);
    cbn [attestation attestationId keyEpoch createdAt envelopeHashHex];
    (split; [|repeat split; apply toHex_faithful]);
    unfold isValidAttestationStructure;
    cbn [attestationId suite cryptoPolicy keyEpoch createdAt envelopeHashHex
         classicalSig pqcSig absent orb andb];
    rewrite Hhex;
    destruct (truthy (uuids w (uuid_reads w)));
    destruct (0 <? length (sha3_256 B (envelopeCanonicalBytes input)))%nat;
    reflexivity.
Qed.

(** X11. The commitment hash a hybrid suite returns with an
    attestation verifies against the JSON text of that attestation. *)
Theorem commitment_hash_verifies attestor input w :
  attestor = hybridEd25519DilithiumSuite B
  \/ attestor = hybridEcdsaDilithiumSuite B ->
  exists output w',
    attest attestor input w = (Ok output, w')
    /\ attestationHashHex output
       = Hashes.createCommitmentHash B
           (JSON_stringify B (attestation_json (attestation output)))
    /\ Hashes.verifyCommitmentHash B
         (JSON_stringify B (attestation_json (attestation output)))
         (attestationHashHex output) = true.
Proof.
  intros [-> | ->];
    cbn [attest hybridEd25519DilithiumSuite hybridEcdsaDilithiumSuite]; step;
    eexists _, _; (split; [reflexivity|]);
    unfold Hashes.verifyCommitmentHash, Hashes.createCommitmentHash;
    cbn [attestation attestationHashHex];
    (split; [reflexivity | apply String.eqb_refl]).
Qed.

(** X12. The two validators of a crypto policy agree: the fields of a
    complete object pass [validatePieCryptoFields] exactly when its
    policy passes [isValidCryptoPolicy]. Each of the four policies the
    module builds passes both unless its key epoch is below zero, in
    which case the error is that of the key epoch. *)
Theorem crypto_policy_validators_agree :
  (forall fields,
      PieCrypto.validatePieCryptoFields (PieCrypto.asPartial fields) = Ok tt
      <-> PieCrypto.isValidCryptoPolicy (PieCrypto.policy fields) = true)
  /\ (forall keyEpoch fields,
        In fields (PieCrypto.builtPolicies keyEpoch) ->
        PieCrypto.validatePieCryptoFields (PieCrypto.asPartial fields)
        = (if num_lt keyEpoch 0%float then Throw "PIE invalid keyEpoch" else Ok tt)
        /\ PieCrypto.isValidCryptoPolicy (PieCrypto.policy fields)
           = negb (num_lt keyEpoch 0%float)).
Proof.
  split.
  - intros [[policy suite epoch hybrid] proofs].
    unfold PieCrypto.validatePieCryptoFields, PieCrypto.isValidCryptoPolicy,
      PieCrypto.asPartial, PieCrypto.missing.
    cbn [PieCrypto.partial_cryptoPolicy PieCrypto.partial_attestationSuite
         PieCrypto.partial_keyEpoch PieCrypto.partial_requireHybrid
         PieCrypto.partial_requiredProofs PieCrypto.policy PieCrypto.cryptoPolicy
         PieCrypto.attestationSuite PieCrypto.keyEpoch PieCrypto.requireHybrid
         PieCrypto.requiredProofs].
    destruct (truthy policy); cbn [negb]; [|split; discriminate].
    destruct (truthy suite); cbn [negb]; [|split; discriminate].
    cbn [PieCrypto.typeof_number PieCrypto.typeof_boolean String.eqb Ascii.eqb
         Bool.eqb negb orb andb].
    destruct (num_lt epoch 0%float); split; (reflexivity || discriminate).
  - intros keyEpoch fields [<-|[<-|[<-|[<-|[]]]]];
      unfold PieCrypto.validatePieCryptoFields, PieCrypto.isValidCryptoPolicy;
      cbn; destruct (keyEpoch <? 0)%float; split; reflexivity.
Qed.

(** X13. For each of the four policies the module builds,
    [requireHybrid] says whether an attestation suite exists for the
    policy. When it does, the suite made for the policy attests under
    the suite id and the policy id of the policy, at the key epoch of
    the input; when it does not, [createAttestor] throws. *)
Theorem built_policies_and_attestors keyEpoch fields :
  In fields (PieCrypto.builtPolicies keyEpoch) ->
  let policy := PieCrypto.policy fields in
  PieCrypto.requireHybrid policy = isPolicySupported (PieCrypto.cryptoPolicy policy)
  /\ match createAttestor B (PieCrypto.cryptoPolicy policy) with
     | Ok attestor =>
         PieCrypto.requireHybrid policy = true
         /\ forall input w,
              exists output w',
                attest attestor input w = (Ok output, w')
                /\ suite (attestation output) = PieCrypto.attestationSuite policy
                /\ cryptoPolicy (attestation output) = PieCrypto.cryptoPolicy policy
                /\ Pqc.keyEpoch (attestation output) = input_keyEpoch input
     | Throw msg =>
         PieCrypto.requireHybrid policy = false
         /\ msg = PieCrypto.cryptoPolicy policy ++ " attestor not yet implemented"
     end.
Proof.
  intros [<-|[<-|[<-|[<-|[]]]]]; cbv zeta; (split; [reflexivity|]);
    cbn [PieCrypto.policy PieCrypto.cryptoPolicy PieCrypto.requireHybrid
         PieCrypto.attestationSuite PieCrypto.defaultHybridPolicy
         PieCrypto.classicalOnlyPolicy PieCrypto.ecdsaDilithiumPolicy
         PieCrypto.pqcOnlyPolicy];
    unfold createAttestor; cbn [String.eqb Ascii.eqb Bool.eqb];
    (split; [reflexivity|]);
    try reflexivity;
    intros input w;
    cbn [attest hybridEd25519DilithiumSuite hybridEcdsaDilithiumSuite]; step;
    eexists _, _; (split; [reflexivity|]); repeat split.
Qed.

End WithBuiltins.

(** The ed25519 suite on the sample envelope. *)
Lemma hybrid_attestation_is_well_formed_witness :
  exists output w',
    attest (hybridEd25519DilithiumSuite Engine.builtins)
      {| envelope := Sample.envelope; envelopeCanonicalBytes := [];
         input_keyEpoch := 1%float |} Sample.world = (Ok output, w')
    /\ isValidAttestationStructure (attestation output) = true
    /\ String.length (envelopeHashHex (attestation output)) = 64.
Proof.
  destruct (hybrid_attestation_is_well_formed Engine.builtins
              (hybridEd25519DilithiumSuite Engine.builtins)
              {| envelope := Sample.envelope; envelopeCanonicalBytes := [];
                 input_keyEpoch := 1%float |} Sample.world (or_introl eq_refl))
    as (output & w' & E & Hv & _ & _ & _ & _ & Hl).
  exists output, w'. split; [exact E|]. split; [rewrite Hv|rewrite Hl]; reflexivity.
Defined.

(** The secp256k1 suite on the sample envelope. *)
Lemma commitment_hash_verifies_witness :
  exists output w',
    attest (hybridEcdsaDilithiumSuite Engine.builtins)
      {| envelope := Sample.envelope; envelopeCanonicalBytes := [];
         input_keyEpoch := 1%float |} Sample.world = (Ok output, w')
    /\ Hashes.verifyCommitmentHash Engine.builtins
         (JSON_stringify Engine.builtins (attestation_json (attestation output)))
         (attestationHashHex output) = true.
Proof.
  destruct (commitment_hash_verifies Engine.builtins
              (hybridEcdsaDilithiumSuite Engine.builtins)
              {| envelope := Sample.envelope; envelopeCanonicalBytes := [];
                 input_keyEpoch := 1%float |} Sample.world (or_intror eq_refl))
    as (output & w' & E & _ & Hv).
  exists output, w'. split; [exact E | exact Hv].
Defined.

(** The default hybrid policy at key epoch 1. *)
Lemma built_policies_and_attestors_witness :
  PieCrypto.requireHybrid (PieCrypto.policy (PieCrypto.defaultHybridPolicy 1%float))
  = isPolicySupported "HYBRID_ED25519_PLUS_DILITHIUM"
  /\ createAttestor Engine.builtins "HYBRID_ED25519_PLUS_DILITHIUM"
     = Ok (hybridEd25519DilithiumSuite Engine.builtins).
Proof.
  destruct (built_policies_and_attestors Engine.builtins 1%float
              (PieCrypto.defaultHybridPolicy 1%float) (or_introl eq_refl))
    as [H _].
  split; [exact H | reflexivity].
Defined.

End SuiteFacts.

(** ** What the computation returns *)

Module SelectionFacts.
Import Types Compute Gate.
Import ComputeFacts.

(** *** A list already in order is left as it is by the sort *)

Lemma sort_insert_last {A} (cmp : A -> A -> number) x acc :
  Forall (fun y => staysAfter cmp y x) acc ->
  sort_insert cmp x acc = (acc ++ [x])%list.
Proof.
  induction 1 as [|y acc Hy _ IH]; [reflexivity|].
  cbn [sort_insert app]. unfold staysAfter in Hy. rewrite Hy, IH. reflexivity.
Qed.

Lemma sort_in_order {A} (cmp : A -> A -> number) l :
  ForallOrdPairs (staysAfter cmp) l -> sort cmp l = l.
Proof.
  unfold sort. intros H.
  assert (G : forall acc,
             Forall (fun y => Forall (staysAfter cmp y) l) acc ->
             fold_left (fun acc x => sort_insert cmp x acc) l acc = (acc ++ l)%list).
  { induction H as [|a l Ha Hl IH]; intros acc Hacc; cbn [fold_left].
    - now rewrite app_nil_r.
    - rewrite sort_insert_last.
      + rewrite IH; [now rewrite <- app_assoc|].
        apply Forall_app. split.
        * eapply Forall_impl; [exact Hacc|]. intros y Hy. now inversion Hy.
        * constructor; [exact Ha | constructor].
      + eapply Forall_impl; [exact Hacc|]. intros y Hy. now inversion Hy. }
  apply (G []). constructor.
Qed.

Lemma ForallOrdPairs_filter {A} (R : A -> A -> Prop) (f : A -> bool) l :
  ForallOrdPairs R l -> ForallOrdPairs R (List.filter f l).
Proof.
  induction 1 as [|a l Ha Hl IH]; cbn [List.filter]; [constructor|].
  destruct (f a); [|exact IH].
  constructor; [|exact IH].
  apply List.Forall_forall. intros x Hx. apply List.filter_In in Hx as [Hx _].
  rewrite List.Forall_forall in Ha. exact (Ha x Hx).
Qed.

Section WithBuiltins.
Context (B : Builtins).

(** The candidates come in the order of their confidence, which alone
    decides between them. *)
Lemma getCandidateRoutes_in_order envelope ledgerState w routes w' :
  getCandidateRoutes B envelope ledgerState w = (Ok routes, w') ->
  ForallOrdPairs (staysAfter (compareRoutes B)) routes.
Proof.
  unfold getCandidateRoutes.
  destruct (String.eqb (currency (amount envelope)) "XRP");
    destruct (String.eqb (action envelope) "swap");
    step; cbn [orb negb app]; intros [= <- <-];
    repeat (constructor; [repeat (constructor; [reflexivity|]); constructor|]);
    constructor.
Qed.

Lemma allowed_in_order envelope ledgerState w routes w' :
  getCandidateRoutes B envelope ledgerState w = (Ok routes, w') ->
  sort (compareRoutes B) (filterByAllowedRoutes routes (allowedRoutes envelope))
  = filterByAllowedRoutes routes (allowedRoutes envelope).
Proof.
  intros E. apply sort_in_order. unfold filterByAllowedRoutes.
  pose proof (getCandidateRoutes_in_order _ _ _ _ _ E) as H.
  case_match; [exact H|]. apply ForallOrdPairs_filter. exact H.
Qed.

Lemma allowed_related envelope ledgerState w routes w' :
  getCandidateRoutes B envelope ledgerState w = (Ok routes, w') ->
  Forall2 sameRoute (filterByAllowedRoutes routes (allowedRoutes envelope))
    (allowedShapes B envelope ledgerState).
Proof.
  intros E.
  destruct (getCandidateRoutes_shape B envelope ledgerState w)
    as (routes' & w2 & E' & S).
  rewrite E in E'. symmetry in E'. simplify_eq.
  apply filterByAllowedRoutes_related. exact S.
Qed.

(** The types of the allowed candidates are distinct: leaving out those
    of the type of one of them leaves out one. *)
Lemma allowedShapes_one_of_each_type envelope ledgerState shape :
  In shape (allowedShapes B envelope ledgerState) ->
  length (allowedShapes B envelope ledgerState)
  = S (length (List.filter (fun r => negb (String.eqb (type r) (type shape)))
                 (allowedShapes B envelope ledgerState))).
Proof.
  unfold allowedShapes, candidateShapes, filterByAllowedRoutes.
  destruct (String.eqb (currency (amount envelope)) "XRP");
    destruct (String.eqb (action envelope) "swap");
    cbn [orb negb app];
    (destruct (length (allowedRoutes envelope) =? 0)%nat;
     [|cbn [List.filter type];
       destruct (includes (allowedRoutes envelope) "*");
       destruct (includes (allowedRoutes envelope) "direct");
       destruct (includes (allowedRoutes envelope) "xrpl-dex");
       destruct (includes (allowedRoutes envelope) "ilp");
       cbn [orb]]);
    intros Hin; cbn [In] in Hin;
    repeat (destruct Hin as [<-|Hin]; [reflexivity|]);
    contradiction.
Qed.

(** X14. A result of [compute] is made of the candidates the envelope
    allows, each once: the selected route is one of them, the
    alternatives are the others in the order direct, xrpl-dex, ilp, and
    nothing else is returned. Routes are compared up to their ids. *)
Theorem compute_returns_the_allowed_candidates envelope ledgerState w result w' :
  compute B envelope ledgerState w = (Ok result, w') ->
  exists shape,
    In shape (allowedShapes B envelope ledgerState)
    /\ sameRoute (selectedRoute result) shape
    /\ Forall2 sameRoute (alternativeRoutes result)
         (List.filter (fun r => negb (String.eqb (type r) (type shape)))
            (allowedShapes B envelope ledgerState))
    /\ length (allowedShapes B envelope ledgerState)
       = S (length (alternativeRoutes result)).
Proof.
  intros Hc.
  destruct (compute_run B envelope ledgerState w)
    as (w1 & routes & w2 & E & _ & _ & R).
  cbv zeta in R. rewrite Hc in R. cbn [fst] in R.
  pose proof (allowed_related _ _ _ _ _ E) as Hrel.
  assert (Hself : forall l, Forall2 sameRoute l l).
  { induction l; constructor; auto using sameRoute_refl. }
  pose proof (selectOptimalRoute_related B _ _ envelope envelope w2 w2
                (Hself (filterByAllowedRoutes routes (allowedRoutes envelope)))
                eq_refl) as Hin.
  destruct (fst (selectOptimalRoute B _ envelope w2)) as [selected|msg];
    [|discriminate R].
  destruct R as (result' & [= <-] & Hs & Ha). destruct Hin as (_ & Hin & _).
  assert (Hshape : exists shape,
             In shape (allowedShapes B envelope ledgerState)
             /\ sameRoute selected shape).
  { clear -Hrel Hin. induction Hrel as [|a b l1 l2 Hab Hl IH]; [contradiction|].
    destruct Hin as [<-|Hin].
    - exists b. split; [left; reflexivity | exact Hab].
    - destruct (IH Hin) as (shape & H1 & H2). exists shape. split; [right|]; auto. }
  destruct Hshape as (shape & Hshape & Hsame). exists shape.
  split; [exact Hshape|]. split; [rewrite Hs; exact Hsame|].
  assert (Halt : Forall2 sameRoute (alternativeRoutes result)
                   (List.filter (fun r => negb (String.eqb (type r) (type shape)))
                      (allowedShapes B envelope ledgerState))).
  { rewrite Ha.
    rewrite (alternatives_by_type routes _ selected
               (getCandidateRoutes_ids B _ _ _ _ _ E) Hin).
    apply (filter_related sameRoute); [|exact Hrel].
    intros a1 a2 (-> & _). destruct Hsame as (-> & _). reflexivity. }
  split; [exact Halt|].
  rewrite (allowedShapes_one_of_each_type _ _ shape Hshape).
  f_equal. symmetry. clear -Halt.
  induction Halt; cbn [length]; congruence.
Qed.

(** X15. The selected route is the first allowed candidate within the
    fee bound of the envelope in the order direct, xrpl-dex, ilp, and
    the first allowed candidate when none is within the bound: the
    confidence decides, the fee only filters. *)
Theorem compute_selects_first_within_fee envelope ledgerState w result w' :
  compute B envelope ledgerState w = (Ok result, w') ->
  match (List.filter (withinFee B envelope) (allowedShapes B envelope ledgerState)
         ++ allowedShapes B envelope ledgerState)%list with
  | best :: _ => sameRoute (selectedRoute result) best
  | [] => False
  end.
Proof.
  intros Hc.
  destruct (compute_run B envelope ledgerState w)
    as (w1 & routes & w2 & E & _ & _ & R).
  cbv zeta in R. rewrite Hc in R. cbn [fst] in R.
  pose proof (allowed_related _ _ _ _ _ E) as Hrel.
  rewrite selectOptimalRoute_result, (allowed_in_order _ _ _ _ _ E) in R.
  assert (Hfil : Forall2 sameRoute
                   (List.filter (withinFee B envelope)
                      (filterByAllowedRoutes routes (allowedRoutes envelope)))
                   (List.filter (withinFee B envelope)
                      (allowedShapes B envelope ledgerState))).
  { apply (filter_related sameRoute); [|exact Hrel].
    intros a1 a2 H. apply sameRoute_withinFee. exact H. }
  destruct (filterByAllowedRoutes routes (allowedRoutes envelope))
    as [|first rest] eqn:Ef; [discriminate R|].
  destruct (List.filter (withinFee B envelope) (first :: rest)) as [|best bests].
  - destruct R as (result' & [= <-] & Hs & _). rewrite Hs. cbn [hd].
    inversion Hfil. inversion Hrel; subst. cbn [app]. assumption.
  - destruct R as (result' & [= <-] & Hs & _). rewrite Hs.
    inversion Hfil; subst. cbn [app]. assumption.
Qed.

End WithBuiltins.

(** The sample envelope: the direct route and the ILP route are allowed,
    the direct one is selected. *)
Lemma compute_returns_the_allowed_candidates_witness :
  exists shape,
    In shape (allowedShapes Engine.builtins Sample.envelope (Sample.ledger "0.00001"))
    /\ sameRoute (selectedRoute Sample.computed) shape
    /\ length (allowedShapes Engine.builtins Sample.envelope (Sample.ledger "0.00001"))
       = 2.
Proof.
  destruct (compute Engine.builtins Sample.envelope (Sample.ledger "0.00001")
              Sample.world) as [r w'] eqn:E.
  assert (Hr : r = Ok Sample.computed).
  { pose proof (f_equal fst E) as F. cbn [fst] in F. rewrite <- F.
    vm_compute. reflexivity. }
  subst r.
  destruct (compute_returns_the_allowed_candidates Engine.builtins _ _ _ _ _ E)
    as (shape & H1 & H2 & _ & H4).
  exists shape. split; [exact H1|]. split; [exact H2|]. rewrite H4. reflexivity.
Defined.

(** With a network fee of 0.4 and a fee bound of 1 the direct route is
    within the bound and is selected. *)
Lemma compute_selects_first_within_fee_witness :
  exists result,
    fst (compute Engine.builtins Sample.envelope (Sample.ledger "0.4") Sample.world)
    = Ok result
    /\ type (selectedRoute result) = "direct".
Proof.
  destruct (compute Engine.builtins Sample.envelope (Sample.ledger "0.4")
              Sample.world) as [r w'] eqn:E.
  destruct r as [result|msg];
    [|pose proof (f_equal fst E) as F; vm_compute in F; discriminate F].
  pose proof (compute_selects_first_within_fee Engine.builtins _ _ _ _ _ E) as H.
  exists result. split; [reflexivity|].
  destruct (List.filter _ _ ++ _)%list as [|best rest] eqn:L; [contradiction|].
  vm_compute in L. injection L as <- _. destruct H as (-> & _). reflexivity.
Defined.

End SelectionFacts.

(** ** The audit line of the validator and the expiry checks *)

Module ValidationFacts.
Import Types Compute Validate Gate.
Import ComputeFacts GateFacts.

Section WithBuiltins.
Context (B : Builtins).

(** X16. [validate] audits what it returns: after its first log line
    it writes one audit entry whose outcome is [success] for a valid
    result and [rejected] otherwise, with the validity and the numbers
    of errors and warnings of the result, and for an invalid result one
    more line, a warning with the errors. *)
Theorem validate_audits_its_outcome
    computeResult ledgerState sourceBalance config w :
  exists result w' entry,
    validate B computeResult ledgerState sourceBalance config w = (Ok result, w')
    /\ console w'
       = (console w
          ++ Logged {| log_timestamp := clock w (clock_reads w);
                       log_level := "info"; log_layer := "car";
                       log_message := "CAR validation";
                       log_data :=
                         Some [("computeId", JStr (computeId computeResult))] |}
             :: Audited entry
             :: (if isValid result then []
                 else [ Logged {| log_timestamp := clock w (4 + clock_reads w);
                                  log_level := "warn"; log_layer := "car";
                                  log_message := "CAR validation FAILED";
                                  log_data :=
                                    Some [("errors", JStrs (errors result))] |} ]))%list
    /\ audit_action entry = "validate"
    /\ audit_outcome entry = (if isValid result then "success" else "rejected")
    /\ audit_data entry
       = [ ("computeId", JStr (computeId computeResult));
           ("intentId", JStr (intentId (Compute.envelope computeResult)));
           ("isValid", JBool (isValid result));
           ("errorCount", JNum (float_of_Z (Z.of_nat (length (errors result)))));
           ("warningCount", JNum (float_of_Z (Z.of_nat (length (warnings result))))) ].
Proof.
  unfold validate, Validate.logger. open_logger. step. cbv zeta.
  match goal with
  | |- context [if negb ?b then _ else _] => destruct b eqn:V
  end; cbn [negb]; step; eexists _, _, _; (split; [reflexivity|]);
    cbn [console isValid errors warnings audit_action audit_outcome audit_data];
    rewrite <- ?app_assoc; repeat split.
Qed.

Lemma expiry_message_in_errors computeResult sourceBalance config now :
  In (expiryError B (expiry (constraints (Compute.envelope computeResult))) now)
     (flat_map (fun r => if fails B computeResult sourceBalance config now r
                         then [message B computeResult sourceBalance config now r]
                         else [])
               allRules)
  <-> fails B computeResult sourceBalance config now Expiry = true.
Proof.
  unfold allRules. cbn [flat_map]. rewrite !in_app_iff.
  unfold message, amountError, balanceError, blockedError, feeError, expiryError.
  split.
  - intros [H|[H|[H|[H|[H|[]]]]]];
      repeat match type of H with
             | In _ (if ?c then _ else _) => destruct c eqn:?
             end;
      try contradiction; try reflexivity;
      destruct H as [H|[]]; discriminate H.
  - intros ->. do 4 right. left. left. reflexivity.
Qed.

(** X17. The validator, the pre-validation and the time utility agree
    on expiry: at one reading of the clock, [validate] reports the
    envelope expired exactly when [preValidate] answers that it is
    already expired, which is when [isExpiredSec] of its expiry is
    true. *)
Theorem expiry_checks_agree computeResult ledgerState sourceBalance config w :
  let envelope := Compute.envelope computeResult in
  let afterFirstLine := snd (Date_now w) in
  exists result w',
    validate B computeResult ledgerState sourceBalance config w = (Ok result, w')
    /\ (In (expiryError B (expiry (constraints envelope)) (nowAt w)) (errors result)
        <-> fst (preValidate envelope ledgerState afterFirstLine)
            = Ok (false, Some "Envelope already expired"))
    /\ (fst (preValidate envelope ledgerState afterFirstLine)
        = Ok (false, Some "Envelope already expired")
        <-> fst (Time.isExpiredSec (expiry (constraints envelope)) afterFirstLine)
            = Ok true).
Proof.
  cbv zeta.
  destruct (ValidateFacts.validate_run B computeResult sourceBalance config
              ledgerState w) as (result & w' & E & He & _).
  exists result, w'. split; [exact E|].
  rewrite He, expiry_message_in_errors.
  unfold preValidate, Time.isExpiredSec, Time.nowUnixSec, fails, nowAt. step.
  destruct (num_ge _ _).
  - step. repeat split.
  - destruct (num_eq _ _); step; repeat split; discriminate.
Qed.

End WithBuiltins.

End ValidationFacts.

(** ** The cycle check is exact, and the greedy plan *)

Module PlanFacts.
Import Rotation Planning Gate.
Import ComputeFacts RotationFacts SelectionFacts.

Section Graph.
Context (nodeMap : gmap string RotationNode).

#[local] Abbreviation edge := (Rotation.edge nodeMap).

(** A call that answers false leaves the stack as it found it. *)
Lemma hasCycle_keeps_stack fuel nodeId m m' :
  hasCycle fuel nodeMap nodeId m = Some (false, m') -> inStack m' = inStack m.
Proof.
  revert nodeId m m'. induction fuel as [|fuel IH]; intros nodeId m m' H;
    [discriminate|].
  cbn [hasCycle] in H.
  case_bool_decide as Hstack; [discriminate|].
  case_bool_decide as Hvis; [now simplify_eq|].
  assert (Each : forall deps m1 m2,
             eachDependency (hasCycle fuel nodeMap) deps m1 = Some (false, m2) ->
             inStack m2 = inStack m1).
  { induction deps as [|d rest IHd]; intros m1 m2 E; cbn in E; [now simplify_eq|].
    destruct (hasCycle fuel nodeMap d m1) as [[[|] m3]|] eqn:Ed; try discriminate.
    rewrite (IHd _ _ E). exact (IH _ _ _ Ed). }
  destruct (eachDependency _ _ _) as [[[|] m2]|] eqn:E; try discriminate.
  simplify_eq. cbn [inStack]. rewrite (Each _ _ _ E). cbn [inStack].
  apply set_eq. intros x. set_solver.
Qed.

(** A call that answers true has met a cycle: when every node on the
    stack reaches the node of the call, that node reaches a node that
    reaches itself. *)
Lemma hasCycle_true fuel nodeId m m' :
  (forall s, s ∈ inStack m -> tc edge s nodeId) ->
  hasCycle fuel nodeMap nodeId m = Some (true, m') ->
  exists c, rtc edge nodeId c /\ tc edge c c.
Proof.
  revert nodeId m m'. induction fuel as [|fuel IH]; intros nodeId m m' Hs H;
    [discriminate|].
  cbn [hasCycle] in H.
  case_bool_decide as Hstack.
  { exists nodeId. split; [apply rtc_refl | exact (Hs _ Hstack)]. }
  case_bool_decide as Hvis; [discriminate|].
  assert (Each : forall deps m1 m2,
             (forall d s, In d deps -> s ∈ inStack m1 -> tc edge s d) ->
             eachDependency (hasCycle fuel nodeMap) deps m1 = Some (true, m2) ->
             exists d c, In d deps /\ rtc edge d c /\ tc edge c c).
  { induction deps as [|d rest IHd]; intros m1 m2 Hd E; cbn in E; [discriminate|].
    destruct (hasCycle fuel nodeMap d m1) as [[[|] m3]|] eqn:Ed; try discriminate.
    - destruct (IH d m1 m3) as (c & H1 & H2); [|exact Ed|].
      + intros s Hin. apply Hd; [left; reflexivity | exact Hin].
      + exists d, c. split; [left; reflexivity | split; assumption].
    - destruct (IHd m3 m2) as (d' & c & H0 & H1 & H2); [|exact E|].
      + intros d' s Hin Hs'. apply Hd; [right; exact Hin|].
        rewrite <- (hasCycle_keeps_stack _ _ _ _ Ed). exact Hs'.
      + exists d', c. split; [right; exact H0 | split; assumption]. }
  set (m1 := {| visited := {[nodeId]} ∪ visited m;
                inStack := {[nodeId]} ∪ inStack m |}) in H.
  destruct (eachDependency _ _ m1) as [[[|] m2]|] eqn:E; try discriminate.
  assert (Hpre : forall d s,
             In d (dependenciesOf nodeMap nodeId) ->
             s ∈ inStack m1 -> tc edge s d).
  { intros d s Hd Hin. cbn [inStack m1] in Hin.
    apply elem_of_union in Hin as [Hin|Hin].
    - apply elem_of_singleton in Hin. subst s. apply tc_once. exact Hd.
    - eapply tc_r; [exact (Hs _ Hin) | exact Hd]. }
  destruct (Each _ _ _ Hpre E) as (d & c & Hd & H1 & H2).
  exists c. split; [|exact H2]. eapply rtc_l; [exact Hd | exact H1].
Qed.

(** The loop over the nodes: an error names a node that reaches a
    cycle, unless it is the one of the depth bound. *)
Lemma checkNodes_throws fuel nodes m msg :
  inStack m = ∅ ->
  checkNodes fuel nodeMap nodes m = Throw msg ->
  msg = "Maximum call stack size exceeded"
  \/ exists n c, In n nodes
                 /\ msg = "Dependency cycle detected involving node: " ++ id n
                 /\ rtc edge (id n) c /\ tc edge c c.
Proof.
  revert m. induction nodes as [|node rest IH]; intros m Hs H; cbn in H;
    [discriminate|].
  destruct (hasCycle fuel nodeMap (id node) m) as [[[|] m1]|] eqn:E.
  - right.
    assert (Hpre : forall s, s ∈ inStack m -> tc edge s (id node)).
    { intros s Hin. rewrite Hs in Hin. set_solver. }
    destruct (hasCycle_true _ _ _ _ Hpre E) as (c & H1 & H2).
    exists node, c. injection H as <-.
    split; [left; reflexivity|]. split; [reflexivity|]. split; assumption.
  - destruct (IH m1) as [->|(n & c & Hn & Hm & H1 & H2)]; [|exact H|left; reflexivity|].
    + rewrite (hasCycle_keeps_stack _ _ _ _ E). exact Hs.
    + right. exists n, c. split; [right; exact Hn|]. split; [exact Hm|].
      split; assumption.
  - left. injection H as <-. reflexivity.
Qed.

End Graph.

(** The error of the cycle check names a node that reaches a cycle. *)
Lemma validateNoCycles_throws nodes msg :
  validateNoCycles nodes = Throw msg ->
  exists n c, In n nodes
              /\ msg = "Dependency cycle detected involving node: " ++ id n
              /\ rtc (edge (makeNodeMap nodes)) (id n) c
              /\ tc (edge (makeNodeMap nodes)) c c.
Proof.
  intros H.
  destruct (checkNodes_throws (makeNodeMap nodes) (S (length (mentioned nodes)))
              nodes {| visited := ∅; inStack := ∅ |} msg eq_refl H)
    as [->|Hc]; [|exact Hc].
  destruct (validateNoCycles_ends nodes) as [E|(n & _ & E)];
    rewrite E in H; discriminate H.
Qed.

Lemma validateNoCycles_accepts nodes :
  validateNoCycles nodes = Ok tt <-> acyclic nodes.
Proof.
  split.
  - intros E c Hc.
    destruct (validateNoCycles_detects nodes (ex_intro _ c Hc)) as (n & _ & E').
    rewrite E in E'. discriminate E'.
  - intros Ha. destruct (validateNoCycles nodes) as [[]|msg] eqn:E; [reflexivity|].
    destruct (validateNoCycles_throws nodes msg E) as (n & c & _ & _ & _ & Hc).
    destruct (Ha c Hc).
Qed.

(** X18. The cycle check is exact. It accepts the nodes exactly when no
    node of the dependency graph reaches itself; and the node its error
    names reaches a node that lies on a cycle. *)
Theorem validateNoCycles_is_exact nodes :
  (validateNoCycles nodes = Ok tt <-> acyclic nodes)
  /\ (forall msg,
        validateNoCycles nodes = Throw msg ->
        exists n c, In n nodes
                    /\ msg = "Dependency cycle detected involving node: " ++ id n
                    /\ rtc (edge (makeNodeMap nodes)) (id n) c
                    /\ tc (edge (makeNodeMap nodes)) c c).
Proof.
  split; [apply validateNoCycles_accepts | apply validateNoCycles_throws].
Qed.

(** *** The sort permutes *)

Lemma sort_insert_Permutation {A} (cmp : A -> A -> number) x l :
  Permutation (sort_insert cmp x l) (x :: l).
Proof.
  induction l as [|y l IH]; cbn [sort_insert]; [reflexivity|].
  case_match; [reflexivity|].
  rewrite IH. apply perm_swap.
Qed.

Lemma sort_Permutation {A} (cmp : A -> A -> number) l :
  Permutation (sort cmp l) l.
Proof.
  unfold sort.
  assert (G : forall acc,
             Permutation (fold_left (fun acc x => sort_insert cmp x acc) l acc)
                         (acc ++ l)).
  { induction l as [|a l IH]; intros acc; cbn [fold_left].
    - now rewrite app_nil_r.
    - rewrite IH, sort_insert_Permutation. apply Permutation_middle. }
  apply (G []).
Qed.

(** *** The four ranks *)

Lemma ownTier_rank n :
  ownTier n ->
  tierPriority (tier n) = 0%float \/ tierPriority (tier n) = 1%float
  \/ tierPriority (tier n) = 2%float \/ tierPriority (tier n) = 3%float.
Proof.
  unfold ownTier, tierPriority, TIER_PRIORITY. intros [p Hp]. rewrite Hp.
  repeat (apply lookup_insert_Some in Hp as [[_ <-]|[_ Hp]]; [tauto|]).
  rewrite lookup_empty in Hp. discriminate.
Qed.

Section WithBuiltins.
Context (B : Builtins).

(** The comparator of the greedy adapter. *)
#[local] Abbreviation byTier :=
  (fun a b : RotationNode =>
     num_or (tierPriority (tier a) - tierPriority (tier b))%float
            (String_localeCompare B (windowStartUtc a) (windowStartUtc b))).

Lemma byTier_before a b :
  ownTier a -> ownTier b -> num_lt (byTier a b) 0%float = true -> tierLe a b.
Proof.
  intros Ha Hb. unfold tierLe.
  destruct (ownTier_rank a Ha) as [-> | [-> | [-> | ->]]];
    destruct (ownTier_rank b Hb) as [-> | [-> | [-> | ->]]];
    intros H; try reflexivity; vm_compute in H; discriminate H.
Qed.

Lemma byTier_after a b :
  ownTier a -> ownTier b -> num_lt (byTier a b) 0%float = false -> tierLe b a.
Proof.
  intros Ha Hb. unfold tierLe.
  destruct (ownTier_rank a Ha) as [-> | [-> | [-> | ->]]];
    destruct (ownTier_rank b Hb) as [-> | [-> | [-> | ->]]];
    intros H; try reflexivity; vm_compute in H; discriminate H.
Qed.

Lemma tierLe_trans a b c :
  ownTier a -> ownTier b -> ownTier c -> tierLe a b -> tierLe b c -> tierLe a c.
Proof.
  intros Ha Hb Hc. unfold tierLe.
  destruct (ownTier_rank a Ha) as [-> | [-> | [-> | ->]]];
    destruct (ownTier_rank b Hb) as [-> | [-> | [-> | ->]]];
    destruct (ownTier_rank c Hc) as [-> | [-> | [-> | ->]]];
    intros H1 H2; try reflexivity;
    try (vm_compute in H1; discriminate H1); vm_compute in H2; discriminate H2.
Qed.

Lemma sort_insert_by_tier x l :
  ownTier x -> Forall ownTier l -> ForallOrdPairs tierLe l ->
  ForallOrdPairs tierLe (sort_insert byTier x l).
Proof.
  intros Hx Hl Hs. induction Hs as [|y l Hy Hs IH]; cbn [sort_insert].
  - repeat constructor.
  - inversion Hl as [|? ? Hoy Hol]; subst.
    destruct (num_lt (byTier x y) 0%float) eqn:C.
    + constructor; [|constructor; assumption].
      pose proof (byTier_before x y Hx Hoy C) as Hxy.
      constructor; [exact Hxy|].
      rewrite List.Forall_forall in Hy, Hol. apply List.Forall_forall.
      intros z Hz. apply (tierLe_trans x y z); auto.
    + constructor; [|apply IH; exact Hol].
      apply List.Forall_forall. intros z Hz.
      apply sort_insert_In in Hz as [->|Hz].
      * exact (byTier_after x y Hx Hoy C).
      * rewrite List.Forall_forall in Hy. exact (Hy z Hz).
Qed.

Lemma sort_by_tier l :
  Forall ownTier l -> ForallOrdPairs tierLe (sort byTier l).
Proof.
  unfold sort. intros Hl.
  assert (G : forall acc,
             Forall ownTier acc -> ForallOrdPairs tierLe acc ->
             ForallOrdPairs tierLe
               (fold_left (fun acc x => sort_insert byTier x acc) l acc)).
  { induction Hl as [|a l Ha Hl IH]; intros acc Hacc Hs; cbn [fold_left];
      [exact Hs|].
    apply IH.
    - apply List.Forall_forall. intros z Hz.
      apply sort_insert_In in Hz as [->|Hz]; [exact Ha|].
      rewrite List.Forall_forall in Hacc. exact (Hacc z Hz).
    - apply sort_insert_by_tier; assumption. }
  apply G; constructor.
Qed.

(** X19. The greedy adapter schedules every node once, in the order of
    the tiers: its plan lists the nodes permuted so that the number
    [TIER_PRIORITY] gives to the tier never decreases along the plan
    (CRITICAL first, LOW last), each with its own window and the target
    epoch, and its score is the number of nodes. *)
Theorem greedy_plan_follows_the_tiers nodes constraints w :
  Forall ownTier nodes ->
  exists plan sorted,
    solve (greedyRotationAdapter B) nodes constraints w = (Ok plan, w)
    /\ Permutation sorted nodes
    /\ ForallOrdPairs tierLe sorted
    /\ items plan = map (itemOf constraints) sorted
    /\ epoch plan = epochTarget constraints
    /\ score plan = float_of_Z (Z.of_nat (length nodes)).
Proof.
  intros Hown. cbn [solve greedyRotationAdapter]. unfold ret.
  eexists _, (sort byTier nodes). split; [reflexivity|].
  split; [apply sort_Permutation|]. split; [apply sort_by_tier; exact Hown|].
  cbn [items epoch score]. split; [reflexivity|]. split; [reflexivity|].
  rewrite length_map, sort_length. reflexivity.
Qed.

Lemma map_itemOf_related constraints l1 l2 :
  Forall2 sameWork l1 l2 ->
  map (itemOf constraints) l1 = map (itemOf constraints) l2.
Proof.
  induction 1 as [|a b l1 l2 (H1 & _ & H3 & H4 & _) _ IH]; [reflexivity|].
  cbn [map]. rewrite IH. unfold itemOf. now rewrite H1, H3, H4.
Qed.

(** X20. The greedy adapter does not look at the dependencies: for
    nodes that differ in their dependencies alone it returns the same
    plan. *)
Theorem greedy_plan_ignores_dependencies nodes nodes' constraints w :
  Forall2 sameWork nodes nodes' ->
  solve (greedyRotationAdapter B) nodes constraints w
  = solve (greedyRotationAdapter B) nodes' constraints w.
Proof.
  intros H. cbn [solve greedyRotationAdapter]. unfold ret.
  assert (Hs : Forall2 sameWork (sort byTier nodes) (sort byTier nodes')).
  { apply (sort_related sameWork); [|exact H].
    intros a1 a2 b1 b2 (_ & Ta & Sa & _) (_ & Tb & Sb & _).
    now rewrite Ta, Sa, Tb, Sb. }
  pose proof (map_itemOf_related constraints _ _ Hs) as Hm.
  unfold itemOf in Hm. rewrite Hm.
  rewrite (Forall2_length _ _ _ H). reflexivity.
Qed.

Lemma validateNodes_accepts nodes :
  Forall (fun n => isValidRotationNode n = true) nodes -> validateNodes nodes = Ok tt.
Proof.
  induction 1 as [|n nodes Hn _ IH]; [reflexivity|].
  cbn [validateNodes]. now rewrite Hn.
Qed.

(** X21. On well-formed nodes without a dependency cycle and
    well-formed constraints [buildPlan] returns the plan of its adapter,
    whatever the adapter, and writes one audit entry with the adapter's
    id and the number of items of the plan. *)
Theorem buildPlan_returns_the_adapters_plan this nodes constraints w :
  Forall (fun n => isValidRotationNode n = true) nodes ->
  isValidConstraints constraints = true ->
  acyclic nodes ->
  let w1 :=
    snd (Logging.info (logger B) "Building rotation plan"
           (Some [ ("nodeCount", JNum (float_of_Z (Z.of_nat (length nodes))));
                   ("epochTarget", JNum (epochTarget constraints));
                   ("adapter", JStr (adapter_id (adapter this))) ]) w) in
  match solve (adapter this) nodes constraints w1 with
  | (Ok plan, w2) =>
      exists w' entry,
        buildPlan B this nodes constraints w = (Ok plan, w')
        /\ console w' = (console w2 ++ [Audited entry])%list
        /\ audit_action entry = "buildRotationPlan"
        /\ audit_outcome entry = "success"
        /\ audit_data entry
           = [ ("adapter", JStr (adapter_id (adapter this)));
               ("nodeCount", JNum (float_of_Z (Z.of_nat (length nodes))));
               ("planItemCount",
                JNum (float_of_Z (Z.of_nat (length (items plan)))));
               ("score", JNum (score plan)) ]
  | (Throw msg, w2) => buildPlan B this nodes constraints w = (Throw msg, w2)
  end.
Proof.
  intros Hn Hc Ha. cbv zeta.
  unfold buildPlan, logger.
  cbn [Logging.info Logging.audit Logging.createLogger].
  unfold Logging.log, Logging.generateAuditId. step.
  rewrite (validateNodes_accepts _ Hn), Hc.
  rewrite (proj2 (validateNoCycles_accepts nodes) Ha). cbn [negb]. step.
  match goal with
  | |- context [solve (adapter this) nodes constraints ?w0] =>
      destruct (solve (adapter this) nodes constraints w0) as [[plan|msg] w2] eqn:E
  end.
  - rewrite (bind_run _ _ _ _ _ E). step.
    eexists _, _. split; [reflexivity|]. repeat split.
  - rewrite (bind_throw _ _ _ _ _ E). reflexivity.
Qed.

End WithBuiltins.

Lemma chainNodes_acyclic : acyclic Cases.chainNodes.
Proof. apply validateNoCycles_accepts. vm_compute. reflexivity. Defined.

Lemma chainNodes_ownTier : Forall ownTier Cases.chainNodes.
Proof. repeat constructor; vm_compute; eauto. Defined.

(** The three sample nodes: the gateway is scheduled first, the vault
    it depends on last. *)
Lemma greedy_plan_follows_the_tiers_witness :
  exists plan sorted,
    solve (greedyRotationAdapter Engine.builtins) Cases.chainNodes
      (Sample.someConstraints 5%float) Sample.world = (Ok plan, Sample.world)
    /\ Permutation sorted Cases.chainNodes
    /\ ForallOrdPairs tierLe sorted
    /\ map item_id (items plan) = ["gateway"; "signer"; "vault"].
Proof.
  destruct (greedy_plan_follows_the_tiers Engine.builtins Cases.chainNodes
              (Sample.someConstraints 5%float) Sample.world chainNodes_ownTier)
    as (plan & sorted & E & Hp & Hs & Hi & _).
  exists plan, sorted. split; [exact E|]. split; [exact Hp|]. split; [exact Hs|].
  cbn [solve greedyRotationAdapter] in E. unfold ret in E.
  injection E as <-. vm_compute. reflexivity.
Defined.

(** The cyclic sample nodes and the same nodes without dependencies get
    the same plan. *)
Lemma greedy_plan_ignores_dependencies_witness :
  solve (greedyRotationAdapter Engine.builtins) Sample.cyclicNodes
    (Sample.someConstraints 5%float) Sample.world
  = solve (greedyRotationAdapter Engine.builtins)
      (map Cases.withoutDependencies Sample.cyclicNodes)
      (Sample.someConstraints 5%float) Sample.world.
Proof.
  apply greedy_plan_ignores_dependencies.
  repeat constructor.
Defined.

(** The three sample nodes are planned by the default optimizer. *)
Lemma buildPlan_returns_the_adapters_plan_witness :
  exists plan w',
    buildPlan Engine.builtins (defaultRotationOptimizer Engine.builtins)
      Cases.chainNodes (Sample.someConstraints 5%float) Sample.world
    = (Ok plan, w')
    /\ map item_id (items plan) = ["gateway"; "signer"; "vault"].
Proof.
  pose proof (buildPlan_returns_the_adapters_plan Engine.builtins
                (defaultRotationOptimizer Engine.builtins) Cases.chainNodes
                (Sample.someConstraints 5%float) Sample.world) as H.
  cbv zeta in H.
  cbn [solve adapter defaultRotationOptimizer greedyRotationAdapter] in H.
  unfold ret in H.
  destruct H as (w' & entry & E & _).
  - repeat constructor.
  - reflexivity.
  - exact chainNodes_acyclic.
  - eexists _, w'. split; [exact E|]. vm_compute. reflexivity.
Defined.

End PlanFacts.

(** ** Addresses of the Interledger module *)

Module IlpFacts.
Import Ilp.
Import HashFacts.

Lemma split_not_empty sep s : split sep s <> [].
Proof.
  destruct s as [|c r]; cbn [split]; [discriminate|].
  destruct (Ascii.eqb c sep); [discriminate|].
  destruct (split sep r); discriminate.
Qed.

(** Joining the pieces with the separator gives the text back. *)
Lemma join_split sep s : join (String sep "") (split sep s) = s.
Proof.
  induction s as [|c r IH]; [reflexivity|].
  cbn [split]. destruct (Ascii.eqb_spec c sep) as [->|Hne].
  - pose proof (split_not_empty sep r) as Hr.
    destruct (split sep r) as [|piece pieces] eqn:E; [contradiction|].
    cbn [join] in *. rewrite IH. reflexivity.
  - destruct (split sep r) as [|piece pieces] eqn:E.
    + exfalso. exact (split_not_empty sep r E).
    + cbn [join] in *. destruct pieces as [|p ps].
      * now rewrite IH.
      * rewrite append_cons, IH. reflexivity.
Qed.

(** The first piece holds no separator, and it is the only piece
    exactly when the text holds none. *)
Lemma split_first sep s :
  match split sep s with
  | [] => False
  | first :: others =>
      occurs sep first = false
      /\ (occurs sep s = false -> others = [])
      /\ (occurs sep s = true -> others <> [])
  end.
Proof.
  induction s as [|c r IH]; [cbn; auto|].
  cbn [split occurs]. destruct (Ascii.eqb c sep) eqn:C; cbn [orb].
  - split; [reflexivity|]. split; [discriminate|].
    intros _ H. exact (split_not_empty sep r H).
  - destruct (split sep r) as [|piece pieces]; [contradiction|].
    destruct IH as (H1 & H2 & H3). cbn [occurs]. rewrite C. cbn [orb].
    split; [exact H1|]. split; assumption.
Qed.

Lemma substring_all s : substring 0 (String.length s) s = s.
Proof. induction s as [|c r IH]; [reflexivity|]. cbn. now rewrite IH. Qed.

Lemma prefix_dollar address :
  String.prefix "$" address = true ->
  address = String "$" (slice 1 address).
Proof.
  destruct address as [|c rest]; [discriminate|].
  unfold slice. cbn [String.prefix String.length substring Nat.sub].
  destruct (ascii_dec "$" c) as [<-|]; [|discriminate].
  intros _. rewrite Nat.sub_0_r, substring_all. reflexivity.
Qed.

(** X22. [resolveAddress] answers [null] exactly for an address that
    starts with neither [$] nor [g.]. An address that starts with [$] is
    a payment pointer, whatever follows: its host holds no slash, its
    path starts with one, and [$], the host and the path spell the
    address, with a slash added at the end when the address has none.
    Any other address that starts with [g.] is returned as it is. *)
Theorem resolveAddress_cases address :
  match resolveAddress address with
  | None =>
      String.prefix "$" address = false /\ String.prefix "g." address = false
  | Some resolved =>
      (String.prefix "$" address = true
       /\ type resolved = "payment-pointer"
       /\ ilpAddress resolved = None
       /\ exists h p,
            host resolved = Some h /\ path resolved = Some p
            /\ occurs "/" h = false
            /\ String.prefix "/" p = true
            /\ "$" ++ h ++ p
               = (if occurs "/" address then address else address ++ "/"))
      \/ (String.prefix "$" address = false
          /\ String.prefix "g." address = true
          /\ type resolved = "ilp-address"
          /\ host resolved = None /\ path resolved = None
          /\ ilpAddress resolved = Some address)
  end.
Proof.
  unfold resolveAddress.
  destruct (String.prefix "$" address) eqn:P.
  - left. split; [reflexivity|]. cbn [type ilpAddress host path].
    split; [reflexivity|]. split; [reflexivity|].
    pose proof (prefix_dollar address P) as Ha.
    remember (slice 1 address) as rest eqn:Hrest. clear Hrest P. subst address.
    pose proof (join_split "/" rest) as Hj.
    pose proof (split_first "/" rest) as Hf.
    destruct (split "/" rest) as [|h t]; [contradiction|].
    destruct Hf as (Hh & Hnone & Hsome).
    exists h, ("/" ++ join "/" t).
    split; [reflexivity|]. split; [reflexivity|]. split; [exact Hh|].
    split.
    { rewrite append_cons. cbn [String.prefix].
      destruct (ascii_dec "/" "/"); [|contradiction].
      destruct ("" ++ join "/" t); reflexivity. }
    cbn [occurs Ascii.eqb Bool.eqb orb].
    destruct (occurs "/" rest).
    + destruct t as [|p ps]; [destruct (Hsome eq_refl eq_refl)|].
      cbn [join] in Hj. rewrite <- Hj. reflexivity.
    + rewrite (Hnone eq_refl) in *. cbn [join] in *. rewrite <- Hj.
      rewrite !append_cons. cbn [String.append]. reflexivity.
  - destruct (String.prefix "g." address) eqn:G.
    + right. repeat split.
    + split; reflexivity.
Qed.

End IlpFacts.

(** ** Settlements *)

Module SettlementFacts.
Import Types Settlement Gate.
Import ComputeFacts GateFacts.

Section WithBuiltins.
Context (B : Builtins).

(** X23. A settlement that records what [route] returned is submitted
    exactly when the routing succeeded, that is for a fresh attestation
    on the test ledger, and then holds the transaction hash; otherwise
    it is failed, which is final, and holds no hash. Its other fields
    are kept. *)
Theorem settlement_follows_the_routing settlement attestResult config w :
  exists updated w',
    (routed ← Route.route B attestResult config;
     recordSubmission B settlement (Route.submission routed)) w
    = (Ok updated, w')
    /\ status updated
       = (if freshAt w (Attest.attestation attestResult)
             && String.eqb (Route.ledgerType config) "test"
          then "submitted" else "failed")
    /\ isFinal updated
       = negb (freshAt w (Attest.attestation attestResult)
               && String.eqb (Route.ledgerType config) "test")
    /\ (is_Some (settlement_transactionHash updated)
        <-> status updated = "submitted")
    /\ settlementId updated = settlementId settlement
    /\ settlement_intentId updated = settlement_intentId settlement
    /\ settlement_timestamp updated = settlement_timestamp settlement
    /\ ledger updated = ledger settlement
    /\ confirmations updated = confirmations settlement
    /\ finalizedAt updated = finalizedAt settlement.
Proof.
  destruct (route_run B attestResult config w) as (routed & w1 & E & _ & Hs).
  rewrite (bind_run _ _ _ _ _ E).
  unfold recordSubmission, logger. open_logger. step.
  eexists _, _. split; [reflexivity|].
  cbn [status settlementId settlement_intentId settlement_timestamp ledger
       confirmations finalizedAt settlement_transactionHash].
  rewrite Hs.
  destruct (freshAt w (Attest.attestation attestResult)); cbn [andb].
  - destruct (String.eqb (Route.ledgerType config) "xrpl") eqn:E1.
    { apply String.eqb_eq in E1. rewrite E1. cbn.
      repeat split; try discriminate. intros [x Hx]. discriminate Hx. }
    destruct (String.eqb (Route.ledgerType config) "ilp") eqn:E2.
    { apply String.eqb_eq in E2. rewrite E2. cbn.
      repeat split; try discriminate. intros [x Hx]. discriminate Hx. }
    destruct (String.eqb (Route.ledgerType config) "test") eqn:E3; cbn;
      repeat split; try discriminate; eauto.
    intros [x Hx]. discriminate Hx.
  - cbn. repeat split; try discriminate. intros [x Hx]. discriminate Hx.
Qed.

(** X24. [checkTimeout] changes nothing but the status, and that only
    to [timeout]: a finalized settlement is returned as it is, without a
    log line, however late; a final settlement stays final; and the
    status becomes [timeout] exactly when the time allowed has passed
    and the settlement is not finalized. *)
Theorem checkTimeout_only_times_out settlement config w :
  let late :=
    num_gt (clock w (clock_reads w) - settlement_timestamp settlement)%float
           (timeoutMs config) in
  exists updated w',
    checkTimeout B settlement config w = (Ok updated, w')
    /\ updated
       = (if late && negb (String.eqb (status settlement) "finalized")
          then with_status settlement "timeout" else settlement)
    /\ (status settlement = "finalized" ->
        updated = settlement /\ console w' = console w)
    /\ (isFinal settlement = true -> isFinal updated = true).
Proof.
  cbv zeta. unfold checkTimeout, logger. open_logger. step.
  destruct (num_gt _ _ && _) eqn:L; step; eexists _, _;
    (split; [reflexivity|]); (split; [reflexivity|]); split.
  - intros Hf. rewrite Hf in L. rewrite andb_false_r in L. discriminate L.
  - intros _. reflexivity.
  - intros _. split; reflexivity.
  - intros Hf. exact Hf.
Qed.

(** X25. [recordConfirmation] does not look at the status: with fewer
    confirmations than required it puts any settlement, a failed, timed
    out or finalized one too, back to [confirming], which is not final,
    clears the time of finality and writes nothing. *)
Theorem recordConfirmation_reopens settlement newConfirmations config w :
  num_ge newConfirmations (confirmationRequirement config) = false ->
  exists updated,
    recordConfirmation B settlement newConfirmations config w = (Ok updated, w)
    /\ status updated = "confirming"
    /\ isFinal updated = false
    /\ finalizedAt updated = None
    /\ confirmations updated = newConfirmations.
Proof.
  intros H. unfold recordConfirmation. rewrite H. step.
  eexists. split; [reflexivity|]. repeat split.
Qed.

End WithBuiltins.

Lemma filter_lengths_partition {A} (f g h : A -> bool) l :
  Forall (fun x => (f x = true /\ g x = false /\ h x = false)
                   \/ (f x = false /\ g x = true /\ h x = false)
                   \/ (f x = false /\ g x = false /\ h x = true)) l ->
  length (List.filter f l) + length (List.filter g l) + length (List.filter h l)
  = length l.
Proof.
  induction 1 as [|x l Hx _ IH]; [reflexivity|].
  cbn [List.filter].
  destruct Hx as [(-> & -> & ->)|[(-> & -> & ->)|(-> & -> & ->)]];
    cbn [length]; lia.
Qed.

(** Three tests of which every element passes exactly one split a list
    into three that hold its elements once each. *)
Lemma filter_permutation_partition {A} (f g h : A -> bool) l :
  Forall (fun x => (f x = true /\ g x = false /\ h x = false)
                   \/ (f x = false /\ g x = true /\ h x = false)
                   \/ (f x = false /\ g x = false /\ h x = true)) l ->
  Permutation (List.filter f l ++ List.filter g l ++ List.filter h l)%list l.
Proof.
  induction 1 as [|x l Hx _ IH]; [constructor|].
  cbn [List.filter].
  destruct Hx as [(-> & -> & ->)|[(-> & -> & ->)|(-> & -> & ->)]].
  - cbn [app]. constructor. exact IH.
  - symmetry. apply Permutation_cons_app. symmetry. exact IH.
  - symmetry. rewrite app_assoc. apply Permutation_cons_app.
    rewrite <- app_assoc. symmetry. exact IH.
Qed.

(** X26. The three counts of a summary partition the settlements whose
    status is one of the six of the type, along [isFinal]: [pending]
    counts the settlements that are not final, [finalized] the ones
    whose status is finalized, [failed] the other final ones, and
    [total] all of them. These three lists hold every settlement once:
    put one after the other they are a permutation of the settlements,
    so the three counts add up to the total. *)
Theorem summary_counts_partition settlements :
  Forall (fun s => In (status s) statuses) settlements ->
  let summary := summarizeSettlements settlements in
  let pendingOnes := List.filter (fun s => negb (isFinal s)) settlements in
  let finalizedOnes :=
    List.filter (fun s => String.eqb (status s) "finalized") settlements in
  let failedOnes :=
    List.filter (fun s => isFinal s && negb (String.eqb (status s) "finalized"))
      settlements in
  pending summary = count pendingOnes
  /\ finalized summary = count finalizedOnes
  /\ failed summary = count failedOnes
  /\ total summary = count settlements
  /\ Permutation (pendingOnes ++ finalizedOnes ++ failedOnes)%list settlements
  /\ length pendingOnes + length finalizedOnes + length failedOnes
     = length settlements.
Proof.
  intros H. cbv zeta. unfold summarizeSettlements.
  cbn [pending finalized failed total].
  assert (Hp : List.filter
                 (fun s => includes ["pending"; "submitted"; "confirming"] (status s))
                 settlements
               = List.filter (fun s => negb (isFinal s)) settlements).
  { apply filter_ext_in. intros s Hs.
    rewrite List.Forall_forall in H. specialize (H s Hs).
    unfold statuses in H. cbn [In] in H. unfold isFinal.
    destruct H as [<-|[<-|[<-|[<-|[<-|[<-|[]]]]]]]; reflexivity. }
  assert (Hf : List.filter (fun s => includes ["failed"; "timeout"] (status s))
                 settlements
               = List.filter
                   (fun s => isFinal s && negb (String.eqb (status s) "finalized"))
                   settlements).
  { apply filter_ext_in. intros s Hs.
    rewrite List.Forall_forall in H. specialize (H s Hs).
    unfold statuses in H. cbn [In] in H. unfold isFinal.
    destruct H as [<-|[<-|[<-|[<-|[<-|[<-|[]]]]]]]; reflexivity. }
  assert (Hcases :
            Forall (fun s =>
                      (negb (isFinal s) = true
                       /\ String.eqb (status s) "finalized" = false
                       /\ isFinal s && negb (String.eqb (status s) "finalized") = false)
                      \/ (negb (isFinal s) = false
                          /\ String.eqb (status s) "finalized" = true
                          /\ isFinal s && negb (String.eqb (status s) "finalized")
                             = false)
                      \/ (negb (isFinal s) = false
                          /\ String.eqb (status s) "finalized" = false
                          /\ isFinal s && negb (String.eqb (status s) "finalized")
                             = true)) settlements).
  { eapply List.Forall_impl; [|exact H]. intros s Hs. unfold statuses in Hs.
    cbn [In] in Hs. unfold isFinal.
    destruct Hs as [<-|[<-|[<-|[<-|[<-|[<-|[]]]]]]]; cbn; tauto. }
  rewrite Hp, Hf.
  split; [reflexivity|]. split; [reflexivity|].
  split; [reflexivity|]. split; [reflexivity|]. split.
  - apply (filter_permutation_partition _ _ _ _ Hcases).
  - apply (filter_lengths_partition _ _ _ _ Hcases).
Qed.

(** A finalized settlement that gets two confirmations where three are
    required goes back to confirming. *)
Lemma recordConfirmation_reopens_witness :
  isFinal (Cases.settlement "finalized") = true
  /\ exists updated,
       recordConfirmation Engine.builtins (Cases.settlement "finalized") 2%float
         Cases.settlementConfig Sample.world = (Ok updated, Sample.world)
       /\ status updated = "confirming"
       /\ isFinal updated = false.
Proof.
  split; [reflexivity|].
  destruct (recordConfirmation_reopens Engine.builtins (Cases.settlement "finalized")
              2%float Cases.settlementConfig Sample.world eq_refl)
    as (updated & E & Hs & Hf & _).
  exists updated. auto.
Defined.

(** One settlement in each of four statuses: one is not final, one is
    finalized, two have failed. *)
Lemma summary_counts_partition_witness :
  let settlements :=
    [ Cases.settlement "pending"; Cases.settlement "finalized";
      Cases.settlement "failed"; Cases.settlement "timeout" ] in
  pending (summarizeSettlements settlements) = 1%float
  /\ finalized (summarizeSettlements settlements) = 1%float
  /\ failed (summarizeSettlements settlements) = 2%float
  /\ total (summarizeSettlements settlements) = 4%float
  /\ Permutation
       [ Cases.settlement "pending"; Cases.settlement "finalized";
         Cases.settlement "failed"; Cases.settlement "timeout" ]
       settlements.
Proof.
  cbv zeta.
  destruct (summary_counts_partition
              [ Cases.settlement "pending"; Cases.settlement "finalized";
                Cases.settlement "failed"; Cases.settlement "timeout" ])
    as (Hp & Hf & Hx & Ht & Hperm & _).
  - repeat constructor; cbn; tauto.
  - rewrite Hp, Hf, Hx, Ht.
    split; [vm_compute; reflexivity|]. split; [vm_compute; reflexivity|].
    split; [vm_compute; reflexivity|]. split; [vm_compute; reflexivity|].
    exact Hperm.
Defined.

End SettlementFacts.
